(** * Token resolution and market-data aggregation (aggregator-service)

    A shallow embedding of
    [services/aggregator-service/internal/services/external.go]
    and the properties of its token search, on-chain metadata fetch,
    de-duplication and market-data enrichment. *)

From Stdlib Require Import ZArith NArith QArith List String Ascii Lia Bool.
From Stdlib.Strings Require Import Byte.
From stdpp Require Import base option list gmap strings pretty.

Local Open Scope string_scope.
Local Open Scope list_scope.
Local Open Scope Z_scope.

(** ** Go byte strings

    A Go [string] is a sequence of bytes; it is embedded as Rocq's [string].
    [ToLower], [ToUpper] and [EqualFold] act on the ASCII letters and keep
    every other byte (contract addresses and ticker symbols are ASCII; the
    Unicode case mapping Go applies to non-ASCII runes is not modelled).
    [TrimSpace] is exact on every byte string: besides the six ASCII blanks
    it removes the UTF-8 encodings of the runes of [unicode.IsSpace]. *)
Module GoStrings.

Definition code (c : ascii) : N := N_of_ascii c.

Definition in_range (lo hi c : ascii) : bool :=
  ((code lo <=? code c) && (code c <=? code hi))%N.

Definition lower_byte (c : ascii) : ascii :=
  if in_range "A" "Z" c then ascii_of_N (code c + 32) else c.

Definition upper_byte (c : ascii) : ascii :=
  if in_range "a" "z" c then ascii_of_N (code c - 32) else c.

Fixpoint map_bytes (f : ascii -> ascii) (s : string) : string :=
  match s with
  | EmptyString => EmptyString
  | String c r => String (f c) (map_bytes f r)
  end.

Definition ToLower : string -> string := map_bytes lower_byte.
Definition ToUpper : string -> string := map_bytes upper_byte.

Definition EqualFold (a b : string) : bool :=
  String.eqb (ToLower a) (ToLower b).

Definition HasSuffix (s suffix : string) : bool :=
  (String.length suffix <=? String.length s)%nat
  && String.eqb
       (String.substring (String.length s - String.length suffix)
                         (String.length suffix) s)
       suffix.

Definition TrimSuffix (s suffix : string) : string :=
  if HasSuffix s suffix
  then String.substring 0 (String.length s - String.length suffix) s
  else s.

(** [strings.Contains s substr]: [substr] occurs in [s]. *)
Fixpoint Contains (s substr : string) : bool :=
  String.prefix substr s
  || match s with
     | EmptyString => false
     | String _ r => Contains r substr
     end.

(** The ASCII blanks of Go's [asciiSpace] table. *)
Definition ascii_space (c : ascii) : bool :=
  match code c with
  | 9 | 10 | 11 | 12 | 13 | 32 => true
  | _ => false
  end%N.

(** Bytes 2 and 3 of a three-byte white-space rune whose first byte is
    [lead]: U+1680, U+2000..U+200A, U+2028, U+2029, U+202F, U+205F,
    U+3000. *)
Definition space3 (lead b2 b3 : N) : bool :=
  match lead, b2 with
  | 225, 154 => (b3 =? 128)
  | 226, 128 => ((128 <=? b3) && (b3 <=? 138)) || (b3 =? 168)
                || (b3 =? 169) || (b3 =? 175)
  | 226, 129 => (b3 =? 159)
  | 227, 128 => (b3 =? 128)
  | _, _ => false
  end%N.

(** Bytes of a two-byte white-space rune: U+0085 and U+00A0. *)
Definition space2 (lead b2 : N) : bool :=
  ((lead =? 194) && ((b2 =? 133) || (b2 =? 160)))%N.

Fixpoint trim_left (s : string) : string :=
  match s with
  | EmptyString => EmptyString
  | String c1 r1 =>
      if ascii_space c1 then trim_left r1
      else match r1 with
           | EmptyString => s
           | String c2 r2 =>
               if space2 (code c1) (code c2) then trim_left r2
               else match r2 with
                    | EmptyString => s
                    | String c3 r3 =>
                        if space3 (code c1) (code c2) (code c3)
                        then trim_left r3 else s
                    end
           end
  end.

(** Trailing blanks, on the reversed byte sequence: the last byte of a
    rune comes first. *)
Fixpoint trim_left_rev (s : string) : string :=
  match s with
  | EmptyString => EmptyString
  | String c1 r1 =>
      if ascii_space c1 then trim_left_rev r1
      else match r1 with
           | EmptyString => s
           | String c2 r2 =>
               if space2 (code c2) (code c1) then trim_left_rev r2
               else match r2 with
                    | EmptyString => s
                    | String c3 r3 =>
                        if space3 (code c3) (code c2) (code c1)
                        then trim_left_rev r3 else s
                    end
           end
  end.

Definition TrimSpace (s : string) : string :=
  String.rev (trim_left_rev (String.rev (trim_left s))).

End GoStrings.

(** ** Regular expressions

    The two patterns of the source are anchored on both sides ([^...$]
    without flags), so [MatchString] accepts a string exactly when the whole
    string is in the language of the pattern. *)
Module Regexp.

Inductive re : Type :=
| Nul                                   (* no string *)
| Eps                                   (* the empty string *)
| Lit (c : ascii)                       (* one given byte *)
| Cls (ranges : list (ascii * ascii))   (* [a-fA-F0-9] *)
| Cat (r1 r2 : re)
| Alt (r1 r2 : re)
| Rep (r : re) (lo hi : nat).           (* r{lo,hi} *)

Definition in_class (ranges : list (ascii * ascii)) (c : ascii) : bool :=
  existsb (fun p => GoStrings.in_range (fst p) (snd p) c) ranges.

Fixpoint nullable (r : re) : bool :=
  match r with
  | Nul => false
  | Eps => true
  | Lit _ => false
  | Cls _ => false
  | Cat r1 r2 => nullable r1 && nullable r2
  | Alt r1 r2 => nullable r1 || nullable r2
  | Rep r lo hi => Nat.leb lo hi && (Nat.eqb lo 0 || nullable r)
  end.

Fixpoint deriv (c : ascii) (r : re) : re :=
  match r with
  | Nul => Nul
  | Eps => Nul
  | Lit a => if Ascii.eqb a c then Eps else Nul
  | Cls rs => if in_class rs c then Eps else Nul
  | Cat r1 r2 =>
      if nullable r1
      then Alt (Cat (deriv c r1) r2) (deriv c r2)
      else Cat (deriv c r1) r2
  | Alt r1 r2 => Alt (deriv c r1) (deriv c r2)
  | Rep r lo hi =>
      match hi with
      | O => Nul
      | S hi' => Cat (deriv c r) (Rep r (Nat.pred lo) hi')
      end
  end.

Fixpoint matches (r : re) (s : string) : bool :=
  match s with
  | EmptyString => nullable r
  | String c s' => matches (deriv c r) s'
  end.

(** [regexp.MustCompile(p).MatchString(s)] for an anchored pattern. *)
Definition MatchString (r : re) (s : string) : bool := matches r s.

End Regexp.

(** Address regex patterns (external.go, lines 74-78). *)

(** [^0x[a-fA-F0-9]{40}$] *)
Definition ethereumAddressRegex : Regexp.re :=
  Regexp.Cat (Regexp.Lit "0")
    (Regexp.Cat (Regexp.Lit "x")
       (Regexp.Rep (Regexp.Cls [("a", "f"); ("A", "F"); ("0", "9")]%char) 40 40)).

(** [^[A-Za-z][A-Za-z0-9]{1,10}$] *)
Definition symbolRegex : Regexp.re :=
  Regexp.Cat (Regexp.Cls [("A", "Z"); ("a", "z")]%char)
    (Regexp.Rep (Regexp.Cls [("A", "Z"); ("a", "z"); ("0", "9")]%char) 1 10).

(** [DetectInputType] determines if input is address or symbol. *)
Definition DetectInputType (input : string) : string :=
  let input := GoStrings.TrimSpace input in
  if Regexp.MatchString ethereumAddressRegex input then "address"
  else if Regexp.MatchString symbolRegex input then "symbol"
  else "unknown".


(** ** Decimals

    [decimal.Decimal] (shopspring) is a big integer coefficient scaled by a
    power of ten.  [decimal.NewFromString] belongs to that library and is
    taken as a parameter (see [Deps]); the comparisons are those of the
    numeric value. *)
Module decimal.

Record Decimal : Type := mkDecimal { coefficient : Z; exponent : Z }.

Definition Zero : Decimal := mkDecimal 0 1.

(** The zero value [Decimal{}] of an unset field. *)
Definition unset : Decimal := mkDecimal 0 0.

Definition value (d : Decimal) : Q :=
  (inject_Z (coefficient d) * Qpower (10 # 1) (exponent d))%Q.

Definition GreaterThan (d d2 : Decimal) : bool :=
  negb (Qle_bool (value d) (value d2)).

Definition IsPositive (d : Decimal) : bool := (0 <? coefficient d)%Z.

End decimal.
Export decimal(Decimal).

(** ** Data model *)

(** [models.Token], with the fields this file reads or writes.
    [LastUpdated] is a [time.Time], embedded as nanoseconds; the zero
    time is [0]. *)
Record Token : Type := mkToken {
  Address : string;
  Symbol : string;
  Name : string;
  ChainID : Z;
  Decimals : Z;
  LogoURI : string;
  Tags : list string;
  PriceUSD : Decimal;
  Change24h : Decimal;
  Volume24h : Decimal;
  MarketCap : Decimal;
  Source : string;
  Verified : bool;
  Popular : bool;
  LastUpdated : Z
}.

(** The composite literal [&models.Token{Address: .., Symbol: .., Name: ..,
    ChainID: .., Decimals: .., Source: .., Verified: .., Popular: ..}]:
    every other field has its zero value. *)
Definition newToken (address symbol name : string) (chainID decimals : Z)
    (source : string) (verified popular : bool) : Token :=
  {| Address := address; Symbol := symbol; Name := name; ChainID := chainID;
     Decimals := decimals; LogoURI := ""; Tags := [];
     PriceUSD := decimal.unset; Change24h := decimal.unset;
     Volume24h := decimal.unset; MarketCap := decimal.unset;
     Source := source; Verified := verified; Popular := popular;
     LastUpdated := 0 |}.

Definition set_Source (v : string) (t : Token) : Token :=
  {| Address := Address t; Symbol := Symbol t; Name := Name t;
     ChainID := ChainID t; Decimals := Decimals t; LogoURI := LogoURI t;
     Tags := Tags t; PriceUSD := PriceUSD t; Change24h := Change24h t;
     Volume24h := Volume24h t; MarketCap := MarketCap t;
     Source := v; Verified := Verified t; Popular := Popular t;
     LastUpdated := LastUpdated t |}.

Definition set_Popular (v : bool) (t : Token) : Token :=
  {| Address := Address t; Symbol := Symbol t; Name := Name t;
     ChainID := ChainID t; Decimals := Decimals t; LogoURI := LogoURI t;
     Tags := Tags t; PriceUSD := PriceUSD t; Change24h := Change24h t;
     Volume24h := Volume24h t; MarketCap := MarketCap t;
     Source := Source t; Verified := Verified t; Popular := v;
     LastUpdated := LastUpdated t |}.

Definition set_LogoURI (v : string) (t : Token) : Token :=
  {| Address := Address t; Symbol := Symbol t; Name := Name t;
     ChainID := ChainID t; Decimals := Decimals t; LogoURI := v;
     Tags := Tags t; PriceUSD := PriceUSD t; Change24h := Change24h t;
     Volume24h := Volume24h t; MarketCap := MarketCap t;
     Source := Source t; Verified := Verified t; Popular := Popular t;
     LastUpdated := LastUpdated t |}.

Definition set_Tags (v : list string) (t : Token) : Token :=
  {| Address := Address t; Symbol := Symbol t; Name := Name t;
     ChainID := ChainID t; Decimals := Decimals t; LogoURI := LogoURI t;
     Tags := v; PriceUSD := PriceUSD t; Change24h := Change24h t;
     Volume24h := Volume24h t; MarketCap := MarketCap t;
     Source := Source t; Verified := Verified t; Popular := Popular t;
     LastUpdated := LastUpdated t |}.

Definition set_PriceUSD (v : Decimal) (t : Token) : Token :=
  {| Address := Address t; Symbol := Symbol t; Name := Name t;
     ChainID := ChainID t; Decimals := Decimals t; LogoURI := LogoURI t;
     Tags := Tags t; PriceUSD := v; Change24h := Change24h t;
     Volume24h := Volume24h t; MarketCap := MarketCap t;
     Source := Source t; Verified := Verified t; Popular := Popular t;
     LastUpdated := LastUpdated t |}.

Definition set_Volume24h (v : Decimal) (t : Token) : Token :=
  {| Address := Address t; Symbol := Symbol t; Name := Name t;
     ChainID := ChainID t; Decimals := Decimals t; LogoURI := LogoURI t;
     Tags := Tags t; PriceUSD := PriceUSD t; Change24h := Change24h t;
     Volume24h := v; MarketCap := MarketCap t;
     Source := Source t; Verified := Verified t; Popular := Popular t;
     LastUpdated := LastUpdated t |}.

Definition set_MarketCap (v : Decimal) (t : Token) : Token :=
  {| Address := Address t; Symbol := Symbol t; Name := Name t;
     ChainID := ChainID t; Decimals := Decimals t; LogoURI := LogoURI t;
     Tags := Tags t; PriceUSD := PriceUSD t; Change24h := Change24h t;
     Volume24h := Volume24h t; MarketCap := v;
     Source := Source t; Verified := Verified t; Popular := Popular t;
     LastUpdated := LastUpdated t |}.

Definition set_Change24h (v : Decimal) (t : Token) : Token :=
  {| Address := Address t; Symbol := Symbol t; Name := Name t;
     ChainID := ChainID t; Decimals := Decimals t; LogoURI := LogoURI t;
     Tags := Tags t; PriceUSD := PriceUSD t; Change24h := v;
     Volume24h := Volume24h t; MarketCap := MarketCap t;
     Source := Source t; Verified := Verified t; Popular := Popular t;
     LastUpdated := LastUpdated t |}.

Definition set_LastUpdated (v : Z) (t : Token) : Token :=
  {| Address := Address t; Symbol := Symbol t; Name := Name t;
     ChainID := ChainID t; Decimals := Decimals t; LogoURI := LogoURI t;
     Tags := Tags t; PriceUSD := PriceUSD t; Change24h := Change24h t;
     Volume24h := Volume24h t; MarketCap := MarketCap t;
     Source := Source t; Verified := Verified t; Popular := Popular t;
     LastUpdated := v |}.

(** [TokenInfo] holds contract data from onchain calls. *)
Record TokenInfo : Type := mkTokenInfo {
  ti_Symbol : string;
  ti_Name : string;
  ti_Decimals : Z
}.

(** [config.ChainConfig] and [config.PopularTokenMetadata], with the fields
    this file reads. *)
Record ChainConfig : Type := mkChainConfig {
  RpcURL : string;
  IsActive : bool
}.

Record PopularTokenMetadata : Type := mkPopularTokenMetadata {
  pm_LogoURI : string;
  pm_Tags : list string
}.

(** The [config] package is not part of this file; its tables are
    parameters.  The environment argument [s.cfg.Environment] is fixed for
    the life of the service and is folded into the tables. *)
Record Config : Type := mkConfig {
  GetActiveChains : gmap Z ChainConfig;
  GetChainByID : Z -> option ChainConfig;
  GetPopularTokens : Z -> gmap string string;
  GetPopularTokenMetadata : string -> Z -> option PopularTokenMetadata;
  IsStablecoin : string -> bool
}.

(** ** Third-party functions and the outside world *)

(** Functions of libraries the service links against, taken as parameters:
    [decimal.NewFromString] (shopspring/decimal) and the ABI decoding of a
    single dynamic string, [abi.Arguments{{Type: string}}.Unpack] followed
    by the type assertion (go-ethereum). [None] is a returned error. *)
Record Deps : Type := mkDeps {
  NewFromString : string -> option Decimal;
  UnpackString : list byte -> option string
}.

(** What an HTTP GET produced.  [RequestFailed]: [httpClient.Do] returned
    an error (time-outs included).  [Response]: the status code and, unless
    [io.ReadAll] failed, the body: its length in bytes and what
    [json.Unmarshal] made of it ([None]: a decoding error).
    [RequestRefused]: [http.NewRequestWithContext] returned an error (the
    URL does not parse) and the function returned before [httpClient.Do]:
    nothing was sent. *)
Inductive HttpOutcome (A : Type) : Type :=
| RequestFailed
| Response (status : Z) (body : option (nat * option A))
| RequestRefused.
Arguments RequestFailed {A}.
Arguments Response {A} status body.
Arguments RequestRefused {A}.

(** The JSON shapes the responses are decoded into (fields that are read). *)
Record TokenLeg : Type := mkTokenLeg {
  leg_Address : string;
  leg_Symbol : string;
  leg_Name : string
}.

(** One element of [data] in the pool search response; [pool_Network] is
    [relationships.network.data.id]. *)
Record GeckoPool : Type := mkGeckoPool {
  pool_Network : string;
  pool_BaseToken : TokenLeg;
  pool_QuoteToken : TokenLeg
}.

(** One element of [pairs] in the pair search response. *)
Record DexSearchPair : Type := mkDexSearchPair {
  sp_ChainID : string;
  sp_BaseToken : TokenLeg;
  sp_QuoteToken : TokenLeg
}.

Record BinanceTicker : Type := mkBinanceTicker {
  tk_Symbol : string;
  tk_Price : string
}.

(** One element of [pairs] in the token-pairs response. *)
Record DexPair : Type := mkDexPair {
  dp_DexID : string;
  dp_BaseAddress : string;      (* baseToken.address *)
  dp_PriceUsd : string;
  dp_VolumeH24 : string;        (* volume.h24 *)
  dp_LiquidityUSD : string;     (* liquidity.usd *)
  dp_MarketCap : string;
  dp_PriceChangeH24 : string    (* priceChange.h24 *)
}.

(** [data.attributes] of the single-token response. *)
Record GeckoTokenAttributes : Type := mkGeckoTokenAttributes {
  ga_Name : string;
  ga_ImageURL : string;
  ga_PriceUsd : string;
  ga_FdvUsd : string;
  ga_MarketCapUsd : string;
  ga_VolumeUsdH24 : string
}.

(** The providers and the chains' RPC endpoints at the time of one call.
    HTTP endpoints are keyed by the request URL.  [CallContract rpc addr sig]
    is the [eth_call] of the 4-byte selector [sig] on the contract at
    [common.HexToAddress addr] through the client dialled at [rpc]; [None]
    is an error (a revert, a transport error or an expired deadline). *)
Record World : Type := mkWorld {
  GeckoSearch : string -> HttpOutcome (list GeckoPool);
  DexSearch : string -> HttpOutcome (list DexSearchPair);
  BinanceTickers : string -> HttpOutcome (list BinanceTicker);
  DexTokens : string -> HttpOutcome (list DexPair);
  GeckoToken : string -> HttpOutcome GeckoTokenAttributes;
  DialContext : string -> bool;
  CallContract : string -> string -> string -> option (list byte)
}.

(** Requests sent to the outside, listed in the order of a sequential
    reading of the source (concurrent tasks are listed one after the
    other). *)
Inductive Request : Type :=
| HttpGet (url : string)
| EthDial (rpcURL : string)
| EthCall (rpcURL address methodSig : string).

(** A computation that talks to the outside returns its value together with
    the requests it sent. *)
Definition Net (A : Type) : Type := (A * list Request)%type.

Definition ret {A} (a : A) : Net A := (a, []).

Definition bind {A B} (m : Net A) (k : A -> Net B) : Net B :=
  let '(a, l1) := m in
  let '(b, l2) := k a in
  (b, l1 ++ l2).

Definition send {A} (r : Request) (answer : A) : Net A := (answer, [r]).

Notation "'do' x <- m ; k" := (bind m (fun x => k))
  (at level 10, x name, m at level 100, k at level 200).

(** [http.NewRequestWithContext] followed by [httpClient.Do]: the GET is
    sent unless the request could not be created. *)
Definition httpGet {A} (url : string) (outcome : HttpOutcome A)
    : Net (HttpOutcome A) :=
  match outcome with
  | RequestRefused => ret RequestRefused
  | _ => send (HttpGet url) outcome
  end.

(** One task per element; the results are joined in the order of the list
    (the arrival order on the channel is not fixed by the source). *)
Fixpoint forEach {A B} (f : A -> Net B) (l : list A) : Net (list B) :=
  match l with
  | [] => ret []
  | a :: l' => do b <- f a; do bs <- forEach f l'; ret (b :: bs)
  end.

(** A Go function either returns or panics. *)
Inductive Outcome (A : Type) : Type :=
| Returned (a : A)
| Panicked (msg : string).
Arguments Returned {A} a.
Arguments Panicked {A} msg.

(** [(T, error)] results. *)
Inductive result (A : Type) : Type :=
| Ok (a : A)
| Err (msg : string).
Arguments Ok {A} a.
Arguments Err {A} msg.

Definition is_Ok {A} (r : result A) : bool :=
  match r with Ok _ => true | Err _ => false end.

(** [fmt.Sprintf("%d:%s", chainID, strings.ToLower(address))] *)
Definition tokenKey (chainID : Z) (address : string) : string :=
  pretty chainID +:+ ":" +:+ GoStrings.ToLower address.

(** ** Lookup tables of the source *)

Definition lookupOr {K V} `{Countable K} (m : gmap K V) (k : K) (zero : V) : V :=
  default zero (m !! k).

(** [mapGeckoTerminalNetworkToChainID] maps GeckoTerminal network IDs to
    chain IDs; a missing key gives [0]. *)
Definition mapGeckoTerminalNetworkToChainID (networkID : string) : Z :=
  let networkMap : gmap string Z :=
    list_to_map [("eth", 1); ("bsc", 56); ("base", 8453);
                 ("base-sepolia", 84532); ("bsc-testnet", 97)] in
  lookupOr networkMap networkID 0.

Definition mapDexScreenerChainToID (chain : string) : Z :=
  let chainMap : gmap string Z :=
    list_to_map [("ethereum", 1); ("bsc", 56); ("polygon", 137);
                 ("base", 8453); ("arbitrum", 42161); ("optimism", 10)] in
  lookupOr chainMap chain 0.

(** [getNetworkSlugForGeckoTerminal] maps chain ID to GeckoTerminal network
    slug; a missing key gives the empty string. *)
Definition getNetworkSlugForGeckoTerminal (chainID : Z) : string :=
  let networkMap : gmap Z string :=
    list_to_map [(1, "eth"); (56, "bsc"); (8453, "base");
                 (137, "polygon_pos"); (42161, "arbitrum"); (10, "optimism");
                 (84532, "base_sepolia"); (97, "bsc_testnet")] in
  lookupOr networkMap chainID "".

(** [getSourcePriority] *)
Definition getSourcePriority (source : string) : Z :=
  let priorities : gmap string Z :=
    list_to_map [("geckoterminal", 4); ("onchain", 3);
                 ("dexscreener", 2); ("binance", 1)] in
  match priorities !! source with
  | Some priority => priority
  | None => 0
  end.

(** ** De-duplication *)

(** The body of the loop of [deduplicateTokens]: [seen] maps a key to the
    record kept for it so far. *)
Definition dedupStep (seen : gmap string Token) (token : Token)
    : gmap string Token :=
  let key := tokenKey (ChainID token) (Address token) in
  match seen !! key with
  | Some existing =>
      if getSourcePriority (Source token) >? getSourcePriority (Source existing)
      then <[key := token]> seen
      else seen
  | None => <[key := token]> seen
  end.

Definition dedupSeen (tokens : list Token) : gmap string Token :=
  fold_left dedupStep tokens ∅.

(** [deduplicateTokens] copies the values of [seen] to a slice by ranging
    over the map.  Go leaves the iteration order of a map unspecified; this
    function fixes one order, and [deduplicateTokens_returns] admits every
    order. *)
Definition deduplicateTokens (tokens : list Token) : list Token :=
  (map_to_list (dedupSeen tokens)).*2.

Definition deduplicateTokens_returns (tokens result : list Token) : Prop :=
  Permutation result (deduplicateTokens tokens).

(** ** The service, over a fixed configuration and one state of the world *)
Section Service.

Context (L : Deps) (C : Config) (W : World).

(** *** Provider searches *)

Definition legToken (leg : TokenLeg) (chainID : Z) (source : string) : Token :=
  newToken (GoStrings.ToLower (leg_Address leg))
           (GoStrings.ToUpper (leg_Symbol leg))
           (leg_Name leg) chainID 18 source true false.

(** The loop body of [searchGeckoTerminal] over one pool. *)
Definition geckoStep (acc : list Token * gmap string bool) (pool : GeckoPool)
    : list Token * gmap string bool :=
  let '(tokens, seenTokens) := acc in
  let networkID := pool_Network pool in
  let chainID := mapGeckoTerminalNetworkToChainID networkID in
  if chainID =? 0 then acc
  else if negb (bool_decide (is_Some (GetActiveChains C !! chainID))) then acc
  else
    (* Add base token *)
    let base := pool_BaseToken pool in
    let baseKey := tokenKey chainID (leg_Address base) in
    let '(tokens, seenTokens) :=
      if negb (lookupOr seenTokens baseKey false)
         && negb (String.eqb (leg_Address base) "")
      then (tokens ++ [legToken base chainID "geckoterminal"],
            <[baseKey := true]> seenTokens)
      else (tokens, seenTokens) in
    (* Add quote token if not stablecoin *)
    let quote := pool_QuoteToken pool in
    let quoteKey := tokenKey chainID (leg_Address quote) in
    if negb (lookupOr seenTokens quoteKey false)
       && negb (String.eqb (leg_Address quote) "")
       && negb (IsStablecoin C (leg_Symbol quote))
    then (tokens ++ [legToken quote chainID "geckoterminal"],
          <[quoteKey := true]> seenTokens)
    else (tokens, seenTokens).

Definition geckoTokens (pools : list GeckoPool) : list Token :=
  fst (fold_left geckoStep pools ([], ∅)).

(** [searchGeckoTerminal] searches GeckoTerminal API. *)
Definition searchGeckoTerminal (query : string) : Net (list Token) :=
  let url := "https://api.geckoterminal.com/api/v2/search/pools?query="
             +:+ query +:+ "&page=1" in
  do resp <- httpGet url (GeckoSearch W url);
  ret match resp with
      | RequestRefused => []
      | RequestFailed => []
      | Response status body =>
          if negb (status =? 200) then []
          else match body with
               | None => []
               | Some (_, None) => []
               | Some (_, Some data) => geckoTokens data
               end
      end.

(** The loop body of [searchDexScreener] over one pair. *)
Definition dexStep (acc : list Token * gmap string bool) (pair : DexSearchPair)
    : list Token * gmap string bool :=
  let '(tokens, seenTokens) := acc in
  let chainID := mapDexScreenerChainToID (sp_ChainID pair) in
  if chainID =? 0 then acc
  else if negb (bool_decide (is_Some (GetActiveChains C !! chainID))) then acc
  else
    let base := sp_BaseToken pair in
    let baseKey := tokenKey chainID (leg_Address base) in
    let '(tokens, seenTokens) :=
      if negb (lookupOr seenTokens baseKey false)
      then (tokens ++ [legToken base chainID "dexscreener"],
            <[baseKey := true]> seenTokens)
      else (tokens, seenTokens) in
    let quote := sp_QuoteToken pair in
    let quoteKey := tokenKey chainID (leg_Address quote) in
    if negb (lookupOr seenTokens quoteKey false)
       && negb (IsStablecoin C (leg_Symbol quote))
    then (tokens ++ [legToken quote chainID "dexscreener"],
          <[quoteKey := true]> seenTokens)
    else (tokens, seenTokens).

Definition dexTokens (pairs : list DexSearchPair) : list Token :=
  fst (fold_left dexStep pairs ([], ∅)).

(** [searchDexScreener] searches DexScreener API. *)
Definition searchDexScreener (query : string) : Net (list Token) :=
  let url := "https://api.dexscreener.com/latest/dex/search/?q=" +:+ query in
  do resp <- httpGet url (DexSearch W url);
  ret match resp with
      | RequestRefused => []
      | RequestFailed => []
      | Response status body =>
          if negb (status =? 200) then []
          else match body with
               | None => []
               | Some (_, None) => []
               | Some (_, Some pairs) => dexTokens pairs
               end
      end.

Definition bscChainID : Z := 56.

(** The loop body of [searchBinance] over one ticker. *)
Definition binanceStep (queryUpper : string) (popularTokens : gmap string string)
    (acc : list Token * gmap string bool) (ticker : BinanceTicker)
    : list Token * gmap string bool :=
  let '(tokens, seenSymbols) := acc in
  (* Extract base asset from trading pair (e.g., BTCUSDT -> BTC) *)
  let baseAsset :=
    if GoStrings.HasSuffix (tk_Symbol ticker) "USDT"
    then Some (GoStrings.TrimSuffix (tk_Symbol ticker) "USDT")
    else if GoStrings.HasSuffix (tk_Symbol ticker) "BNB"
    then Some (GoStrings.TrimSuffix (tk_Symbol ticker) "BNB")
    else None in
  match baseAsset with
  | None => acc
  | Some baseAsset =>
      if GoStrings.Contains baseAsset queryUpper
         && negb (lookupOr seenSymbols baseAsset false)
      then match popularTokens !! baseAsset with
           | Some address =>
               (tokens ++ [newToken (GoStrings.ToLower address) baseAsset
                              baseAsset bscChainID 18 "binance" true true],
                <[baseAsset := true]> seenSymbols)
           | None => acc
           end
      else acc
  end.

Definition binanceTokens (query : string) (tickers : list BinanceTicker)
    : list Token :=
  let queryUpper := GoStrings.ToUpper query in
  match GetChainByID C bscChainID with
  | Some chain =>
      if IsActive chain
      then fst (fold_left (binanceStep queryUpper (GetPopularTokens C bscChainID))
                          tickers ([], ∅))
      else []
  | None => []
  end.

(** [searchBinance] searches Binance public API. *)
Definition searchBinance (query : string) : Net (list Token) :=
  let url := "https://api1.binance.com/api/v3/ticker/price" in
  do resp <- httpGet url (BinanceTickers W url);
  ret match resp with
      | RequestRefused => []
      | RequestFailed => []
      | Response status body =>
          if negb (status =? 200) then []
          else match body with
               | None => []
               | Some (_, None) => []
               | Some (_, Some tickers) => binanceTokens query tickers
               end
      end.

(** *** On-chain metadata *)

(** [new(big.Int).SetBytes(b)]: the bytes as a big-endian unsigned
    integer. *)
Definition SetBytes (b : list byte) : Z :=
  fold_left (fun acc x => acc * 256 + Z.of_N (Byte.to_N x)) b 0.

(** [Uint64] of a [big.Int]: the low 64 bits. *)
Definition Uint64 (x : Z) : Z := x mod 2 ^ 64.

(** [callStringMethod] calls a contract method that returns a string. *)
Definition callStringMethod (rpcURL address methodSig : string)
    : Net (result string) :=
  do res <- send (EthCall rpcURL address methodSig)
                 (CallContract W rpcURL address methodSig);
  ret match res with
      | None => Err "call failed"
      | Some result =>
          if (length result <? 64)%nat then Err "invalid response length"
          else match UnpackString L result with
               | None => Err "failed to decode string"
               | Some str => Ok str
               end
      end.

(** [callDecimalsMethod] calls decimals() method that returns uint8. *)
Definition callDecimalsMethod (rpcURL address methodSig : string)
    : Net (result Z) :=
  do res <- send (EthCall rpcURL address methodSig)
                 (CallContract W rpcURL address methodSig);
  ret match res with
      | None => Err "call failed"
      | Some result =>
          if (length result <? 32)%nat then Err "invalid response length"
          else
            let decimals := Uint64 (SetBytes result) in
            if decimals >? 77 then Err "unreasonable decimals value"
            else Ok decimals
      end.

Definition nameSignature : string := "0x06fdde03".
Definition symbolSignature : string := "0x95d89b41".
Definition decimalsSignature : string := "0x313ce567".

(** [getTokenInfoFromContract] fetches token info from smart contract. *)
Definition getTokenInfoFromContract (address : string) (chainID : Z)
    : Net (result TokenInfo) :=
  match GetActiveChains C !! chainID with
  | None => ret (Err "chain not supported")
  | Some chain =>
      let rpcURL := RpcURL chain in
      do connected <- send (EthDial rpcURL) (DialContext W rpcURL);
      if negb connected then ret (Err "failed to connect to RPC")
      else
        do symbol <- callStringMethod rpcURL address symbolSignature;
        match symbol with
        | Err _ => ret (Err "failed to get symbol")
        | Ok symbol =>
            do name <- callStringMethod rpcURL address nameSignature;
            match name with
            | Err _ => ret (Err "failed to get name")
            | Ok name =>
                do decimals <- callDecimalsMethod rpcURL address decimalsSignature;
                ret (Ok (mkTokenInfo symbol name
                           match decimals with
                           | Ok decimals => decimals
                           | Err _ => 18
                           end))
            end
        end
  end.

(** [verifyTokenOnchain] verifies token contract onchain using actual RPC
    calls; [None] is the nil token. *)
Definition verifyTokenOnchain (address : string) (chainID : Z)
    : Net (option Token) :=
  match GetChainByID C chainID with
  | None => ret None
  | Some chain =>
      if String.eqb (RpcURL chain) "" then ret None
      else
        do tokenInfo <- getTokenInfoFromContract address chainID;
        ret match tokenInfo with
            | Err _ => None
            | Ok tokenInfo =>
                if String.eqb (ti_Symbol tokenInfo) ""
                   || String.eqb (ti_Name tokenInfo) ""
                then None
                else Some (newToken (GoStrings.ToLower address)
                                    (GoStrings.ToUpper (ti_Symbol tokenInfo))
                                    (ti_Name tokenInfo) chainID
                                    (ti_Decimals tokenInfo) "onchain" true false)
            end
  end.

(** [quickTokenCheck] quickly checks if token exists on chain by calling
    name(). *)
Definition quickTokenCheck (address : string) (chainID : Z) : Net bool :=
  match GetActiveChains C !! chainID with
  | None => ret false
  | Some chain =>
      let rpcURL := RpcURL chain in
      if String.eqb rpcURL "" then ret false
      else
        do connected <- send (EthDial rpcURL) (DialContext W rpcURL);
        if negb connected then ret false
        else
          do name <- callStringMethod rpcURL address nameSignature;
          ret (is_Ok name)
  end.

(** The chains ranged over by the fan-out loops. *)
Definition activeChainIDs : list Z := (map_to_list (GetActiveChains C)).*1.

(** One task of [searchByAddressOptimized]. *)
Definition addressTask (address : string) (cID : Z) : Net (option Token) :=
  do exists_ <- quickTokenCheck address cID;
  if negb exists_ then ret None
  else
    do token <- verifyTokenOnchain address cID;
    ret match token with
        | None => None
        | Some token =>
            match GetPopularTokenMetadata C address cID with
            | Some metadata =>
                Some (set_Tags (pm_Tags metadata)
                        (set_LogoURI (pm_LogoURI metadata)
                           (set_Popular true token)))
            | None => Some token
            end
        end.

(** [searchByAddressOptimized] performs parallel address verification
    across chains. *)
Definition searchByAddressOptimized (address : string) : Net (list Token) :=
  do results <- forEach (addressTask address) activeChainIDs;
  ret (omap id results).

(** One task of the symbol branch of [searchOnchain]. *)
Definition symbolTask (queryUpper : string) (cID : Z) : Net (option Token) :=
  match GetPopularTokens C cID !! queryUpper with
  | Some address =>
      do token <- verifyTokenOnchain address cID;
      ret match token with
          | Some token => Some (set_Popular true token)
          | None => None
          end
  | None => ret None
  end.

(** [searchOnchain] performs onchain token verification. *)
Definition searchOnchain (query : string) : Net (list Token) :=
  let inputType := DetectInputType query in
  if String.eqb inputType "address" then searchByAddressOptimized query
  else
    let queryUpper := GoStrings.ToUpper query in
    do results <- forEach (symbolTask queryUpper) activeChainIDs;
    ret (omap id results).

End Service.

(** ** Market-data enrichment *)
Section Enrichment.

Context (L : Deps) (W : World).

(** [parseAndSetMarketData] parses string values and sets them on the
    token; [now] is [time.Now()]. *)
Definition parseAndSetMarketData (now : Z) (token : Token)
    (priceUsd volume24h marketCap priceChange24h : string) : Token :=
  (* Parse price *)
  let token :=
    if negb (String.eqb priceUsd "") && negb (String.eqb priceUsd "0")
       && negb (String.eqb priceUsd "null")
    then match NewFromString L priceUsd with
         | Some price =>
             if decimal.IsPositive price then set_PriceUSD price token else token
         | None => token
         end
    else token in
  (* Parse volume *)
  let token :=
    if negb (String.eqb volume24h "") && negb (String.eqb volume24h "0")
       && negb (String.eqb volume24h "null")
    then match NewFromString L volume24h with
         | Some volume =>
             if decimal.IsPositive volume then set_Volume24h volume token else token
         | None => token
         end
    else token in
  (* Parse market cap *)
  let token :=
    if negb (String.eqb marketCap "") && negb (String.eqb marketCap "0")
       && negb (String.eqb marketCap "null")
    then match NewFromString L marketCap with
         | Some mcap =>
             if decimal.IsPositive mcap then set_MarketCap mcap token else token
         | None => token
         end
    else token in
  (* Parse 24h change (can be negative) *)
  let token :=
    if negb (String.eqb priceChange24h "") && negb (String.eqb priceChange24h "null")
    then match NewFromString L priceChange24h with
         | Some change => set_Change24h change token
         | None => token
         end
    else token in
  (* Set last updated timestamp *)
  set_LastUpdated now token.

(** The body of the loop that looks for the best pair (highest liquidity
    USD): the state is [bestPair] ([None] is nil) and [maxLiquidity]. *)
Definition bestPairStep (address : string)
    (st : option DexPair * Decimal) (pair : DexPair)
    : option DexPair * Decimal :=
  let '(bestPair, maxLiquidity) := st in
  (* Check if this pair's base token matches our target token *)
  if GoStrings.EqualFold (dp_BaseAddress pair) address then
    if negb (String.eqb (dp_LiquidityUSD pair) "") then
      match NewFromString L (dp_LiquidityUSD pair) with
      | Some liquidity =>
          if negb (bool_decide (is_Some bestPair))
             || decimal.GreaterThan liquidity maxLiquidity
          then (Some pair, liquidity)
          else st
      | None => st
      end
    else if negb (bool_decide (is_Some bestPair)) then (Some pair, maxLiquidity)
    else st
  else st.

Definition selectBestPair (address : string) (pairs : list DexPair)
    : option DexPair :=
  fst (fold_left (bestPairStep address) pairs (None, decimal.Zero)).

(** [string(body)[:200]], evaluated for the debug log line whatever the
    log level: slicing past the end of the string is a run-time panic. *)
Definition first200 (bodyLength : nat) : bool := (200 <=? bodyLength)%nat.

(** [enhanceFromDexScreener] enhances token with DexScreener data.  The
    token is updated in place in the source; here the updated token is
    returned next to the boolean. *)
Definition enhanceFromDexScreener (now : Z) (token : Token)
    : Net (Outcome (bool * Token)) :=
  let url := "https://api.dexscreener.com/latest/dex/tokens/" +:+ Address token in
  do resp <- httpGet url (DexTokens W url);
  ret match resp with
      | RequestRefused => Returned (false, token)
      | RequestFailed => Returned (false, token)
      | Response status body =>
          if negb (status =? 200) then Returned (false, token)
          else match body with
               | None => Returned (false, token)
               | Some (bodyLength, decoded) =>
                   if negb (first200 bodyLength)
                   then Panicked "slice bounds out of range"
                   else match decoded with
                        | None => Returned (false, token)
                        | Some pairs =>
                            if (length pairs =? 0)%nat then Returned (false, token)
                            else match selectBestPair (Address token) pairs with
                                 | None => Returned (false, token)
                                 | Some bestPair =>
                                     let token :=
                                       parseAndSetMarketData now token
                                         (dp_PriceUsd bestPair) (dp_VolumeH24 bestPair)
                                         (dp_MarketCap bestPair)
                                         (dp_PriceChangeH24 bestPair) in
                                     Returned
                                       (true, set_Source "dexscreener_enhanced" token)
                                 end
                        end
               end
      end.

(** [enhanceFromGeckoTerminal] enhances token with GeckoTerminal data. *)
Definition enhanceFromGeckoTerminal (now : Z) (token : Token)
    : Net (Outcome (bool * Token)) :=
  let networkSlug := getNetworkSlugForGeckoTerminal (ChainID token) in
  if String.eqb networkSlug "" then ret (Returned (false, token))
  else
    let url := "https://api.geckoterminal.com/api/v2/networks/" +:+ networkSlug
               +:+ "/tokens/" +:+ GoStrings.ToLower (Address token) in
    do resp <- httpGet url (GeckoToken W url);
    ret match resp with
        | RequestRefused => Returned (false, token)
        | RequestFailed => Returned (false, token)
        | Response status body =>
            if negb (status =? 200) then Returned (false, token)
            else match body with
                 | None => Returned (false, token)
                 | Some (bodyLength, decoded) =>
                     if negb (first200 bodyLength)
                     then Panicked "slice bounds out of range"
                     else match decoded with
                          | None => Returned (false, token)
                          | Some attrs =>
                              if String.eqb (ga_Name attrs) ""
                              then Returned (false, token)
                              else
                                (* Use FdvUsd as market cap fallback *)
                                let marketCapUsd :=
                                  if String.eqb (ga_MarketCapUsd attrs) ""
                                     || String.eqb (ga_MarketCapUsd attrs) "null"
                                  then ga_FdvUsd attrs
                                  else ga_MarketCapUsd attrs in
                                let token :=
                                  parseAndSetMarketData now token
                                    (ga_PriceUsd attrs) (ga_VolumeUsdH24 attrs)
                                    marketCapUsd "0" in
                                (* Also update logo if available *)
                                let token :=
                                  if negb (String.eqb (ga_ImageURL attrs) "")
                                     && String.eqb (LogoURI token) ""
                                  then set_LogoURI (ga_ImageURL attrs) token
                                  else token in
                                Returned
                                  (true, set_Source "geckoterminal_enhanced" token)
                          end
                 end
        end.

(** [enhanceTokenWithMarketData] adds price/market data from external
    APIs.  Strategy: DexScreener first, fallback to GeckoTerminal.  A panic
    of a step is not recovered here and ends the function. *)
Definition enhanceTokenWithMarketData (now : Z) (token : Token)
    : Net (Outcome Token) :=
  (* 1. Try DexScreener for this specific token address *)
  do r1 <- enhanceFromDexScreener now token;
  match r1 with
  | Panicked msg => ret (Panicked msg)
  | Returned (true, token) => ret (Returned token)
  | Returned (false, token) =>
      (* 2. Fallback to GeckoTerminal *)
      do r2 <- enhanceFromGeckoTerminal now token;
      ret match r2 with
          | Panicked msg => Panicked msg
          | Returned (true, token) => Returned token
          | Returned (false, token) => Returned (set_Source "onchain_only" token)
          end
  end.

End Enrichment.

(** [getTokenWithMarketData] gets token info from onchain + market data
    from external APIs; [Returned None] is the nil token. *)
Definition getTokenWithMarketData (L : Deps) (C : Config) (W : World)
    (now : Z) (address : string) (chainID : Z) : Net (Outcome (option Token)) :=
  do baseToken <- verifyTokenOnchain L C W address chainID;
  match baseToken with
  | None => ret (Returned None)
  | Some baseToken =>
      do r <- enhanceTokenWithMarketData L W now baseToken;
      ret match r with
          | Returned token => Returned (Some token)
          | Panicked msg => Panicked msg
          end
  end.

(** ** The search cache *)

(** Modelled from the spec: [CacheService], the key/value store with TTL
    semantics (get/set/miss) that memoizes search results, is not part of
    this file.  An entry holds the stored list and the time at which it
    expires; [Get] misses on an absent or expired key. *)
Module CacheService.

Record Entry : Type := mkEntry { stored : list Token; expires : Z }.

Definition Get (cache : gmap string Entry) (now : Z) (key : string)
    : option (list Token) :=
  match cache !! key with
  | Some e => if now <? expires e then Some (stored e) else None
  | None => None
  end.

Definition Set_ (cache : gmap string Entry) (now : Z) (key : string)
    (value : list Token) (ttl : Z) : gmap string Entry :=
  <[key := mkEntry value (now + ttl)]> cache.

End CacheService.

(** [time.Minute], in nanoseconds. *)
Definition Minute : Z := 60 * 1000000000.

(** ** The search entry point *)

(** What one call of [SearchTokensExternal] leaves behind: the returned
    pair, the cache, and the requests sent. *)
Record SearchRun : Type := mkSearchRun {
  tokens : list Token;
  error : option string;
  cacheAfter : gmap string CacheService.Entry;
  requests : list Request
}.

Section Search.

Context (L : Deps) (C : Config) (W : World).

(** The three provider tasks of the non-address branch.  Each result is
    appended when it is not empty.  The source collects them from a
    channel in arrival order; the order gecko, dex, binance is fixed
    here, and a task cut off by the deadline is a provider that answered
    nothing. *)
Definition externalAPIs (query : string) : Net (list Token) :=
  do gecko <- searchGeckoTerminal C W query;
  do dex <- searchDexScreener C W query;
  do binance <- searchBinance C W query;
  ret (gecko ++ dex ++ binance).

(** The part of [SearchTokensExternal] between the cache look-up and the
    cache write: the strategy for the input type, the on-chain search and
    the de-duplication. *)
Definition searchFresh (query : string) : Net (list Token) :=
  let inputType := DetectInputType query in
  (* Strategy based on input type *)
  do allTokens <-
    (if String.eqb inputType "address"
     then searchByAddressOptimized L C W query
     else externalAPIs query);
  (* Fallback: onchain search across supported chains *)
  do onchainTokens <- searchOnchain L C W query;
  (* Deduplicate and sort *)
  ret (deduplicateTokens (allTokens ++ onchainTokens)).

(** [SearchTokensExternal] searches tokens using external APIs; [now] is
    the time of the call. *)
Definition SearchTokensExternal (cache : gmap string CacheService.Entry)
    (now : Z) (query : string) : SearchRun :=
  let inputType := DetectInputType query in
  (* Cache key *)
  let cacheKey := "external:search:" +:+ inputType +:+ ":"
                  +:+ GoStrings.ToLower query in
  (* Try cache first *)
  let cachedResults := default [] (CacheService.Get cache now cacheKey) in
  if (0 <? length cachedResults)%nat
  then mkSearchRun cachedResults None cache []
  else
    let '(finalTokens, sent) := searchFresh query in
    (* Cache results (5 minutes for external APIs) *)
    let cache :=
      if (0 <? length finalTokens)%nat
      then CacheService.Set_ cache now cacheKey finalTokens (5 * Minute)
      else cache in
    mkSearchRun finalTokens None cache sent.

End Search.

(** ** The input classes in the words of the specification *)

(** The language of a pattern, as sets of strings. *)
Fixpoint power (P : string -> Prop) (k : nat) (s : string) : Prop :=
  match k with
  | O => s = ""
  | S k' => exists s1 s2, s = s1 +:+ s2 /\ P s1 /\ power P k' s2
  end.

Fixpoint lang (r : Regexp.re) (s : string) : Prop :=
  match r with
  | Regexp.Nul => False
  | Regexp.Eps => s = ""
  | Regexp.Lit c => s = String c ""
  | Regexp.Cls rs => exists c, s = String c "" /\ Regexp.in_class rs c = true
  | Regexp.Cat r1 r2 => exists s1 s2, s = s1 +:+ s2 /\ lang r1 s1 /\ lang r2 s2
  | Regexp.Alt r1 r2 => lang r1 s \/ lang r2 s
  | Regexp.Rep r lo hi => exists k, (lo <= k <= hi)%nat /\ power (lang r) k s
  end.

Fixpoint all_bytes (p : ascii -> bool) (s : string) : bool :=
  match s with
  | EmptyString => true
  | String c r => p c && all_bytes p r
  end.

Definition is_digit (c : ascii) : bool := GoStrings.in_range "0" "9" c.
Definition is_letter (c : ascii) : bool :=
  GoStrings.in_range "A" "Z" c || GoStrings.in_range "a" "z" c.
Definition is_hex_digit (c : ascii) : bool :=
  GoStrings.in_range "a" "f" c || GoStrings.in_range "A" "F" c || is_digit c.
Definition is_alphanumeric (c : ascii) : bool := is_letter c || is_digit c.

(** "A strict 0x + 40 hex-digit pattern". *)
Definition AddressShape (s : string) : Prop :=
  exists h, s = "0x" +:+ h /\ String.length h = 40%nat
            /\ all_bytes is_hex_digit h = true.

(** "A letter followed by 1-10 alphanumerics". *)
Definition SymbolShape (s : string) : Prop :=
  exists c r, s = String c r /\ is_letter c = true
              /\ (1 <= String.length r <= 10)%nat
              /\ all_bytes is_alphanumeric r = true.

(** ** The de-duplication key in the words of the specification *)

(** "Deduplication key: (chainId, lower-cased address)". *)
Definition keyOf (t : Token) : Z * string :=
  (ChainID t, GoStrings.ToLower (Address t)).

Definition no_colon (s : string) : bool :=
  all_bytes (fun c => negb (Ascii.eqb c ":")) s.

(** ** Failure of a contract call, in the words of the specification *)

(** The [name()] or [symbol()] call at [methodSig] fails: the call itself
    fails, the response is shorter than 64 bytes, or it does not decode as
    an ABI string. *)
Definition stringCallFails (L : Deps) (W : World)
    (rpcURL address methodSig : string) : Prop :=
  match CallContract W rpcURL address methodSig with
  | None => True
  | Some response =>
      (length response < 64)%nat \/ UnpackString L response = None
  end.

(** The value a [decimals()] response encodes: the unsigned integer of
    its first 32-byte word. *)
Definition encodedDecimals (response : list byte) : Z :=
  SetBytes (take 32 response).

(** The [decimals()] call fails to decode (the call fails or the response
    is shorter than one 32-byte word) or yields a value greater than 77. *)
Definition decimalsCallFails (W : World) (rpcURL address : string) : Prop :=
  match CallContract W rpcURL address decimalsSignature with
  | None => True
  | Some response =>
      (length response < 32)%nat \/ 77 < encodedDecimals response
  end.

(** The response of the [decimals()] call, when it has a word, is that
    word alone, of a value below [2 ^ 64]. *)
Definition decimalsWordFits (W : World) (rpcURL address : string) : Prop :=
  match CallContract W rpcURL address decimalsSignature with
  | None => True
  | Some response =>
      (32 <= length response)%nat ->
      length response = 32%nat /\ SetBytes response < 2 ^ 64
  end.

(** The [name()] or [symbol()] call at [methodSig] answers the string
    [str]. *)
Definition stringCallGives (L : Deps) (W : World)
    (rpcURL address methodSig str : string) : Prop :=
  exists response,
    CallContract W rpcURL address methodSig = Some response
    /\ (64 <= length response)%nat
    /\ UnpackString L response = Some str.

(** ** Where a token of a search comes from *)

(** The records the four search paths build: a leg of a pool (pool
    provider), a leg of a pair (DEX-pair provider), a ticker whose base asset
    is a key of the popular-token table of chain 56 (exchange ticker
    provider), and a contract verified on-chain, with or without the
    popular-token marks. *)
Inductive Produced (C : Config) : Token -> Prop :=
| Produced_gecko (leg : TokenLeg) (chainID : Z) :
    Produced C (legToken leg chainID "geckoterminal")
| Produced_dex (leg : TokenLeg) (chainID : Z) :
    Produced C (legToken leg chainID "dexscreener")
| Produced_binance (baseAsset address : string) :
    GetPopularTokens C bscChainID !! baseAsset = Some address ->
    Produced C (newToken (GoStrings.ToLower address) baseAsset baseAsset
                  bscChainID 18 "binance" true true)
| Produced_onchain (address symbol name : string) (chainID decimals : Z)
    (popular : bool) (logo : string) (tags : list string) :
    0 <= decimals <= 77 ->
    Produced C
      (set_Tags tags (set_LogoURI logo (set_Popular popular
         (newToken (GoStrings.ToLower address) (GoStrings.ToUpper symbol)
            name chainID decimals "onchain" true false)))).

(** "Lower-cased contract address" and "upper-cased symbol". *)
Definition lowerCased (s : string) : Prop := GoStrings.ToLower s = s.
Definition upperCased (s : string) : Prop := GoStrings.ToUpper s = s.


Definition upperCasedSymbol (s : string) : Prop :=
  (exists raw, s = GoStrings.ToUpper raw)
  /\ all_bytes (fun c => negb (GoStrings.in_range "a" "z" c)) s = true.


(** ** Sample parameters, used by the examples *)
Module Sample.

Fixpoint parseDigits (s : string) (acc : Z) : option Z :=
  match s with
  | EmptyString => Some acc
  | String c r =>
      if is_digit c
      then parseDigits r (acc * 10 + (Z.of_N (GoStrings.code c) - 48))
      else None
  end.

(** A decimal parser for the examples: it reads the integers written as
    digits with an optional minus sign, on which it agrees with
    [decimal.NewFromString], and rejects every other string. *)
Definition newFromString (s : string) : option Decimal :=
  match s with
  | EmptyString => None
  | String "-" EmptyString => None
  | String "-" r => (fun n => decimal.mkDecimal (- n) 0) <$> parseDigits r 0
  | _ => (fun n => decimal.mkDecimal n 0) <$> parseDigits s 0
  end.

Definition byteOfZ (n : Z) : byte := byte_of_ascii (ascii_of_N (Z.to_N n)).

(** The 32-byte big-endian word of [n], for [0 <= n < 256 ^ 2]. *)
Definition word (n : Z) : list byte :=
  repeat x00 30 ++ [byteOfZ (n / 256); byteOfZ (n mod 256)].

Definition bytesOfString (s : string) : list byte :=
  map byte_of_ascii (list_ascii_of_string s).

(** The ABI encoding of one dynamic string of at most 32 bytes: the
    offset word, the length word, and the bytes padded to one word. *)
Definition abiString (s : string) : list byte :=
  word 32 ++ word (Z.of_nat (String.length s))
    ++ bytesOfString s ++ repeat x00 (32 - String.length s).

(** A decoder for the examples: it accepts an encoding whose offset word
    is 32 and whose data are present, and returns the string; it rejects
    everything else. *)
Definition unpackString (b : list byte) : option string :=
  let offset := SetBytes (take 32 b) in
  let len := SetBytes (take 32 (drop 32 b)) in
  if (offset =? 32) && (Z.of_nat (length b) >=? 64 + len)
  then Some (string_of_list_ascii
               (map ascii_of_byte (take (Z.to_nat len) (drop 64 b))))
  else None.

Definition deps : Deps := mkDeps newFromString unpackString.

Definition chains : gmap Z ChainConfig :=
  list_to_map [(1, mkChainConfig "https://eth.example/rpc" true);
               (56, mkChainConfig "https://bsc.example/rpc" true)].

Definition stablecoin (symbol : string) : bool :=
  bool_decide (GoStrings.ToUpper symbol ∈ ["USDT"; "USDC"; "DAI"; "BUSD"]).

Definition usdc : string := "0xA0b86991c6218b36c1d19D4a2e9Eb0cE3606eB48".
Definition weth : string := "0xC02aaA39b223FE8D0A0e5C4F27eAD9083C756Cc2".
Definition wbnb : string := "0xbb4CdB9CBd36B01bD1cBaEBF2De08d9173bc095c".
Definition wbtc : string := "0x7130d2A12B9BCbFAe4f2634d864A1Ee1Ce3Ead9c".

(** A configuration whose popular-token keys are upper-case. *)
Definition config : Config :=
  {| GetActiveChains := chains;
     GetChainByID := fun chainID => chains !! chainID;
     GetPopularTokens := fun chainID =>
       if chainID =? 1 then {[ "WETH" := weth ]}
       else if chainID =? 56 then {[ "WBNB" := wbnb ]}
       else ∅;
     GetPopularTokenMetadata := fun _ _ => None;
     IsStablecoin := stablecoin |}.

(** The same configuration with a mixed-case key in the table of chain 56. *)
Definition mixedCaseConfig : Config :=
  {| GetActiveChains := chains;
     GetChainByID := fun chainID => chains !! chainID;
     GetPopularTokens := fun chainID =>
       if chainID =? 56 then {[ "wBTC" := wbtc ]} else ∅;
     GetPopularTokenMetadata := fun _ _ => None;
     IsStablecoin := stablecoin |}.

(** No provider and no endpoint answers. *)
Definition silent : World :=
  {| GeckoSearch := fun _ => RequestFailed;
     DexSearch := fun _ => RequestFailed;
     BinanceTickers := fun _ => RequestFailed;
     DexTokens := fun _ => RequestFailed;
     GeckoToken := fun _ => RequestFailed;
     DialContext := fun _ => false;
     CallContract := fun _ _ _ => None |}.

(** Only the ticker list answers, with one ticker. *)
Definition tickerWorld (symbol : string) : World :=
  {| GeckoSearch := fun _ => RequestFailed;
     DexSearch := fun _ => RequestFailed;
     BinanceTickers := fun _ =>
       Response 200 (Some (64%nat, Some [mkBinanceTicker symbol "1"]));
     DexTokens := fun _ => RequestFailed;
     GeckoToken := fun _ => RequestFailed;
     DialContext := fun _ => false;
     CallContract := fun _ _ _ => None |}.

(** Only the pool search answers, with one pool on Ethereum. *)
Definition poolWorld : World :=
  {| GeckoSearch := fun _ =>
       Response 200
         (Some (512%nat,
                Some [mkGeckoPool "eth"
                        (mkTokenLeg weth "weth" "Wrapped Ether")
                        (mkTokenLeg usdc "usdc" "USD Coin")]));
     DexSearch := fun _ => RequestFailed;
     BinanceTickers := fun _ => RequestFailed;
     DexTokens := fun _ => RequestFailed;
     GeckoToken := fun _ => RequestFailed;
     DialContext := fun _ => false;
     CallContract := fun _ _ _ => None |}.

(** The endpoints answer for one ERC-20 contract whose [decimals()]
    returns the bytes [decimalsWord]. *)
Definition erc20World (decimalsWord : list byte) : World :=
  {| GeckoSearch := fun _ => RequestFailed;
     DexSearch := fun _ => RequestFailed;
     BinanceTickers := fun _ => RequestFailed;
     DexTokens := fun _ => RequestFailed;
     GeckoToken := fun _ => RequestFailed;
     DialContext := fun _ => true;
     CallContract := fun _ _ methodSig =>
       if String.eqb methodSig symbolSignature then Some (abiString "USDC")
       else if String.eqb methodSig nameSignature then Some (abiString "USD Coin")
       else if String.eqb methodSig decimalsSignature then Some decimalsWord
       else None |}.

(** The token-pairs endpoint answers with [pairs] in a body of
    [bodyLength] bytes; nothing else answers. *)
Definition pairsWorld (bodyLength : nat) (pairs : list DexPair) : World :=
  {| GeckoSearch := fun _ => RequestFailed;
     DexSearch := fun _ => RequestFailed;
     BinanceTickers := fun _ => RequestFailed;
     DexTokens := fun _ => Response 200 (Some (bodyLength, Some pairs));
     GeckoToken := fun _ => RequestFailed;
     DialContext := fun _ => false;
     CallContract := fun _ _ _ => None |}.

(** A token as the on-chain verification builds it. *)
Definition usdcToken : Token :=
  newToken (GoStrings.ToLower usdc) "USDC" "USD Coin" 1 6 "onchain" true false.

Definition pair (baseAddress liquidity price : string) : DexPair :=
  {| dp_DexID := "uniswap"; dp_BaseAddress := baseAddress;
     dp_PriceUsd := price; dp_VolumeH24 := ""; dp_LiquidityUSD := liquidity;
     dp_MarketCap := ""; dp_PriceChangeH24 := "" |}.

(** Three records with one key and a fourth with another. *)
Definition collidingTokens : list Token :=
  [ newToken (GoStrings.ToLower usdc) "USDC" "USD Coin" 1 18 "binance" true true;
    newToken (GoStrings.ToLower usdc) "USDC" "USD Coin" 1 18 "geckoterminal" true false;
    newToken usdc "USDC" "USD Coin" 1 6 "onchain" true false;
    newToken (GoStrings.ToLower weth) "WETH" "Wrapped Ether" 1 18 "dexscreener" true false ].

End Sample.

(** ** More sample data *)
Module Sample2.

(** A 32-byte [decimals()] response whose integer is [2 ^ 64 + 5]. *)
Definition wideDecimalsWord : list byte :=
  repeat x00 23 ++ [x01] ++ repeat x00 7 ++ [x05].

(** A 64-byte [decimals()] response: the word of 200 followed by a word
    of zeros. *)
Definition twoWordDecimals : list byte := Sample.word 200 ++ Sample.word 0.

(** The token-pairs endpoint answers 200 with a JSON object of 38 bytes
    whose [pairs] member is null, which decodes to no pair. *)
Definition noPairsWorld : World := Sample.pairsWorld 38 [].

Definition unknownQuery : string := "ZZZNOTATOKEN123456".

End Sample2.

(** The cache key of a query:
    [fmt.Sprintf("external:search:%s:%s", inputType, strings.ToLower(query))]. *)
Definition cacheKeyOf (query : string) : string :=
  "external:search:" +:+ DetectInputType query +:+ ":"
  +:+ GoStrings.ToLower query.

(** A call answers from the cache when the entry of its key is live and
    not empty. *)
Definition answersFromCache (cache : gmap string CacheService.Entry)
    (now : Z) (query : string) : bool :=
  (0 <? length (default [] (CacheService.Get cache now
                              (cacheKeyOf query))))%nat.

(** ** Pair selection and field validation, in the words of the
    specification *)

(** The pair's base-token address equals the token's address,
    case-insensitively. *)
Definition matchesToken (address : string) (p : DexPair) : bool :=
  GoStrings.EqualFold (dp_BaseAddress p) address.

(** The parsed USD liquidity of a pair, when its field is present and is a
    valid decimal. *)
Definition parsedLiquidity (L : Deps) (p : DexPair) : option Decimal :=
  if String.eqb (dp_LiquidityUSD p) "" then None
  else NewFromString L (dp_LiquidityUSD p).

(** A pair can be selected when its liquidity field is empty or parses. *)
Definition selectable (L : Deps) (p : DexPair) : bool :=
  String.eqb (dp_LiquidityUSD p) ""
  || bool_decide (is_Some (NewFromString L (dp_LiquidityUSD p))).

(** The liquidity a pair counts for in the comparison: its parsed
    liquidity, and zero when the field is empty. *)
Definition countedLiquidity (L : Deps) (p : DexPair) : Q :=
  match parsedLiquidity L p with
  | Some l => decimal.value l
  | None => 0%Q
  end.

(** C6 as stated: the selected pair matches, has a parsed liquidity, and
    no matching pair has a larger parsed liquidity. *)
Definition selectsLargestParsed (L : Deps) (address : string)
    (pairs : list DexPair) : Prop :=
  forall best, selectBestPair L address pairs = Some best ->
    matchesToken address best = true
    /\ exists l, parsedLiquidity L best = Some l
         /\ forall q l', q ∈ pairs -> matchesToken address q = true ->
              parsedLiquidity L q = Some l' ->
              (decimal.value l' <= decimal.value l)%Q.

(** C6 read with an empty liquidity field counting for zero: the selected
    pair matches and no selectable matching pair counts for more. *)
Definition selectsLargestCounted (L : Deps) (address : string)
    (pairs : list DexPair) : Prop :=
  forall best, selectBestPair L address pairs = Some best ->
    matchesToken address best = true
    /\ forall q, q ∈ pairs -> matchesToken address q = true ->
         selectable L q = true ->
         (countedLiquidity L q <= countedLiquidity L best)%Q.

(** A field that must be a positive decimal passes validation. *)
Definition positiveField (L : Deps) (s : string) : bool :=
  negb (String.eqb s "") && negb (String.eqb s "0") && negb (String.eqb s "null")
  && match NewFromString L s with
     | Some d => decimal.IsPositive d
     | None => false
     end.

(** A field that may be negative passes validation. *)
Definition decimalField (L : Deps) (s : string) : bool :=
  negb (String.eqb s "") && negb (String.eqb s "null")
  && bool_decide (is_Some (NewFromString L s)).

(** Every numeric field of the pair fails validation. *)
Definition noValidField (L : Deps) (p : DexPair) : Prop :=
  positiveField L (dp_PriceUsd p) = false
  /\ positiveField L (dp_VolumeH24 p) = false
  /\ positiveField L (dp_MarketCap p) = false
  /\ decimalField L (dp_PriceChangeH24 p) = false.

(** The invariant of the selection loop after the pairs [done]. *)
Definition bestInv (L : Deps) (address : string) (done : list DexPair)
    (st : option DexPair * Decimal) : Prop :=
  match fst st with
  | None =>
      snd st = decimal.Zero
      /\ forall q, q ∈ done -> matchesToken address q = true ->
                   selectable L q = false
  | Some b =>
      exists i, done !! i = Some b
        /\ matchesToken address b = true
        /\ selectable L b = true
        /\ (decimal.value (snd st) == countedLiquidity L b)%Q
        /\ forall j q l, done !! j = Some q -> matchesToken address q = true ->
             parsedLiquidity L q = Some l ->
             (decimal.value l <= decimal.value (snd st))%Q
             /\ ((j < i)%nat -> (decimal.value l < decimal.value (snd st))%Q)
  end.

(** The URL [enhanceFromDexScreener] requests for a token. *)
Definition tokenPairsURL (token : Token) : string :=
  "https://api.dexscreener.com/latest/dex/tokens/" +:+ Address token.

(** ** Sample pairs *)
Module Sample3.

(** Four pairs: one without liquidity, one of another token, and two of
    equal liquidity, the second with the address in another case. *)
Definition pairs : list DexPair :=
  [ Sample.pair Sample.usdc "" "1";
    Sample.pair Sample.weth "999" "1";
    Sample.pair Sample.usdc "120" "1";
    Sample.pair (GoStrings.ToUpper Sample.usdc) "120" "3" ].

(** One matching pair with a liquidity and no valid numeric field. *)
Definition invalidPairs : list DexPair :=
  [ Sample.pair Sample.usdc "120" "abc" ].

(** Only the single-token endpoint of the pool provider answers, with a
    name and no market figure. *)
Definition nameOnlyWorld : World :=
  {| GeckoSearch := fun _ => RequestFailed;
     DexSearch := fun _ => RequestFailed;
     BinanceTickers := fun _ => RequestFailed;
     DexTokens := fun _ => RequestFailed;
     GeckoToken := fun _ =>
       Response 200
         (Some (300%nat,
                Some {| ga_Name := "USD Coin"; ga_ImageURL := "";
                        ga_PriceUsd := ""; ga_FdvUsd := "";
                        ga_MarketCapUsd := ""; ga_VolumeUsdH24 := "" |}));
     DialContext := fun _ => false;
     CallContract := fun _ _ _ => None |}.

End Sample3.

(** ** The de-duplication loop *)

(** The key under which the loop files a record. *)
Definition strKey (t : Token) : string := tokenKey (ChainID t) (Address t).

(** What the map [seen] satisfies after the loop has read [tokens]. *)
Definition seenInv (tokens : list Token) (seen : gmap string Token) : Prop :=
  (forall k r, seen !! k = Some r -> r ∈ tokens /\ strKey r = k)
  /\ (forall t, t ∈ tokens ->
        exists r, seen !! strKey t = Some r
                  /\ getSourcePriority (Source t) <= getSourcePriority (Source r)).

(** The string of a pair key. *)
Definition fmtKey (k : Z * string) : string := pretty (fst k) +:+ ":" +:+ snd k.

(** ** Further functions of the service *)

(** [mapPlatformToChainID] *)
Definition mapPlatformToChainID (platform : string) : Z :=
  let platformMap : gmap string Z :=
    list_to_map [("ethereum", 1); ("binance-smart-chain", 56);
                 ("polygon-pos", 137); ("base", 8453);
                 ("arbitrum-one", 42161); ("optimistic-ethereum", 10)] in
  lookupOr platformMap platform 0.

(** [getChainSlugForDexScreener] maps chain ID to DexScreener chain slug. *)
Definition getChainSlugForDexScreener (chainID : Z) : string :=
  let slugMap : gmap Z string :=
    list_to_map [(1, "ethereum"); (56, "bsc"); (8453, "base");
                 (137, "polygon"); (42161, "arbitrum"); (10, "optimism");
                 (84532, ""); (97, "")] in
  lookupOr slugMap chainID "".

(** [detectTokenChains] detects which chains have this token contract:
    one [quickTokenCheck] per chain of the map it is given, the valid chain
    IDs collected. *)
Definition detectTokenChains (L : Deps) (C : Config) (W : World)
    (address : string) (chains : gmap Z ChainConfig) : Net (list Z) :=
  do results <-
    forEach (fun cID => do isValid <- quickTokenCheck L C W address cID;
                        ret (cID, isValid))
            (map_to_list chains).*1;
  ret (omap (fun r : Z * bool => if snd r then Some (fst r) else None) results).

(** ** Vocabulary of the further properties *)

(** The first pair of an association list under a key: what a map literal
    built from the list answers. *)
Fixpoint assoc {K V} `{EqDecision K} (k : K) (l : list (K * V)) : option V :=
  match l with
  | [] => None
  | (k', v) :: l' => if decide (k' = k) then Some v else assoc k l'
  end.

(** After the loop of [deduplicateTokens] has read [tokens]: the record
    filed under a key is the first of maximal priority among the records of
    that key. *)
Definition seenFirst (tokens : list Token) (seen : gmap string Token) : Prop :=
  forall k r, seen !! k = Some r ->
    exists i, tokens !! i = Some r
      /\ forall j t, tokens !! j = Some t -> strKey t = k ->
           getSourcePriority (Source t) <= getSourcePriority (Source r)
           /\ ((j < i)%nat ->
               getSourcePriority (Source t) < getSourcePriority (Source r)).

(** The value [parseAndSetMarketData] writes for a field that must be a
    positive decimal, if it writes one. *)
Definition validPositive (L : Deps) (s : string) : option Decimal :=
  if negb (String.eqb s "") && negb (String.eqb s "0") && negb (String.eqb s "null")
  then match NewFromString L s with
       | Some d => if decimal.IsPositive d then Some d else None
       | None => None
       end
  else None.

(** The value it writes for the 24h change, if it writes one. *)
Definition validDecimal (L : Deps) (s : string) : option Decimal :=
  if negb (String.eqb s "") && negb (String.eqb s "null")
  then NewFromString L s
  else None.

(** A request to a chain endpoint, as opposed to an HTTP provider. *)
Definition isChainRequest (r : Request) : bool :=
  match r with
  | HttpGet _ => false
  | EthDial _ => true
  | EthCall _ _ _ => true
  end.

(** The fields of a token that say which token it is. *)
Definition sameIdentity (t t' : Token) : Prop :=
  Address t' = Address t /\ Symbol t' = Symbol t /\ Name t' = Name t
  /\ ChainID t' = ChainID t /\ Decimals t' = Decimals t
  /\ Verified t' = Verified t /\ Popular t' = Popular t /\ Tags t' = Tags t.


(** Requests that all go to chain endpoints, at most [n] of them. *)
Definition chainOnly (n : nat) (l : list Request) : Prop :=
  Forall (fun r => isChainRequest r = true) l /\ (length l <= n)%nat.


(** The URL [enhanceFromGeckoTerminal] requests for a token on a chain
    with the network slug [networkSlug]. *)
Definition geckoTokenURL (networkSlug : string) (token : Token) : string :=
  "https://api.geckoterminal.com/api/v2/networks/" +:+ networkSlug
  +:+ "/tokens/" +:+ GoStrings.ToLower (Address token).

(** The market-cap string [enhanceFromGeckoTerminal] parses: the fully
    diluted value when the market cap is missing or null. *)
Definition marketCapOrFdv (attrs : GeckoTokenAttributes) : string :=
  if String.eqb (ga_MarketCapUsd attrs) ""
     || String.eqb (ga_MarketCapUsd attrs) "null"
  then ga_FdvUsd attrs
  else ga_MarketCapUsd attrs.


(** The invariant of the loops over a provider's answer: the records
    collected so far have pairwise distinct keys, each marked in the map
    of keys seen. *)
Definition filedInv (key : Token -> string)
    (acc : list Token * gmap string bool) : Prop :=
  NoDup (key <$> fst acc)
  /\ forall t, t ∈ fst acc -> snd acc !! key t = Some true.


(** ** The 24h tickers of several symbols *)

(** The loop of [GetBinancePrices] that indexes the results by symbol.  A
    result is a decoded JSON object; it is held with its ["symbol"] member
    when that member is a string. *)
Definition priceStep {V} (priceData : gmap string V) (r : option string * V)
    : gmap string V :=
  match fst r with
  | Some symbol => <[symbol := snd r]> priceData
  | None => priceData
  end.

(** [GetBinancePrices] gets 24hr ticker data for multiple symbols from
    Binance API.  [marshal] is [json.Marshal] on a slice of strings, which
    returns no error; [ticker24hr] is the provider, keyed by the request
    URL. *)
Definition GetBinancePrices {V} (marshal : list string -> string)
    (ticker24hr : string -> HttpOutcome (list (option string * V)))
    (symbols : list string) : Net (result (gmap string V)) :=
  if (length symbols =? 0)%nat then ret (Ok ∅)
  else
    let url := "https://api.binance.com/api/v3/ticker/24hr?symbols="
               +:+ marshal symbols in
    do resp <- httpGet url (ticker24hr url);
    ret match resp with
        | RequestRefused => Err "failed to create Binance request"
        | RequestFailed => Err "Binance API error"
        | Response status body =>
            if negb (status =? 200) then Err "Binance API returned status"
            else match body with
                 | None => Err "failed to read Binance response"
                 | Some (_, None) => Err "failed to parse Binance response"
                 | Some (_, Some results) => Ok (fold_left priceStep results ∅)
                 end
        end.

(** The last result of a response that carries the symbol [s]. *)
Definition lastOf {V} (s : string) (results : list (option string * V))
    (v : V) : Prop :=
  exists i, results !! i = Some (Some s, v)
    /\ forall j v', (i < j)%nat -> results !! j <> Some (Some s, v').


(** What a GET at [url] with the given outcome puts on the wire: the
    request, unless it could not be created. *)
Definition sentGet {A} (url : string) (outcome : HttpOutcome A) : list Request :=
  match outcome with
  | RequestRefused => []
  | _ => [HttpGet url]
  end.


(** The URLs of the three provider searches. *)
Definition poolSearchURL (query : string) : string :=
  "https://api.geckoterminal.com/api/v2/search/pools?query=" +:+ query
  +:+ "&page=1".

Definition pairSearchURL (query : string) : string :=
  "https://api.dexscreener.com/latest/dex/search/?q=" +:+ query.

Definition tickerListURL : string :=
  "https://api1.binance.com/api/v3/ticker/price".

(** The GETs of the three provider searches for [query]: one to each
    provider whose request could be created. *)
Definition providerGets (W : World) (query : string) : list Request :=
  sentGet (poolSearchURL query) (GeckoSearch W (poolSearchURL query))
  ++ sentGet (pairSearchURL query) (DexSearch W (pairSearchURL query))
  ++ sentGet tickerListURL (BinanceTickers W tickerListURL).


(** ** A world that refuses the search URLs *)
Module Sample4.

(** The requests of the two provider searches cannot be created (the query
    holds a byte that a URL must not hold); the ticker list fails. *)
Definition refusingWorld : World :=
  {| GeckoSearch := fun _ => RequestRefused;
     DexSearch := fun _ => RequestRefused;
     BinanceTickers := fun _ => RequestFailed;
     DexTokens := fun _ => RequestFailed;
     GeckoToken := fun _ => RequestFailed;
     DialContext := fun _ => false;
     CallContract := fun _ _ _ => None |}.

(** "ZZ", the byte 1, "ZZ". *)
Definition controlQuery : string :=
  "ZZ" +:+ String (ascii_of_N 1) "ZZ".

End Sample4.


(** * Properties *)

(** ** The model on the scenarios of the specification *)

Example DetectInputType_address :
  DetectInputType "  0xA0b86991c6218b36c1d19D4a2e9Eb0cE3606eB48 " = "address".
Proof. vm_compute. reflexivity. Qed.

Example DetectInputType_symbol : DetectInputType "WETH" = "symbol".
Proof. vm_compute. reflexivity. Qed.

Example DetectInputType_too_long : DetectInputType "ZZZNOTATOKEN123456" = "unknown".
Proof. vm_compute. reflexivity. Qed.

Example DetectInputType_leading_digit : DetectInputType "1INCH" = "unknown".
Proof. vm_compute. reflexivity. Qed.

Example TrimSuffix_ticker : GoStrings.TrimSuffix "BTCUSDT" "USDT" = "BTC".
Proof. vm_compute. reflexivity. Qed.

Example verifyTokenOnchain_usdc :
  fst (verifyTokenOnchain Sample.deps Sample.config
         (Sample.erc20World (Sample.word 6)) Sample.usdc 1)
  = Some Sample.usdcToken.
Proof. vm_compute. reflexivity. Qed.

Example deduplicateTokens_sources :
  map Source (deduplicateTokens Sample.collidingTokens)
  = ["dexscreener"; "geckoterminal"].
Proof. vm_compute. reflexivity. Qed.

Example selectBestPair_sample :
  selectBestPair Sample.deps (Address Sample.usdcToken) Sample3.pairs
  = Some (Sample.pair Sample.usdc "120" "1").
Proof. vm_compute. reflexivity. Qed.

Example refused_searches_send_nothing :
  DetectInputType Sample4.controlQuery = "unknown"
  /\ requests (SearchTokensExternal Sample.deps Sample.config
                 Sample4.refusingWorld ∅ 0 Sample4.controlQuery)
     = [HttpGet tickerListURL].
Proof. split; vm_compute; reflexivity. Qed.

(** ** Regular expression matching *)
Module RegexpFacts.
Import Regexp.

Lemma append_nil_l (s : string) : "" +:+ s = s.
Proof. reflexivity. Qed.

Lemma append_cons c (s t : string) : String c s +:+ t = String c (s +:+ t).
Proof. reflexivity. Qed.

Ltac norm_append := rewrite ?append_cons, ?append_nil_l in *.

Lemma append_nil_inv (s1 s2 : string) :
  s1 +:+ s2 = "" -> s1 = "" /\ s2 = "".
Proof. destruct s1; norm_append; [auto | discriminate]. Qed.

Lemma power_empty (P : string -> Prop) k : P "" -> power P k "".
Proof.
  intros HP. induction k as [|k IH]; simpl; [reflexivity|].
  exists "", "". auto.
Qed.

Lemma power_cons_inv (P : string -> Prop) k c s :
  power P k (String c s) ->
  exists k' s1 s2, k = S k' /\ s = s1 +:+ s2 /\ P (String c s1) /\ power P k' s2.
Proof.
  induction k as [|k IH]; simpl; [discriminate|].
  intros (s1 & s2 & Heq & H1 & H2).
  destruct s1 as [|c1 s1]; norm_append.
  - subst s2. destruct (IH H2) as (k' & t1 & t2 & -> & -> & Ht1 & Ht2).
    exists (S k'), t1, t2. repeat split; auto.
    simpl. exists "", t2. auto.
  - injection Heq as <- ->. exists k, s1, s2. auto.
Qed.

Lemma nullable_lang r : nullable r = true <-> lang r "".
Proof.
  induction r as [| |c|rs|r1 IH1 r2 IH2|r1 IH1 r2 IH2|r IH lo hi]; simpl.
  - split; [discriminate | tauto].
  - tauto.
  - split; discriminate.
  - split; [discriminate | intros (c & ? & _); discriminate].
  - rewrite andb_true_iff, IH1, IH2. split.
    + intros [? ?]. exists "", "". auto.
    + intros (s1 & s2 & Heq & ? & ?).
      symmetry in Heq. apply append_nil_inv in Heq as [-> ->]. auto.
  - rewrite orb_true_iff, IH1, IH2. tauto.
  - rewrite andb_true_iff, orb_true_iff, Nat.leb_le, Nat.eqb_eq, IH. split.
    + intros [Hle [-> | Hr]].
      * exists 0%nat. simpl. split; [lia | reflexivity].
      * exists lo. split; [lia | apply power_empty; exact Hr].
    + intros (k & Hk & Hp). split; [lia|].
      destruct k as [|k]; [left; lia|]. right.
      simpl in Hp. destruct Hp as (s1 & s2 & Heq & ? & _).
      symmetry in Heq. apply append_nil_inv in Heq as [-> _]. assumption.
Qed.

Lemma deriv_lang c r : forall s, lang (deriv c r) s <-> lang r (String c s).
Proof.
  induction r as [| |a|rs|r1 IH1 r2 IH2|r1 IH1 r2 IH2|r IH lo hi]; intros s; simpl.
  - tauto.
  - split; [tauto | discriminate].
  - destruct (Ascii.eqb_spec a c) as [->|Hne]; simpl.
    + split; [intros ->; reflexivity | intros [= ->]; reflexivity].
    + split; [tauto | intros [= ? ?]; congruence].
  - destruct (in_class rs c) eqn:Hin; simpl.
    + split; [intros ->; eauto | intros (c' & [= -> ->] & _); reflexivity].
    + split; [tauto | intros (c' & [= -> ->] & ?); congruence].
  - assert (Hcat : (exists s1 s2, s = s1 +:+ s2 /\ lang (deriv c r1) s1 /\ lang r2 s2)
                   <-> (exists t s2, s = t +:+ s2 /\ lang r1 (String c t) /\ lang r2 s2)).
    { split; intros (s1 & s2 & ? & H1 & ?); exists s1, s2;
        (split; [assumption | split; [apply IH1; exact H1 | assumption]]). }
    destruct (nullable r1) eqn:Hn; simpl; rewrite Hcat.
    + rewrite IH2. split.
      * intros [(t & s2 & -> & ? & ?) | H2].
        -- exists (String c t), s2. auto.
        -- exists "", (String c s). split; [reflexivity|].
           split; [apply nullable_lang; exact Hn | exact H2].
      * intros (s1 & s2 & Heq & H1 & H2).
        destruct s1 as [|c1 s1]; norm_append.
        -- subst s2. right. exact H2.
        -- injection Heq as <- ->. left. eauto.
    + split.
      * intros (t & s2 & -> & ? & ?). exists (String c t), s2. auto.
      * intros (s1 & s2 & Heq & H1 & H2).
        destruct s1 as [|c1 s1]; norm_append.
        -- apply nullable_lang in H1. congruence.
        -- injection Heq as <- ->. eauto.
  - rewrite IH1, IH2. tauto.
  - destruct hi as [|hi]; simpl.
    + split; [tauto|]. intros (k & Hk & Hp).
      assert (k = 0%nat) as -> by lia. simpl in Hp. discriminate.
    + split.
      * intros (s1 & s2 & -> & H1 & k & Hk & Hp).
        exists (S k). split; [lia|]. simpl.
        exists (String c s1), s2. split; [reflexivity|].
        split; [apply IH; exact H1 | exact Hp].
      * intros (k & Hk & Hp).
        apply power_cons_inv in Hp as (k' & s1 & s2 & -> & -> & H1 & H2).
        exists s1, s2. split; [reflexivity|].
        split; [apply IH; exact H1|]. exists k'. split; [lia | exact H2].
Qed.

Lemma matches_lang s : forall r, matches r s = true <-> lang r s.
Proof.
  induction s as [|c s IH]; intros r; simpl.
  - apply nullable_lang.
  - rewrite IH. apply deriv_lang.
Qed.

Lemma power_class rs k : forall s,
  power (lang (Cls rs)) k s
  <-> String.length s = k /\ all_bytes (in_class rs) s = true.
Proof.
  induction k as [|k IH]; intros s; simpl.
  - split.
    + intros ->. auto.
    + intros [Hlen _]. destruct s; [reflexivity | discriminate].
  - split.
    + intros (s1 & s2 & -> & (c & -> & Hc) & Hp).
      apply IH in Hp as [<- Hall]. norm_append. simpl. rewrite Hc, Hall. auto.
    + intros [Hlen Hall]. destruct s as [|c s]; [discriminate|].
      simpl in Hlen, Hall. apply andb_true_iff in Hall as [Hc Hall].
      exists (String c ""), s. split; [reflexivity|].
      split; [eauto|]. apply IH. split; [lia | exact Hall].
Qed.

Lemma all_bytes_ext (p q : ascii -> bool) s :
  (forall c, p c = q c) -> all_bytes p s = all_bytes q s.
Proof. intros H. induction s as [|c s IH]; simpl; [|rewrite H, IH]; reflexivity. Qed.

End RegexpFacts.

(** The address pattern accepts exactly the strings of the address shape. *)
Lemma ethereumAddressRegex_shape (s : string) :
  Regexp.MatchString ethereumAddressRegex s = true <-> AddressShape s.
Proof.
  unfold Regexp.MatchString. rewrite RegexpFacts.matches_lang.
  unfold ethereumAddressRegex, AddressShape. cbn [lang].
  assert (Hcls : forall r, all_bytes (Regexp.in_class
                   [("a", "f"); ("A", "F"); ("0", "9")]%char) r
                 = all_bytes is_hex_digit r).
  { intros r. apply RegexpFacts.all_bytes_ext. intros c.
    unfold is_hex_digit, is_digit, Regexp.in_class. simpl.
    rewrite orb_false_r, orb_assoc. reflexivity. }
  split.
  - intros (s1 & s2 & -> & -> & s3 & s4 & -> & -> & k & Hk & Hp).
    apply RegexpFacts.power_class in Hp as [Hlen Hall].
    exists s4. split; [reflexivity|]. split; [lia|].
    rewrite Hcls in Hall. exact Hall.
  - intros (h & -> & Hlen & Hall).
    exists "0", ("x" +:+ h). split; [reflexivity|]. split; [reflexivity|].
    exists "x", h. split; [reflexivity|]. split; [reflexivity|].
    exists 40%nat. split; [lia|]. apply RegexpFacts.power_class.
    split; [exact Hlen|]. rewrite Hcls. exact Hall.
Qed.

(** The symbol pattern accepts exactly the strings of the symbol shape. *)
Lemma symbolRegex_shape (s : string) :
  Regexp.MatchString symbolRegex s = true <-> SymbolShape s.
Proof.
  unfold Regexp.MatchString. rewrite RegexpFacts.matches_lang.
  unfold symbolRegex, SymbolShape. cbn [lang].
  assert (Hcls : forall r, all_bytes (Regexp.in_class
                   [("A", "Z"); ("a", "z"); ("0", "9")]%char) r
                 = all_bytes is_alphanumeric r).
  { intros r. apply RegexpFacts.all_bytes_ext. intros c.
    unfold is_alphanumeric, is_letter, is_digit, Regexp.in_class. simpl.
    rewrite orb_false_r, orb_assoc. reflexivity. }
  split.
  - intros (s1 & s2 & -> & (c & -> & Hc) & k & Hk & Hp).
    apply RegexpFacts.power_class in Hp as [Hlen Hall].
    exists c, s2. split; [reflexivity|]. split.
    { unfold is_letter. unfold Regexp.in_class in Hc. simpl in Hc.
      rewrite orb_false_r in Hc. exact Hc. }
    split; [lia|]. rewrite Hcls in Hall. exact Hall.
  - intros (c & r & -> & Hc & Hlen & Hall).
    exists (String c ""), r. split; [reflexivity|]. split.
    { exists c. split; [reflexivity|]. unfold Regexp.in_class. simpl.
      rewrite orb_false_r. exact Hc. }
    exists (String.length r). split; [lia|]. apply RegexpFacts.power_class.
    split; [reflexivity|]. rewrite Hcls. exact Hall.
Qed.

(** C2. [DetectInputType] is a function of its argument alone.  With [t] the
    trimmed input: the answer is "address" exactly when [t] is "0x" followed
    by 40 hex digits; it is "symbol" exactly when [t] is a letter followed
    by 1 to 10 alphanumerics and is not an address; it is "unknown" exactly
    when [t] has neither shape. *)
Theorem DetectInputType_classifies (input : string) :
  let t := GoStrings.TrimSpace input in
  (DetectInputType input = "address" <-> AddressShape t)
  /\ (DetectInputType input = "symbol" <-> SymbolShape t /\ ~ AddressShape t)
  /\ (DetectInputType input = "unknown" <-> ~ AddressShape t /\ ~ SymbolShape t).
Proof.
  intros t. unfold DetectInputType. fold t.
  rewrite <- ethereumAddressRegex_shape, <- symbolRegex_shape.
  destruct (Regexp.MatchString ethereumAddressRegex t);
    destruct (Regexp.MatchString symbolRegex t);
    repeat split; try discriminate; try tauto; try congruence;
    intros; intuition congruence.
Qed.

(** ** The de-duplication key *)
Module KeyFacts.
Import RegexpFacts.

Lemma pretty_N_char_no_colon (x : N) : Ascii.eqb (pretty_N_char x) ":" = false.
Proof. unfold pretty_N_char. repeat case_match; reflexivity. Qed.

Lemma pretty_N_go_no_colon (x : N) : forall s,
  no_colon s = true -> no_colon (pretty_N_go x s) = true.
Proof.
  induction (N.lt_wf_0 x) as [x _ IH]; intros s Hs.
  destruct (decide (x = 0%N)) as [->|Hx].
  - rewrite pretty_N_go_0. exact Hs.
  - rewrite pretty_N_go_step by lia. apply IH.
    + apply N.div_lt; lia.
    + unfold no_colon. simpl. rewrite pretty_N_char_no_colon. exact Hs.
Qed.

Lemma pretty_N_no_colon (x : N) : no_colon (pretty x) = true.
Proof.
  unfold pretty, pretty_N. case_decide; [reflexivity|].
  apply pretty_N_go_no_colon. reflexivity.
Qed.

Lemma pretty_Z_no_colon (x : Z) : no_colon (pretty x) = true.
Proof.
  destruct x as [|p|p]; unfold pretty, pretty_Z; [reflexivity | |].
  - apply (pretty_N_no_colon (Npos p)).
  - unfold no_colon. norm_append. simpl. apply (pretty_N_no_colon (Npos p)).
Qed.

(** The text before the first colon determines the split. *)
Lemma colon_split (s1 : string) : forall s2 a b,
  no_colon s1 = true -> no_colon s2 = true ->
  s1 +:+ ":" +:+ a = s2 +:+ ":" +:+ b -> s1 = s2 /\ a = b.
Proof.
  induction s1 as [|c s1 IH]; intros [|d s2] a b H1 H2 Heq; norm_append.
  - injection Heq as ->. auto.
  - injection Heq as <- _. unfold no_colon in H2. simpl in H2. discriminate.
  - injection Heq as -> _. unfold no_colon in H1. simpl in H1. discriminate.
  - injection Heq as -> Heq.
    unfold no_colon in H1, H2. simpl in H1, H2.
    apply andb_true_iff in H1 as [_ H1]. apply andb_true_iff in H2 as [_ H2].
    destruct (IH s2 a b H1 H2 Heq) as [-> ->]. auto.
Qed.

(** The string key of the source and the pair key of the specification
    identify the same records. *)
Lemma tokenKey_inj (c c' : Z) (a a' : string) :
  tokenKey c a = tokenKey c' a' <-> c = c' /\ GoStrings.ToLower a = GoStrings.ToLower a'.
Proof.
  unfold tokenKey. split.
  - intros Heq. apply colon_split in Heq as [Hp Ha]; auto using pretty_Z_no_colon.
    split; [|exact Ha]. apply (inj pretty). exact Hp.
  - intros [-> ->]. reflexivity.
Qed.

Lemma tokenKey_keyOf (t t' : Token) :
  tokenKey (ChainID t) (Address t) = tokenKey (ChainID t') (Address t')
  <-> keyOf t = keyOf t'.
Proof.
  rewrite tokenKey_inj. unfold keyOf. split.
  - intros [-> ->]. reflexivity.
  - intros [= -> ->]. auto.
Qed.

End KeyFacts.

(** ** De-duplication *)
Module DedupFacts.
Import KeyFacts.

Lemma dedupSeen_snoc (l : list Token) (t : Token) :
  dedupSeen (l ++ [t]) = dedupStep (dedupSeen l) t.
Proof. unfold dedupSeen. rewrite fold_left_app. reflexivity. Qed.

Lemma dedupStep_inv (l : list Token) (seen : gmap string Token) (t : Token) :
  seenInv l seen -> seenInv (l ++ [t]) (dedupStep seen t).
Proof.
  intros [I1 I2]. unfold dedupStep. fold (strKey t).
  destruct (seen !! strKey t) as [existing|] eqn:Hlook.
  - destruct (Z.gtb_spec (getSourcePriority (Source t))
                         (getSourcePriority (Source existing))) as [Hgt|Hle].
    + split.
      * intros k r Hk. destruct (decide (strKey t = k)) as [<-|Hne].
        -- rewrite lookup_insert_eq in Hk. injection Hk as <-.
           split; [apply elem_of_app; right; apply list_elem_of_singleton; reflexivity | reflexivity].
        -- rewrite lookup_insert_ne in Hk by assumption.
           destruct (I1 k r Hk). split; [apply elem_of_app; left; assumption | assumption].
      * intros t' Ht'. apply elem_of_app in Ht' as [Ht'|Ht'].
        -- destruct (I2 t' Ht') as (r & Hr & Hp).
           destruct (decide (strKey t = strKey t')) as [Heq|Hne].
           ++ rewrite <- Heq, lookup_insert_eq. exists t. split; [reflexivity|].
              rewrite <- Heq, Hlook in Hr. injection Hr as <-. lia.
           ++ rewrite lookup_insert_ne by assumption. eauto.
        -- apply list_elem_of_singleton in Ht' as ->.
           rewrite lookup_insert_eq. exists t. split; [reflexivity | lia].
    + split.
      * intros k r Hk. destruct (I1 k r Hk). split; [apply elem_of_app; left; assumption | assumption].
      * intros t' Ht'. apply elem_of_app in Ht' as [Ht'|Ht'].
        -- apply I2. exact Ht'.
        -- apply list_elem_of_singleton in Ht' as ->.
           exists existing. split; [exact Hlook | lia].
  - split.
    + intros k r Hk. destruct (decide (strKey t = k)) as [<-|Hne].
      * rewrite lookup_insert_eq in Hk. injection Hk as <-.
        split; [apply elem_of_app; right; apply list_elem_of_singleton; reflexivity | reflexivity].
      * rewrite lookup_insert_ne in Hk by assumption.
        destruct (I1 k r Hk). split; [apply elem_of_app; left; assumption | assumption].
    + intros t' Ht'. apply elem_of_app in Ht' as [Ht'|Ht'].
      * destruct (I2 t' Ht') as (r & Hr & Hp).
        rewrite lookup_insert_ne by congruence. eauto.
      * apply list_elem_of_singleton in Ht' as ->.
        rewrite lookup_insert_eq. exists t. split; [reflexivity | lia].
Qed.

Lemma dedupSeen_inv (tokens : list Token) : seenInv tokens (dedupSeen tokens).
Proof.
  induction tokens as [|t l IH] using rev_ind.
  - split.
    + intros k r Hk. unfold dedupSeen in Hk. simpl in Hk.
      rewrite lookup_empty in Hk. discriminate.
    + intros t Ht. apply elem_of_nil in Ht. contradiction.
  - rewrite dedupSeen_snoc. apply dedupStep_inv. exact IH.
Qed.

Lemma elem_of_deduplicateTokens (tokens : list Token) (r : Token) :
  r ∈ deduplicateTokens tokens <-> exists k, dedupSeen tokens !! k = Some r.
Proof.
  unfold deduplicateTokens. rewrite list_elem_of_fmap. split.
  - intros ([k r'] & -> & Hin). apply elem_of_map_to_list in Hin. eauto.
  - intros (k & Hk). exists (k, r). split; [reflexivity|].
    apply elem_of_map_to_list. exact Hk.
Qed.

Lemma values_keys {A} (f : A -> string) (l : list (string * A)) :
  (forall k r, (k, r) ∈ l -> f r = k) -> f <$> l.*2 = l.*1.
Proof.
  induction l as [|[k r] l IH]; intros H; simpl; [reflexivity|].
  rewrite (H k r) by set_solver. f_equal. apply IH.
  intros k' r' Hin. apply H. set_solver.
Qed.

Lemma fmtKey_inj : Inj (=) (=) fmtKey.
Proof.
  intros [c a] [c' a'] Heq. unfold fmtKey in Heq. simpl in Heq.
  apply colon_split in Heq as [Hp ->]; auto using pretty_Z_no_colon.
  apply (inj pretty) in Hp as ->. reflexivity.
Qed.

Lemma NoDup_keys_deduplicateTokens (tokens : list Token) :
  NoDup (keyOf <$> deduplicateTokens tokens).
Proof.
  apply (NoDup_fmap_1 fmtKey). rewrite <- list_fmap_compose.
  unfold deduplicateTokens.
  change (fmtKey ∘ keyOf) with strKey.
  rewrite values_keys.
  - apply NoDup_fst_map_to_list.
  - intros k r Hin. apply elem_of_map_to_list in Hin.
    apply (dedupSeen_inv tokens). exact Hin.
Qed.

Lemma getSourcePriority_other (s : string) :
  s <> "geckoterminal" -> s <> "onchain" -> s <> "dexscreener" ->
  s <> "binance" -> getSourcePriority s = 0.
Proof.
  intros H1 H2 H3 H4. unfold getSourcePriority.
  cbn [list_to_map foldr uncurry fst snd].
  rewrite (lookup_insert_ne _ "geckoterminal" s) by congruence.
  rewrite (lookup_insert_ne _ "onchain" s) by congruence.
  rewrite (lookup_insert_ne _ "dexscreener" s) by congruence.
  rewrite (lookup_insert_ne _ "binance" s) by congruence.
  rewrite lookup_empty. reflexivity.
Qed.

Lemma filter_key_absent {A B} `{EqDecision B} (f : A -> B) (l : list A) (x : B) :
  x ∉ f <$> l -> filter (fun r => f r = x) l = [].
Proof.
  induction l as [|a l IH]; intros Hx; [reflexivity|].
  rewrite filter_cons. case_decide as Ha.
  - exfalso. apply Hx. rewrite <- Ha. left.
  - apply IH. intros Hin. apply Hx. right. exact Hin.
Qed.

(** In a list whose keys are pairwise distinct, a key that occurs is the
    key of exactly one element. *)
Lemma filter_key_once {A B} `{EqDecision B} (f : A -> B) (l : list A) (x : B) :
  NoDup (f <$> l) -> x ∈ f <$> l -> length (filter (fun r => f r = x) l) = 1%nat.
Proof.
  induction l as [|a l IH]; intros Hnd Hx.
  - apply elem_of_nil in Hx. contradiction.
  - rewrite fmap_cons in Hnd, Hx. apply NoDup_cons in Hnd as [Hnotin Hnd].
    rewrite filter_cons. case_decide as Ha.
    + subst x. rewrite (filter_key_absent f l (f a) Hnotin). reflexivity.
    + apply elem_of_cons in Hx as [Hx|Hx]; [congruence|].
      apply IH; assumption.
Qed.

End DedupFacts.

(** C1. Whatever order the map is ranged over, the list returned by
    [deduplicateTokens] holds each key (chainId, lower-cased address) of the
    input exactly once: its keys are pairwise distinct and are the keys of
    the input.  Every record of the result is a record of the input, and no
    input record with the same key has a higher source priority.  The
    priorities are ordered geckoterminal > onchain > dexscreener > binance,
    above every other source. *)
Theorem deduplicateTokens_keeps_best (tokens result : list Token) :
  deduplicateTokens_returns tokens result ->
  NoDup (keyOf <$> result)
  /\ (forall k, k ∈ keyOf <$> result <-> k ∈ keyOf <$> tokens)
  /\ (forall t, t ∈ tokens ->
        length (filter (fun r => keyOf r = keyOf t) result) = 1%nat)
  /\ (forall r, r ∈ result ->
        r ∈ tokens
        /\ forall t, t ∈ tokens -> keyOf t = keyOf r ->
             getSourcePriority (Source t) <= getSourcePriority (Source r))
  /\ (getSourcePriority "geckoterminal" > getSourcePriority "onchain"
      /\ getSourcePriority "onchain" > getSourcePriority "dexscreener"
      /\ getSourcePriority "dexscreener" > getSourcePriority "binance"
      /\ forall s, s <> "geckoterminal" -> s <> "onchain" -> s <> "dexscreener" ->
                   s <> "binance" ->
                   getSourcePriority "binance" > getSourcePriority s).
Proof.
  intros Hperm. unfold deduplicateTokens_returns in Hperm.
  pose proof (DedupFacts.dedupSeen_inv tokens) as [I1 I2].
  assert (Hnd : NoDup (keyOf <$> result)).
  { rewrite Hperm. apply DedupFacts.NoDup_keys_deduplicateTokens. }
  assert (Hkeys : forall k, k ∈ keyOf <$> result <-> k ∈ keyOf <$> tokens).
  { intros k. rewrite Hperm, !list_elem_of_fmap. split.
    - intros (r & -> & Hr). apply DedupFacts.elem_of_deduplicateTokens in Hr as (k & Hk).
      exists r. split; [reflexivity|]. apply (I1 k r Hk).
    - intros (t & -> & Ht). destruct (I2 t Ht) as (r & Hr & _).
      exists r. split.
      + apply KeyFacts.tokenKey_keyOf. symmetry. apply (I1 _ _ Hr).
      + apply DedupFacts.elem_of_deduplicateTokens. eauto. }
  split; [exact Hnd|]. split; [exact Hkeys|]. split; [|split].
  - intros t Ht. apply DedupFacts.filter_key_once; [exact Hnd|].
    apply Hkeys. apply list_elem_of_fmap. eauto.
  - intros r Hr. rewrite Hperm in Hr.
    apply DedupFacts.elem_of_deduplicateTokens in Hr as (k & Hk).
    destruct (I1 k r Hk) as [Hin Hkey]. split; [exact Hin|].
    intros t Ht Heq. destruct (I2 t Ht) as (r' & Hr' & Hp).
    apply KeyFacts.tokenKey_keyOf in Heq.
    unfold strKey in *. rewrite Heq, Hkey, Hk in Hr'.
    injection Hr' as <-. exact Hp.
  - repeat split; try (vm_compute; reflexivity).
    intros s H1 H2 H3 H4.
    rewrite (DedupFacts.getSourcePriority_other s) by assumption.
    vm_compute. reflexivity.
Qed.

(** ** The integer of a response *)
Module BytesMore.

Lemma fold_SetBytes (b : list byte) : forall acc,
  fold_left (fun acc x => acc * 256 + Z.of_N (Byte.to_N x)) b acc
  = acc * 256 ^ Z.of_nat (length b) + SetBytes b.
Proof.
  unfold SetBytes. induction b as [|x b IH]; intros acc.
  - simpl. lia.
  - cbn [fold_left length]. rewrite IH, (IH (0 * 256 + _)).
    rewrite Nat2Z.inj_succ, Z.pow_succ_r by lia. ring.
Qed.

Lemma SetBytes_app (a b : list byte) :
  SetBytes (a ++ b) = SetBytes a * 256 ^ Z.of_nat (length b) + SetBytes b.
Proof.
  unfold SetBytes at 1. rewrite fold_left_app. fold (SetBytes a).
  apply fold_SetBytes.
Qed.

Lemma byte_bound (x : byte) : 0 <= Z.of_N (Byte.to_N x) < 256.
Proof. destruct x; vm_compute; split; congruence. Qed.

Lemma SetBytes_bound (b : list byte) :
  0 <= SetBytes b < 256 ^ Z.of_nat (length b).
Proof.
  induction b as [|x b IH] using rev_ind.
  - vm_compute. split; congruence.
  - rewrite SetBytes_app, length_app. cbn [length].
    change (SetBytes [x]) with (0 * 256 + Z.of_N (Byte.to_N x)).
    pose proof (byte_bound x).
    replace (Z.of_nat (length b + 1)) with (Z.succ (Z.of_nat (length b))) by lia.
    rewrite Z.pow_succ_r by lia. change (256 ^ Z.of_nat 1) with 256. nia.
Qed.

Lemma Uint64_last_eight (pre last : list byte) :
  length last = 8%nat -> Uint64 (SetBytes (pre ++ last)) = SetBytes last.
Proof.
  intros Hlen. unfold Uint64. rewrite SetBytes_app, Hlen.
  change (256 ^ Z.of_nat 8) with (2 ^ 64).
  pose proof (SetBytes_bound last) as Hb. rewrite Hlen in Hb.
  change (256 ^ Z.of_nat 8) with (2 ^ 64) in Hb.
  rewrite Z.add_comm, Z.mod_add by lia. apply Z.mod_small. exact Hb.
Qed.

End BytesMore.

(** ** On-chain metadata *)
Section OnchainFacts.

Context (L : Deps) (C : Config) (W : World).

Lemma callStringMethod_gives rpcURL address methodSig str :
  stringCallGives L W rpcURL address methodSig str ->
  fst (callStringMethod L W rpcURL address methodSig) = Ok str.
Proof.
  intros (response & Hcall & Hlen & Hdec).
  unfold callStringMethod, bind, send, ret. simpl. rewrite Hcall.
  destruct (Nat.ltb_spec (length response) 64) as [?|_]; [lia|].
  rewrite Hdec. reflexivity.
Qed.

Lemma callStringMethod_fails rpcURL address methodSig :
  stringCallFails L W rpcURL address methodSig ->
  is_Ok (fst (callStringMethod L W rpcURL address methodSig)) = false.
Proof.
  unfold stringCallFails, callStringMethod, bind, send, ret. simpl.
  destruct (CallContract W rpcURL address methodSig) as [response|];
    [|reflexivity].
  destruct (Nat.ltb_spec (length response) 64) as [?|?]; [reflexivity|].
  intros [? | ->]; [lia | reflexivity].
Qed.

Lemma callDecimalsMethod_fails rpcURL address :
  decimalsCallFails W rpcURL address ->
  decimalsWordFits W rpcURL address ->
  is_Ok (fst (callDecimalsMethod W rpcURL address decimalsSignature)) = false.
Proof.
  unfold decimalsCallFails, decimalsWordFits, encodedDecimals,
    callDecimalsMethod, bind, send, ret. simpl.
  destruct (CallContract W rpcURL address decimalsSignature) as [response|];
    [|reflexivity].
  destruct (Nat.ltb_spec (length response) 32) as [?|Hlen]; [reflexivity|].
  intros [?|Hbig] Hfits; [lia|]. destruct (Hfits Hlen) as [Hword Hsmall].
  rewrite take_ge in Hbig by lia.
  pose proof (BytesMore.SetBytes_bound response) as [Hnonneg _].
  unfold Uint64. rewrite Z.mod_small by lia.
  destruct (Z.gtb_spec (SetBytes response) 77); [reflexivity | lia].
Qed.

Lemma fst_bind {A B} (m : Net A) (k : A -> Net B) :
  fst (bind m k) = fst (k (fst m)).
Proof. unfold bind. destruct m as [a l1]. simpl. destruct (k a). reflexivity. Qed.

Lemma fst_httpGet {A} (url : string) (outcome : HttpOutcome A) :
  fst (httpGet url outcome) = outcome.
Proof. destruct outcome; reflexivity. Qed.

Lemma snd_httpGet {A} (url : string) (outcome : HttpOutcome A) :
  snd (httpGet url outcome) = sentGet url outcome.
Proof. destruct outcome; reflexivity. Qed.

(** A [decimals()] response that is a right-aligned byte is read as
    that byte. *)
Lemma SetBytes_right_aligned (b : byte) :
  Uint64 (SetBytes (repeat x00 31 ++ [b])) = Z.of_N (Byte.to_N b).
Proof. destruct b; reflexivity. Qed.

(** Where the default of the decimals is as specified.  On a chain whose
    endpoint answers: if [symbol()] and [name()] answer [symbol] and [name]
    and the [decimals()] call fails to decode or yields more than 77, the
    response being one word of a value below [2 ^ 64] when it has a word,
    the metadata fetch succeeds with decimals 18, and, the two strings
    being non-empty, the token produced for the chain has decimals 18.  If
    instead the [symbol()] or the [name()] call fails (the call itself, a
    response under 64 bytes, or the ABI decoding), the fetch returns an
    error and no token is produced for the chain. *)
Lemma decimals_default_and_string_failure
    (address : string) (chainID : Z) (chain : ChainConfig) :
  GetActiveChains C !! chainID = Some chain ->
  DialContext W (RpcURL chain) = true ->
  (forall symbol name,
      stringCallGives L W (RpcURL chain) address symbolSignature symbol ->
      stringCallGives L W (RpcURL chain) address nameSignature name ->
      decimalsCallFails W (RpcURL chain) address ->
      decimalsWordFits W (RpcURL chain) address ->
      fst (getTokenInfoFromContract L C W address chainID)
      = Ok (mkTokenInfo symbol name 18)
      /\ (forall chain', GetChainByID C chainID = Some chain' ->
            RpcURL chain' <> "" -> symbol <> "" -> name <> "" ->
            exists token,
              fst (verifyTokenOnchain L C W address chainID) = Some token
              /\ Decimals token = 18))
  /\ (stringCallFails L W (RpcURL chain) address symbolSignature
      \/ stringCallFails L W (RpcURL chain) address nameSignature ->
      is_Ok (fst (getTokenInfoFromContract L C W address chainID)) = false
      /\ fst (verifyTokenOnchain L C W address chainID) = None).
Proof.
  intros Hchain Hdial. split.
  - intros symbol name Hsym Hname Hdec Hfits.
    assert (Hinfo : fst (getTokenInfoFromContract L C W address chainID)
                    = Ok (mkTokenInfo symbol name 18)).
    { unfold getTokenInfoFromContract. rewrite Hchain.
      rewrite fst_bind. unfold send at 1. cbn [fst]. rewrite Hdial. cbn [negb].
      rewrite fst_bind, (callStringMethod_gives _ _ _ _ Hsym).
      rewrite fst_bind, (callStringMethod_gives _ _ _ _ Hname).
      rewrite fst_bind. apply callDecimalsMethod_fails in Hdec; [|exact Hfits].
      destruct (fst (callDecimalsMethod W (RpcURL chain) address decimalsSignature));
        [discriminate | reflexivity]. }
    split; [exact Hinfo|].
    intros chain' Hbyid Hrpc Hs Hn.
    unfold verifyTokenOnchain. rewrite Hbyid.
    destruct (String.eqb_spec (RpcURL chain') "") as [?|_]; [contradiction|].
    rewrite fst_bind, Hinfo. cbn [ret fst ti_Symbol ti_Name ti_Decimals].
    destruct (String.eqb_spec symbol "") as [?|_]; [contradiction|].
    destruct (String.eqb_spec name "") as [?|_]; [contradiction|].
    cbn [orb]. eexists. split; reflexivity.
  - intros Hfail.
    assert (Hinfo : is_Ok (fst (getTokenInfoFromContract L C W address chainID))
                    = false).
    { unfold getTokenInfoFromContract. rewrite Hchain.
      rewrite fst_bind. unfold send at 1. cbn [fst]. rewrite Hdial. cbn [negb].
      rewrite fst_bind.
      destruct (fst (callStringMethod L W (RpcURL chain) address symbolSignature))
        as [symbol|msg] eqn:Hsym; [|reflexivity].
      rewrite fst_bind.
      destruct (fst (callStringMethod L W (RpcURL chain) address nameSignature))
        as [name|msg] eqn:Hname; [|reflexivity].
      destruct Hfail as [Hf|Hf]; apply callStringMethod_fails in Hf.
      + rewrite Hsym in Hf. discriminate.
      + rewrite Hname in Hf. discriminate. }
    split; [exact Hinfo|].
    unfold verifyTokenOnchain.
    destruct (GetChainByID C chainID) as [chain'|]; [|reflexivity].
    destruct (String.eqb (RpcURL chain') ""); [reflexivity|].
    rewrite fst_bind.
    destruct (fst (getTokenInfoFromContract L C W address chainID));
      [discriminate | reflexivity].
Qed.

End OnchainFacts.

(** ** Provenance of the tokens of a search *)
Section Provenance.

Context (L : Deps) (C : Config) (W : World).

Lemma fold_left_fst_Forall {A S} (P : Token -> Prop)
    (step : list Token * S -> A -> list Token * S) (l : list A) :
  (forall acc a, Forall P (fst acc) -> Forall P (fst (step acc a))) ->
  forall acc, Forall P (fst acc) -> Forall P (fst (fold_left step l acc)).
Proof.
  intros Hstep. induction l as [|a l IH]; intros acc Hacc; simpl; auto.
Qed.

Lemma Forall_snoc (P : Token -> Prop) (l : list Token) (t : Token) :
  Forall P l -> P t -> Forall P (l ++ [t]).
Proof. intros Hl Ht. apply Forall_app. split; [exact Hl | constructor; auto]. Qed.

Lemma geckoTokens_Produced (pools : list GeckoPool) :
  Forall (Produced C) (geckoTokens C pools).
Proof.
  unfold geckoTokens. apply fold_left_fst_Forall; [|constructor].
  intros [tokens seen] pool Hacc. unfold geckoStep. simpl in Hacc.
  repeat (case_match; simplify_eq; simpl; try assumption);
    repeat (apply Forall_snoc; try assumption; try constructor).
Qed.

Lemma dexTokens_Produced (pairs : list DexSearchPair) :
  Forall (Produced C) (dexTokens C pairs).
Proof.
  unfold dexTokens. apply fold_left_fst_Forall; [|constructor].
  intros [tokens seen] pair Hacc. unfold dexStep. simpl in Hacc.
  repeat (case_match; simplify_eq; simpl; try assumption);
    repeat (apply Forall_snoc; try assumption; try constructor).
Qed.

Lemma binanceTokens_Produced (query : string) (tickers : list BinanceTicker) :
  Forall (Produced C) (binanceTokens C query tickers).
Proof.
  unfold binanceTokens.
  destruct (GetChainByID C bscChainID) as [chain|]; [|constructor].
  destruct (IsActive chain); [|constructor].
  apply fold_left_fst_Forall; [|constructor].
  intros [tokens seen] ticker Hacc. unfold binanceStep. simpl in Hacc.
  repeat (case_match; simplify_eq; simpl; try assumption);
    apply Forall_snoc; try assumption; constructor; assumption.
Qed.

Lemma searchGeckoTerminal_Produced (query : string) :
  Forall (Produced C) (fst (searchGeckoTerminal C W query)).
Proof.
  unfold searchGeckoTerminal. rewrite fst_bind. cbn [ret fst].
  repeat (case_match; try constructor). apply geckoTokens_Produced.
Qed.

Lemma searchDexScreener_Produced (query : string) :
  Forall (Produced C) (fst (searchDexScreener C W query)).
Proof.
  unfold searchDexScreener. rewrite fst_bind. cbn [ret fst].
  repeat (case_match; try constructor). apply dexTokens_Produced.
Qed.

Lemma searchBinance_Produced (query : string) :
  Forall (Produced C) (fst (searchBinance C W query)).
Proof.
  unfold searchBinance. rewrite fst_bind. cbn [ret fst].
  repeat (case_match; try constructor). apply binanceTokens_Produced.
Qed.

Lemma Uint64_range (x : Z) : 0 <= Uint64 x < 2 ^ 64.
Proof. unfold Uint64. apply Z.mod_pos_bound. reflexivity. Qed.

Lemma callDecimalsMethod_range rpcURL address methodSig d :
  fst (callDecimalsMethod W rpcURL address methodSig) = Ok d -> 0 <= d <= 77.
Proof.
  unfold callDecimalsMethod. rewrite fst_bind. cbn [ret fst send].
  destruct (CallContract W rpcURL address methodSig) as [response|];
    [|discriminate].
  destruct (length response <? 32)%nat; [discriminate|].
  destruct (Z.gtb_spec (Uint64 (SetBytes response)) 77); [discriminate|].
  intros [= <-]. pose proof (Uint64_range (SetBytes response)). lia.
Qed.

Lemma getTokenInfoFromContract_range address chainID info :
  fst (getTokenInfoFromContract L C W address chainID) = Ok info ->
  0 <= ti_Decimals info <= 77.
Proof.
  unfold getTokenInfoFromContract.
  destruct (GetActiveChains C !! chainID) as [chain|]; [|discriminate].
  rewrite fst_bind. cbn [send fst].
  destruct (DialContext W (RpcURL chain)); cbn [negb]; [|discriminate].
  rewrite fst_bind.
  destruct (fst (callStringMethod L W (RpcURL chain) address symbolSignature));
    [|discriminate].
  rewrite fst_bind.
  destruct (fst (callStringMethod L W (RpcURL chain) address nameSignature));
    [|discriminate].
  rewrite fst_bind. cbn [ret fst].
  destruct (fst (callDecimalsMethod W (RpcURL chain) address decimalsSignature))
    as [d|msg] eqn:Hd; intros [= <-]; cbn [ti_Decimals].
  - eapply callDecimalsMethod_range. exact Hd.
  - lia.
Qed.

Lemma verifyTokenOnchain_shape address chainID token :
  fst (verifyTokenOnchain L C W address chainID) = Some token ->
  exists symbol name decimals,
    0 <= decimals <= 77
    /\ token = newToken (GoStrings.ToLower address) (GoStrings.ToUpper symbol)
                 name chainID decimals "onchain" true false.
Proof.
  unfold verifyTokenOnchain.
  destruct (GetChainByID C chainID) as [chain|]; [|discriminate].
  destruct (String.eqb (RpcURL chain) ""); [discriminate|].
  rewrite fst_bind. cbn [ret fst].
  destruct (fst (getTokenInfoFromContract L C W address chainID))
    as [info|msg] eqn:Hinfo; [|discriminate].
  destruct (String.eqb (ti_Symbol info) "" || String.eqb (ti_Name info) "");
    [discriminate|].
  intros [= <-]. exists (ti_Symbol info), (ti_Name info), (ti_Decimals info).
  split; [|reflexivity]. eapply getTokenInfoFromContract_range. exact Hinfo.
Qed.

Lemma Produced_onchain_plain address symbol name chainID decimals :
  0 <= decimals <= 77 ->
  Produced C (newToken (GoStrings.ToLower address) (GoStrings.ToUpper symbol)
                name chainID decimals "onchain" true false).
Proof. intros H. exact (Produced_onchain C address symbol name chainID decimals false "" [] H). Qed.


Lemma fst_forEach {A B} (f : A -> Net B) (l : list A) :
  fst (forEach f l) = map (fun a => fst (f a)) l.
Proof.
  induction l as [|a l IH]; [reflexivity|].
  cbn [forEach map]. rewrite fst_bind, fst_bind. cbn [ret fst].
  rewrite IH. reflexivity.
Qed.

Lemma omap_id_Forall {A} (P : Token -> Prop) (f : A -> option Token) (l : list A) :
  (forall a t, f a = Some t -> P t) -> Forall P (omap id (map f l)).
Proof.
  intros H. induction l as [|a l IH]; [constructor|].
  cbn [map omap]. unfold id at 1. destruct (f a) as [t|] eqn:Hf; simpl.
  - constructor; [eapply H; exact Hf | exact IH].
  - exact IH.
Qed.

Lemma addressTask_Produced address cID token :
  fst (addressTask L C W address cID) = Some token -> Produced C token.
Proof.
  unfold addressTask. rewrite fst_bind.
  destruct (fst (quickTokenCheck L C W address cID)); cbn [negb];
    [|discriminate].
  rewrite fst_bind. cbn [ret fst].
  destruct (fst (verifyTokenOnchain L C W address cID)) as [t|] eqn:Hv;
    [|discriminate].
  apply verifyTokenOnchain_shape in Hv as (s & n & d & Hd & ->).
  destruct (GetPopularTokenMetadata C address cID) as [metadata|];
    intros [= <-].
  - apply Produced_onchain. exact Hd.
  - apply Produced_onchain_plain. exact Hd.
Qed.

Lemma symbolTask_Produced queryUpper cID token :
  fst (symbolTask L C W queryUpper cID) = Some token -> Produced C token.
Proof.
  unfold symbolTask.
  destruct (GetPopularTokens C cID !! queryUpper) as [address|]; [|discriminate].
  rewrite fst_bind. cbn [ret fst].
  destruct (fst (verifyTokenOnchain L C W address cID)) as [t|] eqn:Hv;
    [|discriminate].
  apply verifyTokenOnchain_shape in Hv as (s & n & d & Hd & ->).
  intros [= <-].
  exact (Produced_onchain C address s n cID d true "" [] Hd).
Qed.

Lemma searchByAddressOptimized_Produced address :
  Forall (Produced C) (fst (searchByAddressOptimized L C W address)).
Proof.
  unfold searchByAddressOptimized. rewrite fst_bind. cbn [ret fst].
  rewrite fst_forEach. apply omap_id_Forall. apply addressTask_Produced.
Qed.

Lemma searchOnchain_Produced query :
  Forall (Produced C) (fst (searchOnchain L C W query)).
Proof.
  unfold searchOnchain.
  destruct (String.eqb (DetectInputType query) "address").
  - apply searchByAddressOptimized_Produced.
  - rewrite fst_bind. cbn [ret fst].
    rewrite fst_forEach. apply omap_id_Forall. apply symbolTask_Produced.
Qed.

Lemma externalAPIs_Produced query :
  Forall (Produced C) (fst (externalAPIs C W query)).
Proof.
  unfold externalAPIs. rewrite !fst_bind. cbn [ret fst].
  rewrite !Forall_app.
  auto using searchGeckoTerminal_Produced, searchDexScreener_Produced,
    searchBinance_Produced.
Qed.

Lemma deduplicateTokens_subset (l : list Token) (P : Token -> Prop) :
  Forall P l -> Forall P (deduplicateTokens l).
Proof.
  rewrite !Forall_forall. intros H t Ht.
  apply DedupFacts.elem_of_deduplicateTokens in Ht as (k & Hk).
  apply H. destruct (DedupFacts.dedupSeen_inv l) as [I1 _]. apply (I1 k t Hk).
Qed.

(** A search that does not answer from the cache returns records built
    by one of the four paths. *)
Lemma searchFresh_Produced query :
  Forall (Produced C) (fst (searchFresh L C W query)).
Proof.
  unfold searchFresh. rewrite !fst_bind. cbn [ret fst].
  apply deduplicateTokens_subset. apply Forall_app. split.
  - destruct (String.eqb (DetectInputType query) "address").
    + apply searchByAddressOptimized_Produced.
    + apply externalAPIs_Produced.
  - apply searchOnchain_Produced.
Qed.

(** A search that does not answer from the cache returns records built
    by one of the four paths. *)
Lemma SearchTokensExternal_Produced cache now query :
  answersFromCache cache now query = false ->
  Forall (Produced C) (tokens (SearchTokensExternal L C W cache now query)).
Proof.
  unfold answersFromCache, SearchTokensExternal, cacheKeyOf. intros ->.
  pose proof (searchFresh_Produced query) as H.
  destruct (searchFresh L C W query) as [finalTokens sent].
  exact H.
Qed.

End Provenance.

(** ** Casing and decimals of the records *)
Module CaseFacts.

Lemma lower_byte_idem (c : ascii) :
  GoStrings.lower_byte (GoStrings.lower_byte c) = GoStrings.lower_byte c.
Proof. destruct c as [[] [] [] [] [] [] [] []]; reflexivity. Qed.

Lemma upper_byte_idem (c : ascii) :
  GoStrings.upper_byte (GoStrings.upper_byte c) = GoStrings.upper_byte c.
Proof. destruct c as [[] [] [] [] [] [] [] []]; reflexivity. Qed.

Lemma ToLower_lowerCased (s : string) : lowerCased (GoStrings.ToLower s).
Proof.
  unfold lowerCased, GoStrings.ToLower.
  induction s as [|c s IH]; simpl; [reflexivity|].
  rewrite lower_byte_idem, IH. reflexivity.
Qed.

Lemma ToUpper_upperCased (s : string) : upperCased (GoStrings.ToUpper s).
Proof.
  unfold upperCased, GoStrings.ToUpper.
  induction s as [|c s IH]; simpl; [reflexivity|].
  rewrite upper_byte_idem, IH. reflexivity.
Qed.






Lemma Produced_decimals (C : Config) (t : Token) :
  Produced C t -> Decimals t <> 18 -> Source t = "onchain".
Proof.
  intros [leg c|leg c|baseAsset address Hkey|address symbol name c d p logo tags Hd];
    simpl; intros H; congruence.
Qed.

End CaseFacts.


(** The condition on the table is needed: [searchBinance] takes the symbol
    of a record from the table key as it is, where the other paths apply
    [strings.ToUpper].  With the key "wBTC" and the ticker "wBTCUSDT", the
    query "btc" yields a record whose symbol is "wBTC". *)
Remark searchBinance_symbol_not_upper :
  ~ Forall (fun t => upperCasedSymbol (Symbol t))
      (fst (searchBinance Sample.mixedCaseConfig
              (Sample.tickerWorld "wBTCUSDT") "btc")).
Proof.
  intros H. vm_compute in H. apply Forall_inv in H as [_ H]. discriminate.
Qed.

(** C9. The records of the three provider searches have decimals 18; in
    a search that does not answer from the cache, a record whose decimals are
    not 18 comes from the on-chain verification, which can produce other
    values (6 for the sample contract). *)
Theorem provider_decimals_are_18 (L : Deps) (C : Config) (W : World)
    (now : Z) (query : string) :
  Forall (fun t => Decimals t = 18) (fst (searchGeckoTerminal C W query))
  /\ Forall (fun t => Decimals t = 18) (fst (searchDexScreener C W query))
  /\ Forall (fun t => Decimals t = 18) (fst (searchBinance C W query))
  /\ (forall cache,
        answersFromCache cache now query = false ->
        Forall (fun t => Decimals t <> 18 -> Source t = "onchain")
          (tokens (SearchTokensExternal L C W cache now query)))
  /\ (exists token,
        fst (verifyTokenOnchain Sample.deps Sample.config
               (Sample.erc20World (Sample.word 6)) Sample.usdc 1) = Some token
        /\ Decimals token = 6).
Proof.
  split; [|split; [|split; [|split]]].
  - unfold searchGeckoTerminal. rewrite fst_bind. cbn [ret fst].
    repeat (case_match; try constructor).
    unfold geckoTokens. apply fold_left_fst_Forall; [|constructor].
    intros [tks seen] pool Hacc. unfold geckoStep. simpl in Hacc.
    repeat (case_match; simplify_eq; simpl; try assumption);
      repeat (apply Forall_snoc; try assumption; try reflexivity).
  - unfold searchDexScreener. rewrite fst_bind. cbn [ret fst].
    repeat (case_match; try constructor).
    unfold dexTokens. apply fold_left_fst_Forall; [|constructor].
    intros [tks seen] pair Hacc. unfold dexStep. simpl in Hacc.
    repeat (case_match; simplify_eq; simpl; try assumption);
      repeat (apply Forall_snoc; try assumption; try reflexivity).
  - unfold searchBinance. rewrite fst_bind. cbn [ret fst].
    repeat (case_match; try constructor).
    unfold binanceTokens.
    destruct (GetChainByID C bscChainID) as [chain|]; [|constructor].
    destruct (IsActive chain); [|constructor].
    apply fold_left_fst_Forall; [|constructor].
    intros [tks seen] ticker Hacc. unfold binanceStep. simpl in Hacc.
    repeat (case_match; simplify_eq; simpl; try assumption);
      apply Forall_snoc; try assumption; reflexivity.
  - intros cache Hmiss.
    eapply Forall_impl; [apply SearchTokensExternal_Produced; exact Hmiss|].
    intros t Ht. apply (CaseFacts.Produced_decimals C). exact Ht.
  - eexists. split; vm_compute; reflexivity.
Qed.

(** C3. A [decimals()] response that yields a value greater than 77 does
    not always give the default: the check is made on the low 64 bits of
    the integer of the whole response.  With [symbol()] and [name()]
    answering, the one-word response of [2 ^ 64 + 5] gives a token of
    decimals 5, and the two-word response whose first word is 200 gives a
    token of decimals 0, where the decimals should be 18. *)
Theorem decimals_above_77_are_accepted :
  let C := Sample.config in
  let rpc := "https://eth.example/rpc" in
  let W := Sample.erc20World Sample2.wideDecimalsWord in
  let W' := Sample.erc20World Sample2.twoWordDecimals in
  (stringCallGives Sample.deps W rpc Sample.usdc symbolSignature "USDC"
   /\ stringCallGives Sample.deps W rpc Sample.usdc nameSignature "USD Coin"
   /\ length Sample2.wideDecimalsWord = 32%nat
   /\ encodedDecimals Sample2.wideDecimalsWord = 2 ^ 64 + 5
   /\ decimalsCallFails W rpc Sample.usdc
   /\ fst (getTokenInfoFromContract Sample.deps C W Sample.usdc 1)
      = Ok (mkTokenInfo "USDC" "USD Coin" 5)
   /\ exists token,
        fst (verifyTokenOnchain Sample.deps C W Sample.usdc 1) = Some token
        /\ Decimals token = 5)
  /\ (encodedDecimals Sample2.twoWordDecimals = 200
      /\ decimalsCallFails W' rpc Sample.usdc
      /\ fst (getTokenInfoFromContract Sample.deps C W' Sample.usdc 1)
         = Ok (mkTokenInfo "USDC" "USD Coin" 0)
      /\ exists token,
           fst (verifyTokenOnchain Sample.deps C W' Sample.usdc 1) = Some token
           /\ Decimals token = 0).
Proof.
  cbv zeta. split.
  - split.
    { eexists. split; [reflexivity|].
      split; [simpl; lia | vm_compute; reflexivity]. }
    split.
    { eexists. split; [reflexivity|].
      split; [simpl; lia | vm_compute; reflexivity]. }
    split; [reflexivity|]. split; [vm_compute; reflexivity|].
    split; [right; vm_compute; reflexivity|].
    split; [vm_compute; reflexivity|].
    eexists. split; vm_compute; reflexivity.
  - split; [vm_compute; reflexivity|].
    split; [right; vm_compute; reflexivity|].
    split; [vm_compute; reflexivity|].
    eexists. split; vm_compute; reflexivity.
Qed.

(** ** The enrichment waterfall *)
Section WaterfallFacts.

Context (L : Deps) (W : World).

(** Without a panic the waterfall is as specified: the DEX-pair result
    wins; the pool provider is asked only after the DEX-pair step reported
    failure; when both report failure the token comes back tagged
    "onchain_only", its other fields untouched. *)
Lemma enhance_waterfall (now : Z) (token : Token) :
  (forall token',
      fst (enhanceFromDexScreener L W now token) = Returned (true, token') ->
      enhanceTokenWithMarketData L W now token
      = (Returned token',
         [HttpGet ("https://api.dexscreener.com/latest/dex/tokens/"
                   +:+ Address token)]))
  /\ (forall token',
        fst (enhanceFromDexScreener L W now token) = Returned (false, token) ->
        fst (enhanceFromGeckoTerminal L W now token) = Returned (true, token') ->
        fst (enhanceTokenWithMarketData L W now token) = Returned token')
  /\ (fst (enhanceFromDexScreener L W now token) = Returned (false, token) ->
      fst (enhanceFromGeckoTerminal L W now token) = Returned (false, token) ->
      fst (enhanceTokenWithMarketData L W now token)
      = Returned (set_Source "onchain_only" token)).
Proof.
  unfold enhanceTokenWithMarketData. split; [|split].
  - intros token' H. revert H. unfold enhanceFromDexScreener.
    destruct (DexTokens W _) as [|status body|]; cbn [httpGet send ret bind fst];
      [discriminate | | discriminate].
    intros ->. reflexivity.
  - intros token' H1 H2. rewrite fst_bind, H1, fst_bind, H2. reflexivity.
  - intros H1 H2. rewrite fst_bind, H1, fst_bind, H2. reflexivity.
Qed.

(** A body shorter than 200 bytes on a 200 response makes the DEX-pair
    step panic, whatever it decodes to, and the panic ends the
    enrichment. *)
Lemma short_body_panics (now : Z) (token : Token) (n : nat)
    (decoded : option (list DexPair)) :
  DexTokens W ("https://api.dexscreener.com/latest/dex/tokens/" +:+ Address token)
  = Response 200 (Some (n, decoded)) ->
  (n < 200)%nat ->
  fst (enhanceTokenWithMarketData L W now token)
  = Panicked "slice bounds out of range".
Proof.
  intros Hresp Hn. unfold enhanceTokenWithMarketData.
  rewrite fst_bind. unfold enhanceFromDexScreener.
  rewrite fst_bind. rewrite ?fst_httpGet. cbn [send fst ret]. rewrite Hresp. cbn [Z.eqb Pos.eqb negb].
  unfold first200. destruct (Nat.leb_spec 200 n) as [?|_]; [lia|]. reflexivity.
Qed.

End WaterfallFacts.

(** C4. When the DEX-pair provider has no pair for the address it answers
    200 with a body of 38 bytes; no provider supplies data, yet the token is
    not returned tagged "onchain_only": the enrichment panics on the
    first 200 bytes of the body that it formats for the log. *)
Theorem enrichment_panics_on_short_body :
  fst (enhanceTokenWithMarketData Sample.deps Sample2.noPairsWorld 0
         Sample.usdcToken)
  = Panicked "slice bounds out of range"
  /\ fst (getTokenWithMarketData Sample.deps Sample.config
            {| GeckoSearch := fun _ => RequestFailed;
               DexSearch := fun _ => RequestFailed;
               BinanceTickers := fun _ => RequestFailed;
               DexTokens := DexTokens Sample2.noPairsWorld;
               GeckoToken := fun _ => RequestFailed;
               DialContext := fun _ => true;
               CallContract := CallContract (Sample.erc20World (Sample.word 6)) |}
            0 Sample.usdc 1)
     = Panicked "slice bounds out of range".
Proof. split; vm_compute; reflexivity. Qed.

(** ** The search entry point and its cache *)
Section SearchFacts.

Context (L : Deps) (C : Config).

Lemma snd_bind {A B} (m : Net A) (k : A -> Net B) :
  snd (bind m k) = snd m ++ snd (k (fst m)).
Proof. unfold bind. destruct m as [a l1]. simpl. destruct (k a). reflexivity. Qed.

Lemma deduplicateTokens_nil (l : list Token) :
  deduplicateTokens l = [] <-> l = [].
Proof.
  split.
  - intros Hnil. destruct l as [|t l]; [reflexivity|]. exfalso.
    destruct (DedupFacts.dedupSeen_inv (t :: l)) as [_ I2].
    destruct (I2 t) as (r & Hr & _); [left|].
    assert (Hin : r ∈ deduplicateTokens (t :: l)).
    { apply DedupFacts.elem_of_deduplicateTokens. eauto. }
    rewrite Hnil in Hin. apply elem_of_nil in Hin. exact Hin.
  - intros ->. unfold deduplicateTokens, dedupSeen. simpl.
    rewrite map_to_list_empty. reflexivity.
Qed.

(** What a call that does not answer from the cache does. *)
Lemma SearchTokensExternal_computes (W : World) cache now query :
  answersFromCache cache now query = false ->
  SearchTokensExternal L C W cache now query
  = mkSearchRun
      (fst (searchFresh L C W query)) None
      (if (0 <? length (fst (searchFresh L C W query)))%nat
       then CacheService.Set_ cache now (cacheKeyOf query)
              (fst (searchFresh L C W query)) (5 * Minute)
       else cache)
      (snd (searchFresh L C W query)).
Proof.
  unfold answersFromCache, SearchTokensExternal, cacheKeyOf.
  intros ->. destruct (searchFresh L C W query) as [finalTokens sent].
  reflexivity.
Qed.

(** What a call that answers from the cache does. *)
Lemma SearchTokensExternal_hit (W : World) cache now query :
  answersFromCache cache now query = true ->
  SearchTokensExternal L C W cache now query
  = mkSearchRun
      (default [] (CacheService.Get cache now (cacheKeyOf query)))
      None cache [].
Proof.
  unfold answersFromCache, SearchTokensExternal, cacheKeyOf.
  intros ->. reflexivity.
Qed.

(** C5 (as amended). A query classified "unknown" is not set aside: on a
    cache miss the search runs the three provider searches, sending a GET
    to each provider whose request could be created from the URL (the two
    search URLs carry the query as typed), then runs the on-chain look-up
    of the upper-cased query in the popular-token tables, as it does for a
    symbol.  It returns the de-duplicated union with no error, and this
    list is empty exactly when the providers and the on-chain look-up
    contribute no token. *)
Theorem unknown_query_is_searched (W : World) cache now query :
  DetectInputType query = "unknown" ->
  answersFromCache cache now query = false ->
  let r := SearchTokensExternal L C W cache now query in
  let onchain := forEach (symbolTask L C W (GoStrings.ToUpper query))
                         (activeChainIDs C) in
  let found := fst (searchGeckoTerminal C W query)
               ++ fst (searchDexScreener C W query)
               ++ fst (searchBinance C W query) ++ omap id (fst onchain) in
  error r = None
  /\ tokens r = deduplicateTokens found
  /\ (tokens r = [] <-> found = [])
  /\ requests r = providerGets W query ++ snd onchain.
Proof.
  intros Hunknown Hmiss r onchain found. subst r.
  rewrite (SearchTokensExternal_computes W) by exact Hmiss.
  cbn [error tokens requests].
  assert (Hfst : fst (searchFresh L C W query) = deduplicateTokens found).
  { unfold searchFresh. rewrite Hunknown. cbn [String.eqb Ascii.eqb Bool.eqb].
    rewrite !fst_bind. cbn [ret fst]. unfold externalAPIs, searchOnchain.
    rewrite Hunknown. cbn [String.eqb Ascii.eqb Bool.eqb].
    rewrite !fst_bind. cbn [ret fst]. subst found onchain.
    rewrite <- !app_assoc. reflexivity. }
  split; [reflexivity|]. split; [exact Hfst|]. split.
  - rewrite Hfst. apply deduplicateTokens_nil.
  - unfold searchFresh. rewrite Hunknown. cbn [String.eqb Ascii.eqb Bool.eqb].
    rewrite !snd_bind. cbn [ret snd]. unfold externalAPIs, searchOnchain.
    rewrite Hunknown. cbn [String.eqb Ascii.eqb Bool.eqb].
    rewrite !snd_bind, ?fst_bind. cbn [ret snd fst]. subst onchain.
    unfold searchGeckoTerminal, searchDexScreener, searchBinance.
    rewrite !snd_bind, !snd_httpGet. cbn [ret snd]. rewrite !app_nil_r.
    unfold providerGets. rewrite <- !app_assoc. reflexivity.
Qed.

(** A call that does not answer from the cache would not at any later
    time either, the cache being the same: an entry that is absent, expired
    or empty does not come to hold tokens. *)
Lemma miss_stays_miss cache t1 t2 query :
  answersFromCache cache t1 query = false ->
  t1 <= t2 ->
  answersFromCache cache t2 query = false.
Proof.
  unfold answersFromCache, CacheService.Get. intros Hmiss Hle.
  destruct (cache !! cacheKeyOf query) as [e|]; [|reflexivity].
  destruct (Z.ltb_spec t2 (CacheService.expires e)) as [Hlive|_];
    [|reflexivity].
  destruct (Z.ltb_spec t1 (CacheService.expires e)) as [_|?]; [|lia].
  exact Hmiss.
Qed.

(** C7 (as amended). A call that computes its result writes it to the
    cache only when it is not empty, under the key of the query and for
    five minutes; an identical call made before that time has passed then
    returns the same list, leaves the cache as it is and sends no request,
    whatever the providers and the chains would answer.  After a call that
    found nothing, the cache is as it was, and an identical call made at
    that time or later searches again: it returns what the search then
    finds and sends the requests of that search. *)
Theorem cached_result_is_reused (W1 : World) cache t1 query :
  answersFromCache cache t1 query = false ->
  let r1 := SearchTokensExternal L C W1 cache t1 query in
  (tokens r1 = [] ->
   cacheAfter r1 = cache
   /\ forall (W2 : World) t2,
        t1 <= t2 ->
        let r2 := SearchTokensExternal L C W2 (cacheAfter r1) t2 query in
        tokens r2 = fst (searchFresh L C W2 query)
        /\ requests r2 = snd (searchFresh L C W2 query))
  /\ (tokens r1 <> [] ->
      cacheAfter r1
      = <[cacheKeyOf query :=
            CacheService.mkEntry (tokens r1) (t1 + 5 * Minute)]> cache
      /\ forall (W2 : World) t2,
           t2 < t1 + 5 * Minute ->
           SearchTokensExternal L C W2 (cacheAfter r1) t2 query
           = mkSearchRun (tokens r1) None (cacheAfter r1) []).
Proof.
  intros Hmiss r1. subst r1.
  rewrite (SearchTokensExternal_computes W1) by exact Hmiss.
  cbn [tokens cacheAfter].
  set (found := fst (searchFresh L C W1 query)).
  split.
  - intros ->. cbn [length Nat.ltb Nat.leb]. split; [reflexivity|].
    intros W2 t2 Hle.
    rewrite (SearchTokensExternal_computes W2)
      by (apply (miss_stays_miss cache t1 t2 query Hmiss Hle)).
    split; reflexivity.
  - intros Hne.
    assert (Hpos : (0 <? length found)%nat = true).
    { destruct found; [contradiction | reflexivity]. }
    rewrite Hpos. split; [reflexivity|].
    intros W2 t2 Ht2.
    assert (Hget : CacheService.Get
                     (CacheService.Set_ cache t1 (cacheKeyOf query)
                        found (5 * Minute))
                     t2 (cacheKeyOf query) = Some found).
    { unfold CacheService.Get, CacheService.Set_.
      rewrite lookup_insert_eq. cbn [CacheService.expires CacheService.stored].
      destruct (Z.ltb_spec t2 (t1 + 5 * Minute)); [reflexivity | lia]. }
    rewrite (SearchTokensExternal_hit W2).
    + rewrite Hget. reflexivity.
    + unfold answersFromCache. rewrite Hget. exact Hpos.
Qed.

End SearchFacts.

(** C5 (as stated) fails: the query "ZZZNOTATOKEN123456" is classified
    "unknown", yet with a pool provider that answers, the search sends
    requests and returns a token. *)
Lemma unknown_query_returns_tokens :
  let r := SearchTokensExternal Sample.deps Sample.config Sample.poolWorld ∅ 0
             Sample2.unknownQuery in
  DetectInputType Sample2.unknownQuery = "unknown"
  /\ tokens r <> [] /\ requests r <> [].
Proof. cbv zeta. split; [|split]; vm_compute; congruence. Qed.

(** C7 (as stated) fails: when the first call finds nothing, nothing is
    cached, and an identical call at the same time sends the provider and
    on-chain requests again. *)
Lemma empty_result_is_searched_again :
  let r1 := SearchTokensExternal Sample.deps Sample.config Sample.silent ∅ 0 "WETH" in
  let r2 := SearchTokensExternal Sample.deps Sample.config Sample.silent
              (cacheAfter r1) 0 "WETH" in
  tokens r1 = [] /\ cacheAfter r1 = ∅ /\ requests r2 <> [].
Proof. cbv zeta. split; [|split]; vm_compute; congruence. Qed.

(** ** Selection of the best pair *)
Section SelectionFacts.

Context (L : Deps).

Lemma GreaterThan_true (a b : Decimal) :
  decimal.GreaterThan a b = true -> (decimal.value b < decimal.value a)%Q.
Proof.
  unfold decimal.GreaterThan. rewrite negb_true_iff. intros H.
  apply Qnot_le_lt. intros Hle. apply Qle_bool_iff in Hle. congruence.
Qed.

Lemma GreaterThan_false (a b : Decimal) :
  decimal.GreaterThan a b = false -> (decimal.value a <= decimal.value b)%Q.
Proof.
  unfold decimal.GreaterThan. rewrite negb_false_iff. apply Qle_bool_iff.
Qed.

Lemma parsed_selectable (q : DexPair) (l : Decimal) :
  parsedLiquidity L q = Some l -> selectable L q = true.
Proof.
  unfold parsedLiquidity, selectable.
  destruct (String.eqb (dp_LiquidityUSD q) ""); [discriminate|].
  intros ->. apply bool_decide_eq_true_2. eauto.
Qed.

(** The state keeps its pair when the next pair does not beat it. *)
Lemma bestInv_keep address done b mx p :
  bestInv L address done (Some b, mx) ->
  (matchesToken address p = true ->
   forall l, parsedLiquidity L p = Some l ->
             (decimal.value l <= decimal.value mx)%Q) ->
  bestInv L address (done ++ [p]) (Some b, mx).
Proof.
  unfold bestInv. cbn [fst snd].
  intros (i & Hi & Hmb & Hsb & Hmx & Hall) Hp.
  exists i. split; [apply lookup_app_l_Some; exact Hi|].
  split; [exact Hmb|]. split; [exact Hsb|]. split; [exact Hmx|].
  intros j q l Hj Hmq Hl.
  apply lookup_snoc_Some in Hj as [[_ Hj]|[-> <-]].
  - eapply Hall; eassumption.
  - split; [apply Hp; assumption|].
    intros Hlt. apply lookup_lt_Some in Hi. lia.
Qed.

(** Nothing is selected as long as no matching pair is selectable. *)
Lemma bestInv_none address done mx p :
  bestInv L address done (None, mx) ->
  (matchesToken address p = true -> selectable L p = false) ->
  bestInv L address (done ++ [p]) (None, mx).
Proof.
  unfold bestInv. cbn [fst snd]. intros [Hmx Hall] Hp.
  split; [exact Hmx|]. intros q Hq Hmq.
  apply elem_of_app in Hq as [Hq|Hq].
  - apply Hall; assumption.
  - apply list_elem_of_singleton in Hq as ->. apply Hp. exact Hmq.
Qed.

(** The next pair becomes the selected one. *)
Lemma bestInv_select address done st p mx' :
  bestInv L address done st ->
  matchesToken address p = true ->
  selectable L p = true ->
  (decimal.value mx' == countedLiquidity L p)%Q ->
  (forall l, parsedLiquidity L p = Some l ->
             (decimal.value l <= decimal.value mx')%Q) ->
  (forall b, fst st = Some b ->
             (decimal.value (snd st) < decimal.value mx')%Q) ->
  bestInv L address (done ++ [p]) (Some p, mx').
Proof.
  intros Hinv Hmp Hsp Hmx Hself Hbeat. unfold bestInv. cbn [fst snd].
  exists (length done). split.
  { apply lookup_snoc_Some. right. auto. }
  split; [exact Hmp|]. split; [exact Hsp|]. split; [exact Hmx|].
  intros j q l Hj Hmq Hl.
  apply lookup_snoc_Some in Hj as [[Hlt Hj]|[-> <-]].
  - assert (Hstrict : (decimal.value l < decimal.value mx')%Q).
    { unfold bestInv in Hinv. destruct st as [[b|] mx]; cbn [fst snd] in *.
      - destruct Hinv as (i & _ & _ & _ & _ & Hall).
        destruct (Hall j q l Hj Hmq Hl) as [Hle _].
        eapply Qle_lt_trans; [exact Hle|]. apply (Hbeat b). reflexivity.
      - destruct Hinv as [_ Hall].
        apply list_elem_of_lookup_2 in Hj.
        specialize (Hall q Hj Hmq).
        rewrite (parsed_selectable q l Hl) in Hall. discriminate. }
    split; [apply Qlt_le_weak; exact Hstrict | intros _; exact Hstrict].
  - split; [apply Hself; exact Hl | intros Hlt; lia].
Qed.

Lemma bestPairStep_inv address done st p :
  bestInv L address done st ->
  bestInv L address (done ++ [p]) (bestPairStep L address st p).
Proof.
  intros Hinv. destruct st as [bp mx]. unfold bestPairStep.
  fold (matchesToken address p).
  destruct (matchesToken address p) eqn:Hm.
  2: { destruct bp as [b|].
       - apply bestInv_keep; [exact Hinv | congruence].
       - apply bestInv_none; [exact Hinv | congruence]. }
  destruct (String.eqb (dp_LiquidityUSD p) "") eqn:He; cbn [negb].
  - (* no liquidity field *)
    destruct bp as [b|]; cbn [negb bool_decide decide_rel is_Some_dec decide].
    + apply bestInv_keep; [exact Hinv|].
      intros _ l Hl. unfold parsedLiquidity in Hl. rewrite He in Hl. discriminate.
    + assert (Hmx : mx = decimal.Zero) by apply Hinv. subst mx.
      apply (bestInv_select address done (None, decimal.Zero)); try assumption.
      * unfold selectable. rewrite He. reflexivity.
      * unfold countedLiquidity, parsedLiquidity. rewrite He. reflexivity.
      * intros l Hl. unfold parsedLiquidity in Hl. rewrite He in Hl. discriminate.
      * discriminate.
  - destruct (NewFromString L (dp_LiquidityUSD p)) as [liquidity|] eqn:Hparse.
    + assert (Hpl : parsedLiquidity L p = Some liquidity).
      { unfold parsedLiquidity. rewrite He. exact Hparse. }
      assert (Hsel : selectable L p = true) by (eapply parsed_selectable; eassumption).
      assert (Hcount : (decimal.value liquidity == countedLiquidity L p)%Q).
      { unfold countedLiquidity. rewrite Hpl. reflexivity. }
      assert (Hself : forall l, parsedLiquidity L p = Some l ->
                (decimal.value l <= decimal.value liquidity)%Q).
      { intros l Hl. rewrite Hpl in Hl. injection Hl as <-. apply Qle_refl. }
      destruct bp as [b|]; cbn [negb bool_decide decide_rel is_Some_dec decide orb].
      * destruct (decimal.GreaterThan liquidity mx) eqn:Hgt.
        -- apply (bestInv_select address done (Some b, mx)); try assumption.
           intros b' _. cbn [snd]. apply GreaterThan_true. exact Hgt.
        -- apply bestInv_keep; [exact Hinv|].
           intros _ l Hl. rewrite Hpl in Hl. injection Hl as <-.
           apply GreaterThan_false. exact Hgt.
      * apply (bestInv_select address done (None, mx)); try assumption.
        discriminate.
    + destruct bp as [b|].
      * apply bestInv_keep; [exact Hinv|].
        intros _ l Hl. unfold parsedLiquidity in Hl. rewrite He, Hparse in Hl.
        discriminate.
      * apply bestInv_none; [exact Hinv|].
        intros _. unfold selectable. rewrite He, Hparse. reflexivity.
Qed.

Lemma bestPair_fold_inv address pairs :
  bestInv L address pairs
    (fold_left (bestPairStep L address) pairs (None, decimal.Zero)).
Proof.
  induction pairs as [|p done IH] using rev_ind.
  - split; [reflexivity|]. intros q Hq. apply elem_of_nil in Hq. contradiction.
  - rewrite fold_left_app. apply bestPairStep_inv. exact IH.
Qed.

Lemma selectBestPair_Some address pairs best :
  selectBestPair L address pairs = Some best ->
  exists i, pairs !! i = Some best
    /\ matchesToken address best = true
    /\ selectable L best = true
    /\ forall j q l, pairs !! j = Some q -> matchesToken address q = true ->
         parsedLiquidity L q = Some l ->
         (decimal.value l <= countedLiquidity L best)%Q
         /\ ((j < i)%nat -> (decimal.value l < countedLiquidity L best)%Q).
Proof.
  unfold selectBestPair. intros Hsel.
  pose proof (bestPair_fold_inv address pairs) as Hinv.
  unfold bestInv in Hinv. rewrite Hsel in Hinv.
  destruct Hinv as (i & Hi & Hm & Hs & Hmx & Hall).
  exists i. repeat (split; [assumption|]).
  intros j q l Hj Hmq Hl. rewrite <- Hmx. eapply Hall; eassumption.
Qed.

Lemma selectBestPair_None address pairs :
  selectBestPair L address pairs = None <->
  forall q, q ∈ pairs -> matchesToken address q = true -> selectable L q = false.
Proof.
  unfold selectBestPair.
  pose proof (bestPair_fold_inv address pairs) as Hinv.
  unfold bestInv in Hinv. split.
  - intros Hsel. rewrite Hsel in Hinv. apply Hinv.
  - intros Hnone.
    destruct (fst (fold_left (bestPairStep L address) pairs (None, decimal.Zero)))
      as [b|]; [|reflexivity].
    destruct Hinv as (i & Hi & Hm & Hs & _).
    apply list_elem_of_lookup_2 in Hi.
    rewrite (Hnone b Hi Hm) in Hs. discriminate.
Qed.

End SelectionFacts.

(** ** Enrichment from the DEX-pair provider *)
Section DexEnrichmentFacts.

Context (L : Deps) (W : World).

(** The step once the response has reached the selection: status 200,
    a body of at least 200 bytes, decoded to [pairs]. *)
Lemma enhanceFromDexScreener_selects now token n pairs :
  DexTokens W (tokenPairsURL token) = Response 200 (Some (n, Some pairs)) ->
  (200 <= n)%nat ->
  fst (enhanceFromDexScreener L W now token)
  = match selectBestPair L (Address token) pairs with
    | None => Returned (false, token)
    | Some bestPair =>
        Returned (true,
                  set_Source "dexscreener_enhanced"
                    (parseAndSetMarketData L now token
                       (dp_PriceUsd bestPair) (dp_VolumeH24 bestPair)
                       (dp_MarketCap bestPair) (dp_PriceChangeH24 bestPair)))
    end.
Proof.
  intros Hresp Hn. unfold enhanceFromDexScreener. fold (tokenPairsURL token).
  rewrite fst_bind. rewrite ?fst_httpGet. cbn [send fst ret]. rewrite Hresp.
  cbn [Z.eqb Pos.eqb negb]. unfold first200.
  destruct (Nat.leb_spec 200 n) as [_|?]; [|lia]. cbn [negb].
  destruct pairs as [|p pairs]; reflexivity.
Qed.

Lemma positive_guard_invalid {A} (s : string) (f : Decimal -> A) (x : A) :
  positiveField L s = false ->
  (if negb (String.eqb s "") && negb (String.eqb s "0")
      && negb (String.eqb s "null")
   then match NewFromString L s with
        | Some p => if decimal.IsPositive p then f p else x
        | None => x
        end
   else x) = x.
Proof.
  unfold positiveField.
  destruct (negb (String.eqb s "") && negb (String.eqb s "0")
            && negb (String.eqb s "null")); [|reflexivity].
  destruct (NewFromString L s) as [p|]; [|reflexivity].
  cbn [andb]. intros ->. reflexivity.
Qed.

Lemma decimal_guard_invalid {A} (s : string) (f : Decimal -> A) (x : A) :
  decimalField L s = false ->
  (if negb (String.eqb s "") && negb (String.eqb s "null")
   then match NewFromString L s with
        | Some p => f p
        | None => x
        end
   else x) = x.
Proof.
  unfold decimalField.
  destruct (negb (String.eqb s "") && negb (String.eqb s "null")); [|reflexivity].
  destruct (NewFromString L s) as [p|]; [|reflexivity].
  cbn [andb]. intros H. apply bool_decide_eq_false in H.
  exfalso. apply H. eauto.
Qed.

(** With no valid field, only the time stamp is written. *)
Lemma parseAndSetMarketData_noValid now token priceUsd volume24h marketCap change :
  positiveField L priceUsd = false ->
  positiveField L volume24h = false ->
  positiveField L marketCap = false ->
  decimalField L change = false ->
  parseAndSetMarketData L now token priceUsd volume24h marketCap change
  = set_LastUpdated now token.
Proof.
  intros Hp Hv Hm Hc. unfold parseAndSetMarketData. cbv zeta.
  rewrite (positive_guard_invalid priceUsd (fun p => set_PriceUSD p token))
    by exact Hp.
  rewrite (positive_guard_invalid volume24h (fun p => set_Volume24h p token))
    by exact Hv.
  rewrite (positive_guard_invalid marketCap (fun p => set_MarketCap p token))
    by exact Hm.
  rewrite (decimal_guard_invalid change (fun p => set_Change24h p token))
    by exact Hc.
  reflexivity.
Qed.

End DexEnrichmentFacts.

(** C6 (as amended). The pair selected among the returned pairs has a base
    token equal to the token's address up to case and a liquidity field that
    is empty or parses.  No matching pair has a parsed liquidity above the
    liquidity the selected pair counts for, an empty field counting for zero,
    and every matching pair before it in source order has a parsed liquidity
    strictly below: of equal liquidities the earlier is kept.  If no pair's
    base token matches, no pair is selected and, for a response that reaches
    the selection, the step reports failure and leaves the token as it
    was. *)
Theorem best_pair_is_first_largest (L : Deps) (W : World) (now : Z)
    (token : Token) (n : nat) (pairs : list DexPair) :
  (forall best, selectBestPair L (Address token) pairs = Some best ->
     exists i, pairs !! i = Some best
       /\ matchesToken (Address token) best = true
       /\ selectable L best = true
       /\ forall j q l, pairs !! j = Some q ->
            matchesToken (Address token) q = true ->
            parsedLiquidity L q = Some l ->
            (decimal.value l <= countedLiquidity L best)%Q
            /\ ((j < i)%nat -> (decimal.value l < countedLiquidity L best)%Q))
  /\ ((forall q, q ∈ pairs -> matchesToken (Address token) q = false) ->
      selectBestPair L (Address token) pairs = None
      /\ (DexTokens W (tokenPairsURL token) = Response 200 (Some (n, Some pairs)) ->
          (200 <= n)%nat ->
          fst (enhanceFromDexScreener L W now token) = Returned (false, token))).
Proof.
  split.
  - intros best Hbest. apply selectBestPair_Some. exact Hbest.
  - intros Hnone.
    assert (Hsel : selectBestPair L (Address token) pairs = None).
    { apply selectBestPair_None. intros q Hq Hm.
      rewrite (Hnone q Hq) in Hm. discriminate. }
    split; [exact Hsel|]. intros Hresp Hn.
    rewrite (enhanceFromDexScreener_selects L W now token n pairs Hresp Hn), Hsel.
    reflexivity.
Qed.

(** C6 (as stated) fails: of two matching pairs, the first without a
    liquidity field and the second with the liquidity "0", the first is
    selected, and it has no parsed liquidity.  Counting an empty field for
    zero does not save the statement: of a pair with the liquidity "-5"
    followed by a pair without a liquidity field, the first is selected. *)
Lemma pair_without_liquidity_is_selected :
  ~ selectsLargestParsed Sample.deps (Address Sample.usdcToken)
      [Sample.pair Sample.usdc "" "1"; Sample.pair Sample.usdc "0" "2"]
  /\ ~ selectsLargestCounted Sample.deps (Address Sample.usdcToken)
         [Sample.pair Sample.usdc "-5" "1"; Sample.pair Sample.usdc "" "2"].
Proof.
  split; intros H.
  - destruct (H (Sample.pair Sample.usdc "" "1")) as [_ (l & Hl & _)].
    + vm_compute. reflexivity.
    + vm_compute in Hl. discriminate.
  - destruct (H (Sample.pair Sample.usdc "-5" "1")) as [_ Hmax].
    + vm_compute. reflexivity.
    + specialize (Hmax (Sample.pair Sample.usdc "" "2")).
      assert (Hle : (countedLiquidity Sample.deps (Sample.pair Sample.usdc "" "2")
                     <= countedLiquidity Sample.deps (Sample.pair Sample.usdc "-5" "1"))%Q).
      { apply Hmax; [right; left | vm_compute; reflexivity | vm_compute; reflexivity]. }
      vm_compute in Hle. apply Hle. reflexivity.
Qed.

(** C10 (as amended). If the response reaches the selection and holds a
    pair whose base token matches and whose liquidity field is empty or
    parses, the step reports success: the source becomes
    "dexscreener_enhanced" and the time stamp is written; when every numeric
    field of the selected pair fails validation, nothing else is written and
    price, volume, market cap and 24h change are left as they were.  The
    pool provider likewise marks the sample token "geckoterminal_enhanced"
    on an answer that carries a name and no market figure. *)
Theorem matching_pair_marks_enhanced (L : Deps) (W : World) (now : Z)
    (token : Token) (n : nat) (pairs : list DexPair) :
  DexTokens W (tokenPairsURL token) = Response 200 (Some (n, Some pairs)) ->
  (200 <= n)%nat ->
  (exists p, p ∈ pairs /\ matchesToken (Address token) p = true
             /\ selectable L p = true) ->
  exists best token',
    selectBestPair L (Address token) pairs = Some best
    /\ fst (enhanceFromDexScreener L W now token) = Returned (true, token')
    /\ Source token' = "dexscreener_enhanced"
    /\ LastUpdated token' = now
    /\ (noValidField L best ->
        token' = set_Source "dexscreener_enhanced" (set_LastUpdated now token)
        /\ PriceUSD token' = PriceUSD token
        /\ Volume24h token' = Volume24h token
        /\ MarketCap token' = MarketCap token
        /\ Change24h token' = Change24h token)
    /\ fst (enhanceFromGeckoTerminal Sample.deps Sample3.nameOnlyWorld now
              Sample.usdcToken)
       = Returned (true, set_Source "geckoterminal_enhanced"
                           (set_LastUpdated now Sample.usdcToken)).
Proof.
  intros Hresp Hn (p & Hp & Hm & Hs).
  destruct (selectBestPair L (Address token) pairs) as [best|] eqn:Hsel.
  2: { exfalso.
       pose proof (proj1 (selectBestPair_None L (Address token) pairs) Hsel p Hp Hm).
       congruence. }
  exists best. eexists. split; [reflexivity|].
  rewrite (enhanceFromDexScreener_selects L W now token n pairs Hresp Hn), Hsel.
  split; [reflexivity|]. split; [reflexivity|]. split; [reflexivity|].
  split; [|reflexivity].
  intros (H1 & H2 & H3 & H4).
  rewrite (parseAndSetMarketData_noValid L now token _ _ _ _ H1 H2 H3 H4).
  repeat split; reflexivity.
Qed.

(** C10 (as stated) fails: a matching pair whose liquidity field is not a
    decimal is passed over, and with no other pair the step reports
    failure. *)
Lemma unparsable_liquidity_reports_failure :
  let pairs := [Sample.pair Sample.usdc "abc" "1"] in
  (exists p, p ∈ pairs /\ matchesToken (Address Sample.usdcToken) p = true)
  /\ fst (enhanceFromDexScreener Sample.deps (Sample.pairsWorld 400 pairs) 0
            Sample.usdcToken)
     = Returned (false, Sample.usdcToken).
Proof.
  cbv zeta. split.
  - eexists. split; [left | vm_compute; reflexivity].
  - vm_compute. reflexivity.
Qed.

(** ** The theorems at sample inputs *)

Lemma deduplicateTokens_keeps_best_sample :
  deduplicateTokens_returns Sample.collidingTokens
    (deduplicateTokens Sample.collidingTokens)
  /\ NoDup (keyOf <$> deduplicateTokens Sample.collidingTokens)
  /\ (forall r, r ∈ deduplicateTokens Sample.collidingTokens ->
        r ∈ Sample.collidingTokens
        /\ forall t, t ∈ Sample.collidingTokens -> keyOf t = keyOf r ->
             getSourcePriority (Source t) <= getSourcePriority (Source r)).
Proof.
  split; [apply Permutation_refl|].
  destruct (deduplicateTokens_keeps_best Sample.collidingTokens
              (deduplicateTokens Sample.collidingTokens)
              (Permutation_refl _)) as (H1 & _ & _ & H3 & _).
  split; [exact H1 | exact H3].
Defined.

Lemma unknown_query_is_searched_sample :
  let r := SearchTokensExternal Sample.deps Sample.config Sample.poolWorld ∅ 0
             Sample2.unknownQuery in
  DetectInputType Sample2.unknownQuery = "unknown"
  /\ answersFromCache ∅ 0 Sample2.unknownQuery = false
  /\ error r = None
  /\ (tokens r = [] <->
      fst (searchGeckoTerminal Sample.config Sample.poolWorld Sample2.unknownQuery)
      ++ fst (searchDexScreener Sample.config Sample.poolWorld Sample2.unknownQuery)
      ++ fst (searchBinance Sample.config Sample.poolWorld Sample2.unknownQuery)
      ++ omap id (fst (forEach
                         (symbolTask Sample.deps Sample.config Sample.poolWorld
                            (GoStrings.ToUpper Sample2.unknownQuery))
                         (activeChainIDs Sample.config))) = []).
Proof.
  cbv zeta.
  assert (H1 : DetectInputType Sample2.unknownQuery = "unknown")
    by (vm_compute; reflexivity).
  assert (H2 : answersFromCache ∅ 0 Sample2.unknownQuery = false)
    by (vm_compute; reflexivity).
  destruct (unknown_query_is_searched Sample.deps Sample.config Sample.poolWorld
              ∅ 0 Sample2.unknownQuery H1 H2) as (E & _ & N & _).
  split; [exact H1|]. split; [exact H2|]. split; [exact E | exact N].
Defined.

Lemma best_pair_is_first_largest_sample :
  let best := Sample.pair Sample.usdc "120" "1" in
  selectBestPair Sample.deps (Address Sample.usdcToken) Sample3.pairs = Some best
  /\ exists i, Sample3.pairs !! i = Some best
       /\ matchesToken (Address Sample.usdcToken) best = true
       /\ selectable Sample.deps best = true.
Proof.
  cbv zeta.
  assert (H : selectBestPair Sample.deps (Address Sample.usdcToken) Sample3.pairs
              = Some (Sample.pair Sample.usdc "120" "1"))
    by (vm_compute; reflexivity).
  split; [exact H|].
  destruct (proj1 (best_pair_is_first_largest Sample.deps Sample.silent 0
                     Sample.usdcToken 0 Sample3.pairs) _ H)
    as (i & Hi & Hm & Hs & _).
  exists i. split; [exact Hi|]. split; [exact Hm | exact Hs].
Defined.

Lemma cached_result_is_reused_sample :
  let r1 := SearchTokensExternal Sample.deps Sample.config Sample.poolWorld ∅ 0
              "weth" in
  answersFromCache ∅ 0 "weth" = false
  /\ tokens r1 <> []
  /\ forall (W2 : World) t2,
       t2 < 0 + 5 * Minute ->
       SearchTokensExternal Sample.deps Sample.config W2 (cacheAfter r1) t2 "weth"
       = mkSearchRun (tokens r1) None (cacheAfter r1) [].
Proof.
  cbv zeta.
  assert (H : answersFromCache ∅ 0 "weth" = false) by (vm_compute; reflexivity).
  assert (Hne : tokens (SearchTokensExternal Sample.deps Sample.config
                          Sample.poolWorld ∅ 0 "weth") <> [])
    by (vm_compute; congruence).
  split; [exact H|]. split; [exact Hne|].
  destruct (cached_result_is_reused Sample.deps Sample.config Sample.poolWorld
              ∅ 0 "weth" H) as [_ Hreuse].
  exact (proj2 (Hreuse Hne)).
Defined.

Lemma matching_pair_marks_enhanced_sample :
  let W := Sample.pairsWorld 400 Sample3.invalidPairs in
  DexTokens W (tokenPairsURL Sample.usdcToken)
  = Response 200 (Some (400%nat, Some Sample3.invalidPairs))
  /\ (200 <= 400)%nat
  /\ (exists p, p ∈ Sample3.invalidPairs
                /\ matchesToken (Address Sample.usdcToken) p = true
                /\ selectable Sample.deps p = true)
  /\ exists token',
       fst (enhanceFromDexScreener Sample.deps W 7 Sample.usdcToken)
       = Returned (true, token')
       /\ Source token' = "dexscreener_enhanced"
       /\ LastUpdated token' = 7.
Proof.
  cbv zeta.
  assert (H1 : DexTokens (Sample.pairsWorld 400 Sample3.invalidPairs)
                 (tokenPairsURL Sample.usdcToken)
               = Response 200 (Some (400%nat, Some Sample3.invalidPairs)))
    by reflexivity.
  assert (H2 : (200 <= 400)%nat) by lia.
  assert (H3 : exists p, p ∈ Sample3.invalidPairs
                 /\ matchesToken (Address Sample.usdcToken) p = true
                 /\ selectable Sample.deps p = true).
  { exists (Sample.pair Sample.usdc "120" "abc").
    split; [left|]. split; vm_compute; reflexivity. }
  split; [exact H1|]. split; [exact H2|]. split; [exact H3|].
  destruct (matching_pair_marks_enhanced Sample.deps
              (Sample.pairsWorld 400 Sample3.invalidPairs) 7 Sample.usdcToken
              400 Sample3.invalidPairs H1 H2 H3)
    as (best & token' & _ & Hr & Hs & Ht & _).
  exists token'. split; [exact Hr|]. split; [exact Hs | exact Ht].
Defined.

Lemma decimals_default_and_string_failure_sample :
  let C := Sample.config in
  let rpc := "https://eth.example/rpc" in
  let W := Sample.erc20World (Sample.word 200) in
  GetActiveChains C !! 1 = Some (mkChainConfig rpc true)
  /\ DialContext W rpc = true
  /\ decimalsCallFails W rpc Sample.usdc
  /\ decimalsWordFits W rpc Sample.usdc
  /\ fst (getTokenInfoFromContract Sample.deps C W Sample.usdc 1)
     = Ok (mkTokenInfo "USDC" "USD Coin" 18)
  /\ stringCallFails Sample.deps Sample.silent rpc Sample.usdc symbolSignature
  /\ fst (verifyTokenOnchain Sample.deps C
            {| GeckoSearch := GeckoSearch Sample.silent;
               DexSearch := DexSearch Sample.silent;
               BinanceTickers := BinanceTickers Sample.silent;
               DexTokens := DexTokens Sample.silent;
               GeckoToken := GeckoToken Sample.silent;
               DialContext := fun _ => true;
               CallContract := CallContract Sample.silent |}
            Sample.usdc 1) = None.
Proof.
  cbv zeta.
  assert (Hchain : GetActiveChains Sample.config !! 1
                   = Some (mkChainConfig "https://eth.example/rpc" true))
    by (vm_compute; reflexivity).
  assert (Hdial : DialContext (Sample.erc20World (Sample.word 200))
                    (RpcURL (mkChainConfig "https://eth.example/rpc" true)) = true)
    by reflexivity.
  assert (Hdec : decimalsCallFails (Sample.erc20World (Sample.word 200))
                   "https://eth.example/rpc" Sample.usdc).
  { unfold decimalsCallFails. simpl. right. vm_compute. reflexivity. }
  assert (Hfits : decimalsWordFits (Sample.erc20World (Sample.word 200))
                    "https://eth.example/rpc" Sample.usdc).
  { unfold decimalsWordFits. simpl. intros _.
    split; [reflexivity | vm_compute; reflexivity]. }
  assert (Hsym : stringCallGives Sample.deps (Sample.erc20World (Sample.word 200))
                   "https://eth.example/rpc" Sample.usdc symbolSignature "USDC").
  { eexists. split; [reflexivity|]. split; [simpl; lia | vm_compute; reflexivity]. }
  assert (Hname : stringCallGives Sample.deps (Sample.erc20World (Sample.word 200))
                    "https://eth.example/rpc" Sample.usdc nameSignature "USD Coin").
  { eexists. split; [reflexivity|]. split; [simpl; lia | vm_compute; reflexivity]. }
  assert (Hfail : stringCallFails Sample.deps Sample.silent
                    "https://eth.example/rpc" Sample.usdc symbolSignature)
    by exact I.
  split; [exact Hchain|]. split; [exact Hdial|]. split; [exact Hdec|].
  split; [exact Hfits|]. split.
  - exact (proj1 (proj1 (decimals_default_and_string_failure Sample.deps
                           Sample.config (Sample.erc20World (Sample.word 200))
                           Sample.usdc 1 _ Hchain Hdial)
                    "USDC" "USD Coin" Hsym Hname Hdec Hfits)).
  - split; [exact Hfail|].
    exact (proj2 (proj2 (decimals_default_and_string_failure Sample.deps
                           Sample.config
                           {| GeckoSearch := GeckoSearch Sample.silent;
                              DexSearch := DexSearch Sample.silent;
                              BinanceTickers := BinanceTickers Sample.silent;
                              DexTokens := DexTokens Sample.silent;
                              GeckoToken := GeckoToken Sample.silent;
                              DialContext := fun _ => true;
                              CallContract := CallContract Sample.silent |}
                           Sample.usdc 1 _ Hchain eq_refl)
                    (or_introl Hfail))).
Defined.


(** * Further properties *)

(** ** De-duplication: ties, lists without collisions, repeated lists *)
Module DedupMore.

Lemma dedupSeen_first (tokens : list Token) : seenFirst tokens (dedupSeen tokens).
Proof.
  induction tokens as [|t l IH] using rev_ind.
  - intros k r Hk. unfold dedupSeen in Hk. simpl in Hk.
    rewrite lookup_empty in Hk. discriminate.
  - rewrite DedupFacts.dedupSeen_snoc.
    destruct (DedupFacts.dedupSeen_inv l) as [I1 I2].
    set (seen := dedupSeen l) in *. unfold dedupStep. fold (strKey t).
    intros k r.
    destruct (seen !! strKey t) as [existing|] eqn:Hlook.
    + destruct (Z.gtb_spec (getSourcePriority (Source t))
                           (getSourcePriority (Source existing))) as [Hgt|Hle].
      * destruct (decide (strKey t = k)) as [<-|Hne].
        -- rewrite lookup_insert_eq. intros [= <-].
           exists (length l). split; [apply lookup_snoc_Some; auto|].
           intros j t' Hj Hkey.
           apply lookup_snoc_Some in Hj as [[Hlt Hj]|[-> <-]]; [|lia].
           destruct (IH _ _ Hlook) as (i0 & _ & Hall).
           destruct (Hall j t' Hj Hkey) as [Hp _]. lia.
        -- rewrite lookup_insert_ne by assumption. intros Hk.
           destruct (IH _ _ Hk) as (i & Hi & Hall).
           exists i. split; [apply lookup_app_l_Some; exact Hi|].
           intros j t' Hj Hkey.
           apply lookup_snoc_Some in Hj as [[_ Hj]|[_ <-]]; [eauto | congruence].
      * intros Hk. destruct (IH _ _ Hk) as (i & Hi & Hall).
        exists i. split; [apply lookup_app_l_Some; exact Hi|].
        intros j t' Hj Hkey.
        apply lookup_snoc_Some in Hj as [[_ Hj]|[-> <-]]; [eauto|].
        rewrite Hkey, Hk in Hlook. injection Hlook as <-.
        split; [lia|]. apply lookup_lt_Some in Hi. lia.
    + destruct (decide (strKey t = k)) as [<-|Hne].
      * rewrite lookup_insert_eq. intros [= <-].
        exists (length l). split; [apply lookup_snoc_Some; auto|].
        intros j t' Hj Hkey.
        apply lookup_snoc_Some in Hj as [[Hlt Hj]|[-> <-]]; [|lia].
        apply list_elem_of_lookup_2 in Hj.
        destruct (I2 t' Hj) as (r' & Hr' & _). congruence.
      * rewrite lookup_insert_ne by assumption. intros Hk.
        destruct (IH _ _ Hk) as (i & Hi & Hall).
        exists i. split; [apply lookup_app_l_Some; exact Hi|].
        intros j t' Hj Hkey.
        apply lookup_snoc_Some in Hj as [[_ Hj]|[_ <-]]; [eauto | congruence].
Qed.

(** Reading again records that are already covered leaves the map as it
    is. *)
Lemma fold_dedupStep_covered (extra : list Token) (seen : gmap string Token) :
  (forall t, t ∈ extra ->
     exists r, seen !! strKey t = Some r
               /\ getSourcePriority (Source t) <= getSourcePriority (Source r)) ->
  fold_left dedupStep extra seen = seen.
Proof.
  induction extra as [|t extra IH]; intros Hcov; [reflexivity|].
  cbn [fold_left].
  assert (Hstep : dedupStep seen t = seen).
  { destruct (Hcov t) as (r & Hr & Hp); [left|].
    unfold dedupStep. fold (strKey t). rewrite Hr.
    destruct (Z.gtb_spec (getSourcePriority (Source t))
                         (getSourcePriority (Source r))); [lia | reflexivity]. }
  rewrite Hstep. apply IH. intros t' Ht'. apply Hcov. right. exact Ht'.
Qed.

Lemma deduplicateTokens_twice (l : list Token) :
  deduplicateTokens (l ++ l) = deduplicateTokens l.
Proof.
  unfold deduplicateTokens, dedupSeen. rewrite fold_left_app.
  fold (dedupSeen l). rewrite fold_dedupStep_covered; [reflexivity|].
  apply (DedupFacts.dedupSeen_inv l).
Qed.

Lemma dedupSeen_fresh (l : list Token) (t : Token) :
  keyOf t ∉ keyOf <$> l -> dedupSeen l !! strKey t = None.
Proof.
  intros Hfresh.
  destruct (dedupSeen l !! strKey t) as [r|] eqn:Hr; [|reflexivity].
  exfalso. apply Hfresh.
  destruct (DedupFacts.dedupSeen_inv l) as [I1 _].
  destruct (I1 _ _ Hr) as [Hin Hkey].
  apply KeyFacts.tokenKey_keyOf in Hkey. rewrite <- Hkey.
  apply list_elem_of_fmap. eauto.
Qed.

Lemma deduplicateTokens_NoDup_keys (l : list Token) :
  NoDup (keyOf <$> l) -> Permutation (deduplicateTokens l) l.
Proof.
  induction l as [|t l IH] using rev_ind; intros Hnd.
  - unfold deduplicateTokens, dedupSeen. simpl.
    rewrite map_to_list_empty. reflexivity.
  - rewrite fmap_app in Hnd. apply NoDup_app in Hnd as (Hnd & Hdisj & _).
    assert (Hfresh : keyOf t ∉ keyOf <$> l).
    { intros Hin. apply (Hdisj _ Hin). left. }
    unfold deduplicateTokens. rewrite DedupFacts.dedupSeen_snoc.
    unfold dedupStep. fold (strKey t). rewrite (dedupSeen_fresh l t Hfresh).
    rewrite map_to_list_insert by (apply dedupSeen_fresh; exact Hfresh).
    cbn [fmap list_fmap snd]. fold (deduplicateTokens l).
    rewrite (IH Hnd). apply Permutation_cons_append.
Qed.

End DedupMore.

(** X1. Among the records of one key the loop keeps the first of maximal
    priority: every record of the same key that comes earlier in the input
    has a strictly lower priority than the one kept. *)
Theorem deduplicateTokens_ties_keep_first (tokens result : list Token) (r : Token) :
  deduplicateTokens_returns tokens result ->
  r ∈ result ->
  exists i, tokens !! i = Some r
    /\ forall j t, (j < i)%nat -> tokens !! j = Some t -> keyOf t = keyOf r ->
         getSourcePriority (Source t) < getSourcePriority (Source r).
Proof.
  intros Hperm Hr. unfold deduplicateTokens_returns in Hperm.
  rewrite Hperm in Hr.
  apply DedupFacts.elem_of_deduplicateTokens in Hr as (k & Hk).
  destruct (DedupFacts.dedupSeen_inv tokens) as [I1 _].
  destruct (I1 _ _ Hk) as [_ Hkey].
  destruct (DedupMore.dedupSeen_first tokens k r Hk) as (i & Hi & Hall).
  exists i. split; [exact Hi|].
  intros j t Hlt Hj Heq. apply (Hall j t Hj); [|exact Hlt].
  rewrite <- Hkey. apply KeyFacts.tokenKey_keyOf. exact Heq.
Qed.

(** X2. A list whose keys are pairwise distinct comes back whole, in some
    order; so de-duplicating a de-duplicated list changes nothing but,
    possibly, the order. *)
Theorem deduplicateTokens_idempotent (tokens result result' : list Token) :
  deduplicateTokens_returns tokens result ->
  deduplicateTokens_returns result result' ->
  Permutation result' result.
Proof.
  unfold deduplicateTokens_returns. intros H1 H2. rewrite H2.
  apply DedupMore.deduplicateTokens_NoDup_keys.
  rewrite H1. apply DedupFacts.NoDup_keys_deduplicateTokens.
Qed.

(** ** On-chain verification: what a token looks like, what is sent *)
Section OnchainMore.

Context (L : Deps) (C : Config) (W : World).

Lemma ToUpper_nonempty (s : string) : s <> "" -> GoStrings.ToUpper s <> "".
Proof. destruct s; [congruence | discriminate]. Qed.

Lemma verifyTokenOnchain_inv address chainID token :
  fst (verifyTokenOnchain L C W address chainID) = Some token ->
  exists chain' info,
    GetChainByID C chainID = Some chain' /\ RpcURL chain' <> ""
    /\ fst (getTokenInfoFromContract L C W address chainID) = Ok info
    /\ ti_Symbol info <> "" /\ ti_Name info <> ""
    /\ token = newToken (GoStrings.ToLower address)
                 (GoStrings.ToUpper (ti_Symbol info)) (ti_Name info) chainID
                 (ti_Decimals info) "onchain" true false.
Proof.
  unfold verifyTokenOnchain.
  destruct (GetChainByID C chainID) as [chain'|]; [|discriminate].
  destruct (String.eqb_spec (RpcURL chain') "") as [|Hrpc]; [discriminate|].
  rewrite fst_bind. cbn [ret fst].
  destruct (fst (getTokenInfoFromContract L C W address chainID))
    as [info|msg]; [|discriminate].
  destruct (String.eqb_spec (ti_Symbol info) "") as [|Hs]; [discriminate|].
  destruct (String.eqb_spec (ti_Name info) "") as [|Hn]; [discriminate|].
  cbn [orb]. intros [= <-]. exists chain', info. auto 10.
Qed.

Lemma getTokenInfoFromContract_chain address chainID info :
  fst (getTokenInfoFromContract L C W address chainID) = Ok info ->
  exists chain, GetActiveChains C !! chainID = Some chain
                /\ DialContext W (RpcURL chain) = true.
Proof.
  unfold getTokenInfoFromContract.
  destruct (GetActiveChains C !! chainID) as [chain|]; [|discriminate].
  rewrite fst_bind. cbn [send fst].
  destruct (DialContext W (RpcURL chain)) eqn:Hdial; cbn [negb]; [|discriminate].
  intros _. eauto.
Qed.

(** X3. A token that the on-chain verification returns carries the queried
    address lower-cased and the chain asked for, is tagged "onchain",
    verified and not popular, has a non-empty symbol and a non-empty name,
    and decimals between 0 and 77; its chain is among the active chains, with
    an endpoint that could be dialled, and has a non-empty endpoint in the
    chain configuration. *)
Theorem verifyTokenOnchain_token address chainID token :
  fst (verifyTokenOnchain L C W address chainID) = Some token ->
  Address token = GoStrings.ToLower address
  /\ ChainID token = chainID
  /\ Source token = "onchain" /\ Verified token = true /\ Popular token = false
  /\ Symbol token <> "" /\ Name token <> ""
  /\ 0 <= Decimals token <= 77
  /\ (exists chain, GetActiveChains C !! chainID = Some chain
                    /\ DialContext W (RpcURL chain) = true)
  /\ (exists chain', GetChainByID C chainID = Some chain' /\ RpcURL chain' <> "").
Proof.
  intros H.
  apply verifyTokenOnchain_inv in H
    as (chain' & info & Hby & Hrpc & Hinfo & Hs & Hn & ->).
  cbn [newToken Address ChainID Source Verified Popular Symbol Name Decimals].
  repeat (split; [reflexivity|]).
  split; [apply ToUpper_nonempty; exact Hs|]. split; [exact Hn|].
  split; [eapply getTokenInfoFromContract_range; exact Hinfo|].
  split; [eapply getTokenInfoFromContract_chain; exact Hinfo | eauto].
Qed.

Lemma addressTask_token address cID token :
  fst (addressTask L C W address cID) = Some token ->
  ChainID token = cID /\ Address token = GoStrings.ToLower address
  /\ Source token = "onchain"
  /\ is_Some (GetActiveChains C !! cID).
Proof.
  unfold addressTask. rewrite fst_bind.
  destruct (fst (quickTokenCheck L C W address cID)); cbn [negb]; [|discriminate].
  rewrite fst_bind. cbn [ret fst].
  destruct (fst (verifyTokenOnchain L C W address cID)) as [t|] eqn:Hv;
    [|discriminate].
  apply verifyTokenOnchain_inv in Hv
    as (chain' & info & _ & _ & Hinfo & _ & _ & ->).
  apply getTokenInfoFromContract_chain in Hinfo as (chain & Hchain & _).
  destruct (GetPopularTokenMetadata C address cID); intros [= <-];
    rewrite Hchain; simpl; eauto.
Qed.

Lemma symbolTask_token queryUpper cID token :
  fst (symbolTask L C W queryUpper cID) = Some token ->
  ChainID token = cID /\ Source token = "onchain" /\ Popular token = true
  /\ exists address, GetPopularTokens C cID !! queryUpper = Some address
                     /\ Address token = GoStrings.ToLower address.
Proof.
  unfold symbolTask.
  destruct (GetPopularTokens C cID !! queryUpper) as [address|]; [|discriminate].
  rewrite fst_bind. cbn [ret fst].
  destruct (fst (verifyTokenOnchain L C W address cID)) as [t|] eqn:Hv;
    [|discriminate].
  apply verifyTokenOnchain_inv in Hv as (chain' & info & _ & _ & _ & _ & _ & ->).
  intros [= <-]. simpl. eauto 10.
Qed.

Lemma omap_id_elem {A} (f : A -> option Token) (l : list A) (t : Token) :
  t ∈ omap id (map f l) -> exists a, a ∈ l /\ f a = Some t.
Proof.
  induction l as [|a l IH]; cbn [map omap].
  - intros H. apply elem_of_nil in H. contradiction.
  - unfold id at 1. destruct (f a) as [t'|] eqn:Hf.
    + intros H. apply elem_of_cons in H as [->|H].
      * exists a. split; [left | exact Hf].
      * destruct (IH H) as (a' & Ha' & Hf'). exists a'. split; [right|]; assumption.
    + intros H. destruct (IH H) as (a' & Ha' & Hf').
      exists a'. split; [right|]; assumption.
Qed.

Lemma omap_id_NoDup {A} (f : A -> option Token) (g : Token -> A) (l : list A) :
  NoDup l -> (forall a t, f a = Some t -> g t = a) ->
  NoDup (g <$> omap id (map f l)).
Proof.
  intros Hnd Hg. induction Hnd as [|a l Hnotin Hnd IH]; [constructor|].
  cbn [map omap]. unfold id at 1. destruct (f a) as [t|] eqn:Hf; [|exact IH].
  cbn [fmap list_fmap]. constructor; [|exact IH].
  intros Hin. apply list_elem_of_fmap in Hin as (t' & Heq & Hin).
  apply omap_id_elem in Hin as (a' & Ha' & Hf').
  apply Hnotin. rewrite <- (Hg _ _ Hf), Heq, (Hg _ _ Hf'). exact Ha'.
Qed.

Lemma omap_id_length {A} (f : A -> option Token) (l : list A) :
  (length (omap id (map f l)) <= length l)%nat.
Proof.
  induction l as [|a l IH]; [reflexivity|].
  simpl. destruct (f a); simpl; [apply le_n_S | apply le_S]; exact IH.
Qed.

Lemma activeChainIDs_NoDup : NoDup (activeChainIDs C).
Proof. apply NoDup_fst_map_to_list. Qed.

Lemma activeChainIDs_length : length (activeChainIDs C) = size (GetActiveChains C).
Proof. unfold activeChainIDs. rewrite length_fmap. apply length_map_to_list. Qed.

Lemma activeChainIDs_elem (cID : Z) :
  cID ∈ activeChainIDs C <-> is_Some (GetActiveChains C !! cID).
Proof.
  unfold activeChainIDs. rewrite list_elem_of_fmap. split.
  - intros ([c chain] & -> & Hin). apply elem_of_map_to_list in Hin. eauto.
  - intros [chain Hc]. exists (cID, chain). split; [reflexivity|].
    apply elem_of_map_to_list. exact Hc.
Qed.

(** X4. The on-chain search returns at most one token per active chain:
    the chain IDs of its tokens are pairwise distinct active chains, every
    token is tagged "onchain", and there are no more tokens than active
    chains.  For an address query each token carries the query lower-cased;
    otherwise each token is marked popular and carries, lower-cased, the
    address that the popular-token table of its chain gives for the
    upper-cased query. *)
Theorem searchOnchain_one_token_per_chain (query : string) :
  let found := fst (searchOnchain L C W query) in
  NoDup (ChainID <$> found)
  /\ (length found <= size (GetActiveChains C))%nat
  /\ Forall (fun t =>
       Source t = "onchain"
       /\ is_Some (GetActiveChains C !! ChainID t)
       /\ if String.eqb (DetectInputType query) "address"
          then Address t = GoStrings.ToLower query
          else Popular t = true
               /\ exists address,
                    GetPopularTokens C (ChainID t) !! GoStrings.ToUpper query
                    = Some address
                    /\ Address t = GoStrings.ToLower address) found.
Proof.
  cbv zeta. unfold searchOnchain.
  destruct (String.eqb (DetectInputType query) "address").
  - unfold searchByAddressOptimized. rewrite fst_bind. cbn [ret fst].
    rewrite fst_forEach. split; [|split].
    + apply omap_id_NoDup; [apply activeChainIDs_NoDup|].
      intros a t Ht. apply addressTask_token in Ht. tauto.
    + rewrite <- activeChainIDs_length. apply omap_id_length.
    + apply Forall_forall. intros t Ht.
      apply omap_id_elem in Ht as (cID & _ & Ht).
      apply addressTask_token in Ht as (<- & Ha & Hs & Hc). auto.
  - rewrite fst_bind. cbn [ret fst]. rewrite fst_forEach. split; [|split].
    + apply omap_id_NoDup; [apply activeChainIDs_NoDup|].
      intros a t Ht. apply symbolTask_token in Ht. tauto.
    + rewrite <- activeChainIDs_length. apply omap_id_length.
    + apply Forall_forall. intros t Ht.
      apply omap_id_elem in Ht as (cID & Hc & Ht).
      apply symbolTask_token in Ht as (<- & Hs & Hp & Haddr).
      apply activeChainIDs_elem in Hc. auto.
Qed.

End OnchainMore.

(** ** What an address query sends *)
Section RequestsMore.

Context (L : Deps) (C : Config) (W : World).

Lemma chainOnly_nil (n : nat) : chainOnly n [].
Proof. split; [constructor | simpl; lia]. Qed.

Lemma chainOnly_app (n m : nat) (l1 l2 : list Request) :
  chainOnly n l1 -> chainOnly m l2 -> chainOnly (n + m) (l1 ++ l2).
Proof.
  intros [F1 H1] [F2 H2]. split.
  - apply Forall_app. auto.
  - rewrite length_app. lia.
Qed.

Lemma chainOnly_le (n m : nat) (l : list Request) :
  (n <= m)%nat -> chainOnly n l -> chainOnly m l.
Proof. intros Hle [F H]. split; [exact F | lia]. Qed.

Lemma snd_callStringMethod rpcURL address methodSig :
  snd (callStringMethod L W rpcURL address methodSig)
  = [EthCall rpcURL address methodSig].
Proof. reflexivity. Qed.

Lemma snd_callDecimalsMethod rpcURL address methodSig :
  snd (callDecimalsMethod W rpcURL address methodSig)
  = [EthCall rpcURL address methodSig].
Proof. reflexivity. Qed.

Lemma snd_forEach {A B} (f : A -> Net B) (l : list A) :
  snd (forEach f l) = concat (map (fun a => snd (f a)) l).
Proof.
  induction l as [|a l IH]; [reflexivity|].
  cbn [forEach map concat]. rewrite !snd_bind. cbn [ret snd].
  rewrite app_nil_r, IH. reflexivity.
Qed.

Lemma chainOnly_concat {A} (n : nat) (g : A -> list Request) (l : list A) :
  (forall a, chainOnly n (g a)) -> chainOnly (n * length l) (concat (map g l)).
Proof.
  intros Hg. induction l as [|a l IH]; cbn [map concat length].
  - apply chainOnly_nil.
  - replace (n * S (length l))%nat with (n + n * length l)%nat by lia.
    apply chainOnly_app; [apply Hg | exact IH].
Qed.

Lemma getTokenInfoFromContract_requests address chainID :
  chainOnly 4 (snd (getTokenInfoFromContract L C W address chainID)).
Proof.
  unfold getTokenInfoFromContract.
  destruct (GetActiveChains C !! chainID) as [chain|]; [|apply chainOnly_nil].
  rewrite snd_bind. cbn [send snd fst].
  apply (chainOnly_app 1 3); [split; [repeat constructor | simpl; lia]|].
  destruct (DialContext W (RpcURL chain)); cbn [negb]; [|apply chainOnly_nil].
  rewrite snd_bind, snd_callStringMethod.
  apply (chainOnly_app 1 2); [split; [repeat constructor | simpl; lia]|].
  destruct (fst (callStringMethod L W (RpcURL chain) address symbolSignature));
    [|apply chainOnly_nil].
  rewrite snd_bind, snd_callStringMethod.
  apply (chainOnly_app 1 1); [split; [repeat constructor | simpl; lia]|].
  destruct (fst (callStringMethod L W (RpcURL chain) address nameSignature));
    [|apply chainOnly_nil].
  rewrite snd_bind, snd_callDecimalsMethod. cbn [ret snd].
  split; [repeat constructor | simpl; lia].
Qed.

Lemma verifyTokenOnchain_requests address chainID :
  chainOnly 4 (snd (verifyTokenOnchain L C W address chainID)).
Proof.
  unfold verifyTokenOnchain.
  destruct (GetChainByID C chainID) as [chain'|]; [|apply chainOnly_nil].
  destruct (String.eqb (RpcURL chain') ""); [apply chainOnly_nil|].
  rewrite snd_bind. cbn [ret snd]. rewrite app_nil_r.
  apply getTokenInfoFromContract_requests.
Qed.

Lemma quickTokenCheck_requests address chainID :
  chainOnly 2 (snd (quickTokenCheck L C W address chainID)).
Proof.
  unfold quickTokenCheck.
  destruct (GetActiveChains C !! chainID) as [chain|]; [|apply chainOnly_nil].
  destruct (String.eqb (RpcURL chain) ""); [apply chainOnly_nil|].
  rewrite snd_bind. cbn [send snd fst].
  apply (chainOnly_app 1 1); [split; [repeat constructor | simpl; lia]|].
  destruct (DialContext W (RpcURL chain)); cbn [negb]; [|apply chainOnly_nil].
  rewrite snd_bind, snd_callStringMethod. cbn [ret snd].
  split; [repeat constructor | simpl; lia].
Qed.

Lemma addressTask_requests address cID :
  chainOnly 6 (snd (addressTask L C W address cID)).
Proof.
  unfold addressTask. rewrite snd_bind.
  apply (chainOnly_app 2 4); [apply quickTokenCheck_requests|].
  destruct (fst (quickTokenCheck L C W address cID)); cbn [negb];
    [|apply chainOnly_nil].
  rewrite snd_bind. cbn [ret snd]. rewrite app_nil_r.
  apply verifyTokenOnchain_requests.
Qed.

Lemma searchByAddressOptimized_requests address :
  chainOnly (6 * size (GetActiveChains C))
    (snd (searchByAddressOptimized L C W address)).
Proof.
  unfold searchByAddressOptimized. rewrite snd_bind. cbn [ret snd].
  rewrite app_nil_r, snd_forEach, <- (activeChainIDs_length C).
  apply chainOnly_concat. apply addressTask_requests.
Qed.

(** The search computed for an address query. *)
Lemma searchFresh_address query :
  DetectInputType query = "address" ->
  searchFresh L C W query
  = (deduplicateTokens (fst (searchByAddressOptimized L C W query)
                        ++ fst (searchByAddressOptimized L C W query)),
     snd (searchByAddressOptimized L C W query)
     ++ snd (searchByAddressOptimized L C W query)).
Proof.
  intros Haddr. unfold searchFresh, searchOnchain. rewrite Haddr.
  cbn [String.eqb Ascii.eqb Bool.eqb].
  destruct (searchByAddressOptimized L C W query) as [found sent].
  unfold bind, ret. cbn [fst snd]. rewrite app_nil_r. reflexivity.
Qed.

(** X6. An address query never calls an HTTP provider: every request of
    the search goes to a chain endpoint, and there are at most twelve per
    active chain. *)
Theorem address_query_requests (query : string) :
  DetectInputType query = "address" ->
  Forall (fun r => isChainRequest r = true) (snd (searchFresh L C W query))
  /\ (length (snd (searchFresh L C W query))
      <= 12 * size (GetActiveChains C))%nat.
Proof.
  intros Haddr. rewrite (searchFresh_address query Haddr). cbn [snd].
  pose proof (searchByAddressOptimized_requests query) as Hreq.
  pose proof (chainOnly_app _ _ _ _ Hreq Hreq) as [F Hlen].
  split; [exact F | lia].
Qed.

End RequestsMore.


(** X7. Of a [decimals()] response of 32 bytes or more only the last eight
    bytes are read: whatever precedes them, the call is accepted with their
    big-endian value when that value is at most 77, and refused
    otherwise. *)
Theorem decimals_read_from_last_eight_bytes (W : World)
    (rpcURL address : string) (pre last : list byte) :
  CallContract W rpcURL address decimalsSignature = Some (pre ++ last) ->
  length last = 8%nat ->
  (24 <= length pre)%nat ->
  fst (callDecimalsMethod W rpcURL address decimalsSignature)
  = if SetBytes last >? 77 then Err "unreasonable decimals value"
    else Ok (SetBytes last).
Proof.
  intros Hcall Hlast Hpre. unfold callDecimalsMethod.
  rewrite fst_bind. cbn [send fst ret]. rewrite Hcall.
  destruct (Nat.ltb_spec (length (pre ++ last)) 32) as [Hlt|_].
  { rewrite length_app in Hlt. lia. }
  rewrite (BytesMore.Uint64_last_eight pre last Hlast). reflexivity.
Qed.

(** ** Parsing of the market figures *)
Section ParseMore.

Context (L : Deps).

Lemma positive_guard_eq {A} (s : string) (f : Decimal -> A) (x : A) :
  (if negb (String.eqb s "") && negb (String.eqb s "0")
      && negb (String.eqb s "null")
   then match NewFromString L s with
        | Some p => if decimal.IsPositive p then f p else x
        | None => x
        end
   else x)
  = match validPositive L s with Some d => f d | None => x end.
Proof.
  unfold validPositive.
  destruct (negb (String.eqb s "") && negb (String.eqb s "0")
            && negb (String.eqb s "null")); [|reflexivity].
  destruct (NewFromString L s) as [p|]; [|reflexivity].
  destruct (decimal.IsPositive p); reflexivity.
Qed.

Lemma decimal_guard_eq {A} (s : string) (f : Decimal -> A) (x : A) :
  (if negb (String.eqb s "") && negb (String.eqb s "null")
   then match NewFromString L s with
        | Some p => f p
        | None => x
        end
   else x)
  = match validDecimal L s with Some d => f d | None => x end.
Proof.
  unfold validDecimal.
  destruct (negb (String.eqb s "") && negb (String.eqb s "null")); reflexivity.
Qed.

(** Each figure is written from its own string, independently of the
    others. *)
Lemma parseAndSetMarketData_eq now t priceUsd volume24h marketCap change :
  parseAndSetMarketData L now t priceUsd volume24h marketCap change
  = {| Address := Address t; Symbol := Symbol t; Name := Name t;
       ChainID := ChainID t; Decimals := Decimals t; LogoURI := LogoURI t;
       Tags := Tags t;
       PriceUSD := default (PriceUSD t) (validPositive L priceUsd);
       Change24h := default (Change24h t) (validDecimal L change);
       Volume24h := default (Volume24h t) (validPositive L volume24h);
       MarketCap := default (MarketCap t) (validPositive L marketCap);
       Source := Source t; Verified := Verified t; Popular := Popular t;
       LastUpdated := now |}.
Proof.
  unfold parseAndSetMarketData. cbv zeta.
  rewrite (positive_guard_eq priceUsd (fun p => set_PriceUSD p t)).
  set (t1 := match validPositive L priceUsd with
             | Some d => set_PriceUSD d t | None => t end).
  rewrite (positive_guard_eq volume24h (fun p => set_Volume24h p t1)).
  set (t2 := match validPositive L volume24h with
             | Some d => set_Volume24h d t1 | None => t1 end).
  rewrite (positive_guard_eq marketCap (fun p => set_MarketCap p t2)).
  set (t3 := match validPositive L marketCap with
             | Some d => set_MarketCap d t2 | None => t2 end).
  rewrite (decimal_guard_eq change (fun p => set_Change24h p t3)).
  subst t1 t2 t3.
  destruct (validPositive L priceUsd), (validPositive L volume24h),
    (validPositive L marketCap), (validDecimal L change); reflexivity.
Qed.

Lemma validPositive_positive (s : string) (d : Decimal) :
  validPositive L s = Some d -> decimal.IsPositive d = true.
Proof.
  unfold validPositive.
  destruct (negb (String.eqb s "") && negb (String.eqb s "0")
            && negb (String.eqb s "null")); [|discriminate].
  destruct (NewFromString L s) as [p|]; [|discriminate].
  destruct (decimal.IsPositive p) eqn:Hp; [|discriminate].
  intros [= <-]. exact Hp.
Qed.

Lemma default_positive (old : Decimal) (s : string) :
  default old (validPositive L s) = old
  \/ decimal.IsPositive (default old (validPositive L s)) = true.
Proof.
  destruct (validPositive L s) as [d|] eqn:Hd; [right | left; reflexivity].
  simpl. eapply validPositive_positive. exact Hd.
Qed.

(** X8. [parseAndSetMarketData] changes nothing of a token but its four
    market figures and its time stamp: address, symbol, name, chain,
    decimals, flags, tags, logo and source stay.  The time stamp is the time
    of the call, and a price, a volume or a market cap that it writes is
    positive. *)
Theorem parseAndSetMarketData_fields now t priceUsd volume24h marketCap change :
  let t' := parseAndSetMarketData L now t priceUsd volume24h marketCap change in
  sameIdentity t t'
  /\ Source t' = Source t /\ LogoURI t' = LogoURI t
  /\ LastUpdated t' = now
  /\ (PriceUSD t' = PriceUSD t \/ decimal.IsPositive (PriceUSD t') = true)
  /\ (Volume24h t' = Volume24h t \/ decimal.IsPositive (Volume24h t') = true)
  /\ (MarketCap t' = MarketCap t \/ decimal.IsPositive (MarketCap t') = true).
Proof.
  cbv zeta. rewrite parseAndSetMarketData_eq. unfold sameIdentity. simpl.
  split; [repeat split; reflexivity|].
  repeat (split; [reflexivity|]).
  split; [apply default_positive|]. split; apply default_positive.
Qed.

(** X9. Parsing the same four strings a second time changes nothing but
    the time stamp: the result is the one a single call at the later time
    gives. *)
Theorem parseAndSetMarketData_again now now' t priceUsd volume24h marketCap change :
  parseAndSetMarketData L now'
    (parseAndSetMarketData L now t priceUsd volume24h marketCap change)
    priceUsd volume24h marketCap change
  = parseAndSetMarketData L now' t priceUsd volume24h marketCap change.
Proof.
  rewrite !parseAndSetMarketData_eq. simpl.
  destruct (validPositive L priceUsd), (validPositive L volume24h),
    (validPositive L marketCap), (validDecimal L change); reflexivity.
Qed.

End ParseMore.

(** ** Enrichment: failed steps, what a returned token carries *)
Section EnrichMore.

Context (L : Deps) (W : World).

Lemma enhanceFromDexScreener_cases now token b t1 :
  fst (enhanceFromDexScreener L W now token) = Returned (b, t1) ->
  (b = false /\ t1 = token)
  \/ (b = true
      /\ exists best,
           t1 = set_Source "dexscreener_enhanced"
                  (parseAndSetMarketData L now token (dp_PriceUsd best)
                     (dp_VolumeH24 best) (dp_MarketCap best)
                     (dp_PriceChangeH24 best))).
Proof.
  unfold enhanceFromDexScreener. rewrite fst_bind. rewrite ?fst_httpGet. cbn [send fst ret].
  destruct (DexTokens W _) as [|status [[n [pairs|]]|]|];
    try (intros [= <- <-]; left; auto; fail).
  - destruct (negb (status =? 200)); [intros [= <- <-]; left; auto|].
    destruct (negb (first200 n)); [discriminate|].
    destruct (length pairs =? 0)%nat; [intros [= <- <-]; left; auto|].
    destruct (selectBestPair L (Address token) pairs) as [best|].
    + intros [= <- <-]. right. eauto.
    + intros [= <- <-]. left. auto.
  - destruct (negb (status =? 200)); [intros [= <- <-]; left; auto|].
    destruct (negb (first200 n)); [discriminate|].
    intros [= <- <-]. left. auto.
  - destruct (negb (status =? 200)); intros [= <- <-]; left; auto.
Qed.

Lemma enhanceFromGeckoTerminal_cases now token b t1 :
  fst (enhanceFromGeckoTerminal L W now token) = Returned (b, t1) ->
  (b = false /\ t1 = token)
  \/ (b = true
      /\ exists attrs,
           let parsed := parseAndSetMarketData L now token (ga_PriceUsd attrs)
                           (ga_VolumeUsdH24 attrs) (marketCapOrFdv attrs) "0" in
           t1 = set_Source "geckoterminal_enhanced"
                  (if negb (String.eqb (ga_ImageURL attrs) "")
                      && String.eqb (LogoURI parsed) ""
                   then set_LogoURI (ga_ImageURL attrs) parsed
                   else parsed)).
Proof.
  unfold enhanceFromGeckoTerminal.
  destruct (String.eqb (getNetworkSlugForGeckoTerminal (ChainID token)) "").
  { cbn [ret fst]. intros [= <- <-]. left. auto. }
  rewrite fst_bind. rewrite ?fst_httpGet. cbn [send fst ret].
  destruct (GeckoToken W _) as [|status [[n [attrs|]]|]|];
    try (intros [= <- <-]; left; auto; fail).
  - destruct (negb (status =? 200)); [intros [= <- <-]; left; auto|].
    destruct (negb (first200 n)); [discriminate|].
    destruct (String.eqb (ga_Name attrs) ""); [intros [= <- <-]; left; auto|].
    intros [= <- <-]. right. split; [reflexivity|]. exists attrs. reflexivity.
  - destruct (negb (status =? 200)); [intros [= <- <-]; left; auto|].
    destruct (negb (first200 n)); [discriminate|].
    intros [= <- <-]. left. auto.
  - destruct (negb (status =? 200)); intros [= <- <-]; left; auto.
Qed.

Lemma sameIdentity_parse now token p v m c :
  sameIdentity token (parseAndSetMarketData L now token p v m c).
Proof. rewrite parseAndSetMarketData_eq. repeat split; reflexivity. Qed.

(** X10. A step of the enrichment that reports failure has not touched
    the token: whenever [enhanceFromDexScreener] or
    [enhanceFromGeckoTerminal] returns false, the token is the one it was
    given. *)
Theorem failed_step_leaves_token now token :
  (forall t1, fst (enhanceFromDexScreener L W now token) = Returned (false, t1) ->
              t1 = token)
  /\ (forall t1, fst (enhanceFromGeckoTerminal L W now token) = Returned (false, t1) ->
                 t1 = token).
Proof.
  split; intros t1 H.
  - apply enhanceFromDexScreener_cases in H as [[_ ->]|[Hb _]];
      [reflexivity | discriminate].
  - apply enhanceFromGeckoTerminal_cases in H as [[_ ->]|[Hb _]];
      [reflexivity | discriminate].
Qed.

Lemma enhanceTokenWithMarketData_cases now token t' :
  fst (enhanceTokenWithMarketData L W now token) = Returned t' ->
  t' = set_Source "onchain_only" token
  \/ (exists p v m c,
        t' = set_Source "dexscreener_enhanced"
               (parseAndSetMarketData L now token p v m c))
  \/ (exists p v m c (b : bool) logo,
        t' = set_Source "geckoterminal_enhanced"
               (if b then set_LogoURI logo (parseAndSetMarketData L now token p v m c)
                else parseAndSetMarketData L now token p v m c)).
Proof.
  unfold enhanceTokenWithMarketData. rewrite fst_bind.
  destruct (fst (enhanceFromDexScreener L W now token)) as [[b t1]|msg] eqn:H1;
    [|discriminate].
  apply enhanceFromDexScreener_cases in H1 as [[-> ->]|[-> (best & ->)]].
  - rewrite fst_bind. cbn [ret fst].
    destruct (fst (enhanceFromGeckoTerminal L W now token)) as [[b t2]|msg] eqn:H2;
      [|discriminate].
    apply enhanceFromGeckoTerminal_cases in H2 as [[-> ->]|[-> (attrs & ->)]];
      intros [= <-].
    + left. reflexivity.
    + right. right. cbv zeta. do 6 eexists. reflexivity.
  - cbn [ret fst]. intros [= <-]. right. left. do 4 eexists. reflexivity.
Qed.

(** X11. When the enrichment returns, the token it returns is the given
    token as to address, symbol, name, chain, decimals, flags and tags, and
    its source is one of "dexscreener_enhanced", "geckoterminal_enhanced"
    and "onchain_only"; tagged "onchain_only" it differs from the given
    token by the source alone. *)
Theorem enrichment_keeps_identity now token t' :
  fst (enhanceTokenWithMarketData L W now token) = Returned t' ->
  sameIdentity token t'
  /\ (Source t' = "dexscreener_enhanced"
      \/ Source t' = "geckoterminal_enhanced"
      \/ Source t' = "onchain_only")
  /\ (Source t' = "onchain_only" -> t' = set_Source "onchain_only" token).
Proof.
  intros H. apply enhanceTokenWithMarketData_cases in H
    as [-> | [(p & v & m & c & ->) | (p & v & m & c & b & logo & ->)]].
  - split; [repeat split; reflexivity|]. split; [auto | reflexivity].
  - split; [apply sameIdentity_parse|].
    split; [left; reflexivity | simpl; discriminate].
  - pose proof (sameIdentity_parse now token p v m c) as Hid.
    split; [destruct b; exact Hid|].
    split; [right; left; destruct b; reflexivity|].
    destruct b; simpl; discriminate.
Qed.

(** X12. When the pool provider answers 200 for a token of a chain with a
    network slug, with a body of at least 200 bytes that decodes to
    attributes with a name, the step succeeds.  The market cap is parsed
    from the market-cap string, or from the fully diluted value when that
    string is empty or "null"; the logo is taken from the answer only when
    the token has none; the 24h change is overwritten with what "0" parses
    to. *)
Theorem enhanceFromGeckoTerminal_fields now token n attrs :
  getNetworkSlugForGeckoTerminal (ChainID token) <> "" ->
  GeckoToken W (geckoTokenURL (getNetworkSlugForGeckoTerminal (ChainID token)) token)
  = Response 200 (Some (n, Some attrs)) ->
  (200 <= n)%nat ->
  ga_Name attrs <> "" ->
  exists t',
    fst (enhanceFromGeckoTerminal L W now token) = Returned (true, t')
    /\ Source t' = "geckoterminal_enhanced"
    /\ LastUpdated t' = now
    /\ PriceUSD t' = default (PriceUSD token) (validPositive L (ga_PriceUsd attrs))
    /\ Volume24h t'
       = default (Volume24h token) (validPositive L (ga_VolumeUsdH24 attrs))
    /\ MarketCap t'
       = default (MarketCap token) (validPositive L (marketCapOrFdv attrs))
    /\ Change24h t' = default (Change24h token) (NewFromString L "0")
    /\ LogoURI t' = (if String.eqb (LogoURI token) "" then ga_ImageURL attrs
                     else LogoURI token).
Proof.
  intros Hslug Hresp Hn Hname. unfold enhanceFromGeckoTerminal.
  destruct (String.eqb_spec (getNetworkSlugForGeckoTerminal (ChainID token)) "")
    as [|_]; [contradiction|].
  fold (geckoTokenURL (getNetworkSlugForGeckoTerminal (ChainID token)) token).
  rewrite fst_bind. rewrite ?fst_httpGet. cbn [send fst ret]. rewrite Hresp.
  cbn [Z.eqb Pos.eqb negb]. unfold first200.
  destruct (Nat.leb_spec 200 n) as [_|?]; [|lia]. cbn [negb].
  destruct (String.eqb_spec (ga_Name attrs) "") as [|_]; [contradiction|].
  eexists. split; [reflexivity|]. fold (marketCapOrFdv attrs).
  rewrite parseAndSetMarketData_eq. cbn [LogoURI].
  destruct (String.eqb_spec (ga_ImageURL attrs) "") as [Himg|Himg];
    destruct (String.eqb (LogoURI token) "") eqn:Hlogo; simpl;
    repeat (split; [reflexivity|]); try reflexivity.
  - apply String.eqb_eq in Hlogo. congruence.
Qed.

End EnrichMore.

(** ** The tables between chain IDs and provider slugs *)
Module TableFacts.

Lemma list_to_map_assoc {K V} `{Countable K} (l : list (K * V)) (k : K) :
  (list_to_map l : gmap K V) !! k = assoc k l.
Proof.
  induction l as [|[k' v] l IH]; [apply lookup_empty|].
  cbn [list_to_map foldr uncurry fst snd assoc].
  destruct (decide (k' = k)) as [->|Hne].
  - apply lookup_insert_eq.
  - rewrite lookup_insert_ne by assumption. exact IH.
Qed.

Lemma mapGeckoTerminalNetworkToChainID_range (n : string) :
  mapGeckoTerminalNetworkToChainID n <> 0 ->
  mapGeckoTerminalNetworkToChainID n ∈ [1; 56; 8453; 84532; 97].
Proof.
  unfold mapGeckoTerminalNetworkToChainID, lookupOr.
  rewrite list_to_map_assoc. cbn [assoc].
  repeat (case_decide; [cbn [default]; intros _; set_solver|]).
  cbn [default]. intros Hne. contradiction.
Qed.

Lemma mapDexScreenerChainToID_range (s : string) :
  mapDexScreenerChainToID s <> 0 ->
  mapDexScreenerChainToID s ∈ [1; 56; 137; 8453; 42161; 10].
Proof.
  unfold mapDexScreenerChainToID, lookupOr.
  rewrite list_to_map_assoc. cbn [assoc].
  repeat (case_decide; [cbn [default]; intros _; set_solver|]).
  cbn [default]. intros Hne. contradiction.
Qed.

End TableFacts.

(** X13. The two tables of the DEX-pair provider are inverse to each
    other: a chain ID has the non-empty slug [s] exactly when [s] is mapped
    to that chain ID, a chain ID other than 0. *)
Theorem dexscreener_tables_inverse (c : Z) (s : string) :
  (getChainSlugForDexScreener c = s /\ s <> "")
  <-> (mapDexScreenerChainToID s = c /\ c <> 0).
Proof.
  unfold getChainSlugForDexScreener, mapDexScreenerChainToID, lookupOr.
  rewrite !TableFacts.list_to_map_assoc. cbn [assoc]. split.
  - intros [Hs Hne]. revert Hs.
    repeat (case_decide;
            [subst c; cbn [default]; intros <-;
             first [contradiction | split; [reflexivity | lia]]|]).
    cbn [default]. intros <-. contradiction.
  - intros [Hc Hne]. revert Hc.
    repeat (case_decide;
            [subst s; cbn [default]; intros <-;
             split; [reflexivity | discriminate]|]).
    cbn [default]. intros <-. contradiction.
Qed.

(** X14. The two tables of the pool provider agree on the main networks
    only.  A network ID that the search maps to a chain ID other than 0 is
    the slug the enrichment uses for that chain exactly for the chains 1,
    56 and 8453: for the test networks 84532 and 97 the search reads the
    ID with a hyphen and the enrichment writes the slug with an underscore,
    so the slug is not empty and is another string. *)
Theorem geckoterminal_tables_differ_on_testnets (n : string) :
  mapGeckoTerminalNetworkToChainID n <> 0 ->
  getNetworkSlugForGeckoTerminal (mapGeckoTerminalNetworkToChainID n) <> ""
  /\ (getNetworkSlugForGeckoTerminal (mapGeckoTerminalNetworkToChainID n) = n
      <-> mapGeckoTerminalNetworkToChainID n ∈ [1; 56; 8453])
  /\ (mapGeckoTerminalNetworkToChainID
        (getNetworkSlugForGeckoTerminal (mapGeckoTerminalNetworkToChainID n))
      = (if bool_decide (mapGeckoTerminalNetworkToChainID n ∈ [84532; 97])
         then 0 else mapGeckoTerminalNetworkToChainID n)).
Proof.
  unfold mapGeckoTerminalNetworkToChainID at 1, lookupOr.
  rewrite TableFacts.list_to_map_assoc. cbn [assoc].
  repeat (case_decide;
          [subst n; intros _;
           split; [vm_compute; discriminate|];
           split; [|vm_compute; reflexivity];
           split; intros Hx;
           [first [by repeat constructor | vm_compute in Hx; discriminate]
           |first [by vm_compute
                  | exfalso; apply list_elem_of_In in Hx;
                    vm_compute in Hx; intuition discriminate]]|]).
  cbn [default]. intros Hne. contradiction.
Qed.

(** ** The loops over a provider's answer *)
Section ProviderLoops.

Context (C : Config) (W : World).

Lemma fold_left_inv {A S} (I : S -> Prop) (step : S -> A -> S) (l : list A) :
  (forall acc a, I acc -> I (step acc a)) ->
  forall acc, I acc -> I (fold_left step l acc).
Proof.
  intros Hstep. induction l as [|a l IH]; intros acc Hacc; simpl; auto.
Qed.

Lemma filedInv_start (key : Token -> string) : filedInv key ([], ∅).
Proof. split; [constructor | intros t Ht; inversion Ht]. Qed.

Lemma filedInv_add (key : Token -> string) tokens seen (t : Token) :
  filedInv key (tokens, seen) ->
  lookupOr seen (key t) false = false ->
  filedInv key (tokens ++ [t], <[key t := true]> seen).
Proof.
  intros [Hnd Hseen] Hnew. cbn [fst snd] in *. split; cbn [fst snd].
  - rewrite fmap_app. apply NoDup_app. split; [exact Hnd|]. split.
    + intros k Hk Hk'. apply list_elem_of_fmap in Hk as (t' & -> & Ht').
      apply list_elem_of_singleton in Hk'.
      unfold lookupOr in Hnew. rewrite <- Hk', (Hseen t' Ht') in Hnew.
      discriminate.
    + apply NoDup_singleton.
  - intros t' Ht'. destruct (decide (key t = key t')) as [Heq|Hne].
    + rewrite <- Heq. apply lookup_insert_eq.
    + rewrite lookup_insert_ne by assumption. apply Hseen.
      apply elem_of_app in Ht' as [Ht'|Ht']; [exact Ht'|].
      apply list_elem_of_singleton in Ht'. congruence.
Qed.

Lemma strKey_legToken (leg : TokenLeg) (chainID : Z) (source : string) :
  strKey (legToken leg chainID source) = tokenKey chainID (leg_Address leg).
Proof.
  unfold strKey, legToken, tokenKey. cbn [ChainID Address newToken].
  rewrite (CaseFacts.ToLower_lowerCased (leg_Address leg)). reflexivity.
Qed.

Lemma negb_lookupOr (seen : gmap string bool) (k : string) (b : bool) :
  negb (lookupOr seen k false) && b = true -> lookupOr seen k false = false.
Proof. destruct (lookupOr seen k false); [discriminate | reflexivity]. Qed.

Lemma geckoStep_filed acc pool :
  filedInv strKey acc -> filedInv strKey (geckoStep C acc pool).
Proof.
  destruct acc as [tokens seen]. intros Hacc. unfold geckoStep.
  destruct (mapGeckoTerminalNetworkToChainID (pool_Network pool) =? 0);
    [exact Hacc|].
  destruct (negb (bool_decide (is_Some (GetActiveChains C !! _))));
    [exact Hacc|].
  set (c := mapGeckoTerminalNetworkToChainID (pool_Network pool)).
  rewrite <- (strKey_legToken (pool_BaseToken pool) c "geckoterminal").
  rewrite <- (strKey_legToken (pool_QuoteToken pool) c "geckoterminal").
  destruct (negb (lookupOr seen _ false) && negb (String.eqb _ "")) eqn:Hb.
  - apply negb_lookupOr in Hb.
    pose proof (filedInv_add strKey _ _ _ Hacc Hb) as Hacc'.
    destruct (negb (lookupOr _ _ false) && negb (String.eqb _ "") && negb _)
      eqn:Hq; [|exact Hacc'].
    rewrite <- andb_assoc in Hq. apply negb_lookupOr in Hq.
    apply filedInv_add; assumption.
  - destruct (negb (lookupOr _ _ false) && negb (String.eqb _ "") && negb _)
      eqn:Hq; [|exact Hacc].
    rewrite <- andb_assoc in Hq. apply negb_lookupOr in Hq.
    apply filedInv_add; assumption.
Qed.

Lemma dexStep_filed acc pair :
  filedInv strKey acc -> filedInv strKey (dexStep C acc pair).
Proof.
  destruct acc as [tokens seen]. intros Hacc. unfold dexStep.
  destruct (mapDexScreenerChainToID (sp_ChainID pair) =? 0); [exact Hacc|].
  destruct (negb (bool_decide (is_Some (GetActiveChains C !! _))));
    [exact Hacc|].
  set (c := mapDexScreenerChainToID (sp_ChainID pair)).
  rewrite <- (strKey_legToken (sp_BaseToken pair) c "dexscreener").
  rewrite <- (strKey_legToken (sp_QuoteToken pair) c "dexscreener").
  destruct (negb (lookupOr seen _ false)) eqn:Hb.
  - rewrite <- (andb_true_r (negb _)) in Hb. apply negb_lookupOr in Hb.
    pose proof (filedInv_add strKey _ _ _ Hacc Hb) as Hacc'.
    destruct (negb (lookupOr _ _ false) && negb _) eqn:Hq; [|exact Hacc'].
    apply negb_lookupOr in Hq. apply filedInv_add; assumption.
  - destruct (negb (lookupOr _ _ false) && negb _) eqn:Hq; [|exact Hacc].
    apply negb_lookupOr in Hq. apply filedInv_add; assumption.
Qed.

Lemma NoDup_strKey_keyOf (l : list Token) :
  NoDup (strKey <$> l) -> NoDup (keyOf <$> l).
Proof.
  intros H. apply (NoDup_fmap_1 fmtKey). rewrite <- list_fmap_compose. exact H.
Qed.

(** Where the records of the pool provider's loop are from. *)
Lemma geckoTokens_from (pools : list GeckoPool) :
  Forall (fun t => is_Some (GetActiveChains C !! ChainID t)
                   /\ ChainID t ∈ [1; 56; 8453; 84532; 97]
                   /\ Address t <> ""
                   /\ Source t = "geckoterminal")
         (geckoTokens C pools).
Proof.
  unfold geckoTokens. apply fold_left_fst_Forall; [|constructor].
  intros [tokens seen] pool Hacc. unfold geckoStep. cbn [fst] in Hacc.
  destruct (Z.eqb_spec (mapGeckoTerminalNetworkToChainID (pool_Network pool)) 0)
    as [|Hc]; [exact Hacc|].
  destruct (bool_decide (is_Some (GetActiveChains C !! _))) eqn:Ha;
    cbn [negb]; [|exact Hacc].
  apply bool_decide_eq_true in Ha.
  apply TableFacts.mapGeckoTerminalNetworkToChainID_range in Hc.
  assert (Hleg : forall leg,
             String.eqb (leg_Address leg) "" = false ->
             is_Some (GetActiveChains C !! ChainID (legToken leg
                        (mapGeckoTerminalNetworkToChainID (pool_Network pool))
                        "geckoterminal"))
             /\ ChainID (legToken leg
                  (mapGeckoTerminalNetworkToChainID (pool_Network pool))
                  "geckoterminal") ∈ [1; 56; 8453; 84532; 97]
             /\ Address (legToken leg
                  (mapGeckoTerminalNetworkToChainID (pool_Network pool))
                  "geckoterminal") <> ""
             /\ Source (legToken leg
                  (mapGeckoTerminalNetworkToChainID (pool_Network pool))
                  "geckoterminal") = "geckoterminal").
  { intros leg Hne. cbn [legToken newToken ChainID Address Source].
    repeat split; try assumption.
    apply String.eqb_neq in Hne. destruct (leg_Address leg); [congruence|].
    discriminate. }
  destruct (negb (lookupOr seen _ false)); cbn [andb];
    destruct (String.eqb (leg_Address (pool_BaseToken pool)) "") eqn:Hb;
    cbn [negb andb fst];
    destruct (negb (lookupOr _ _ false)); cbn [andb];
    destruct (String.eqb (leg_Address (pool_QuoteToken pool)) "") eqn:Hq;
    cbn [negb andb fst];
    try destruct (negb (IsStablecoin C _)); cbn [fst];
    repeat (apply Forall_snoc; [|apply Hleg; assumption]); exact Hacc.
Qed.

(** Where the records of the DEX-pair provider's loop are from. *)
Lemma dexTokens_from (pairs : list DexSearchPair) :
  Forall (fun t => is_Some (GetActiveChains C !! ChainID t)
                   /\ ChainID t ∈ [1; 56; 137; 8453; 42161; 10]
                   /\ Source t = "dexscreener")
         (dexTokens C pairs).
Proof.
  unfold dexTokens. apply fold_left_fst_Forall; [|constructor].
  intros [tokens seen] pair Hacc. unfold dexStep. cbn [fst] in Hacc.
  destruct (Z.eqb_spec (mapDexScreenerChainToID (sp_ChainID pair)) 0)
    as [|Hc]; [exact Hacc|].
  destruct (bool_decide (is_Some (GetActiveChains C !! _))) eqn:Ha;
    cbn [negb]; [|exact Hacc].
  apply bool_decide_eq_true in Ha.
  apply TableFacts.mapDexScreenerChainToID_range in Hc.
  destruct (negb (lookupOr seen _ false)); cbn [fst];
    destruct (negb (lookupOr _ _ false)); cbn [andb fst];
    try destruct (negb (IsStablecoin C _)); cbn [fst];
    repeat (apply Forall_snoc;
            [|cbn [legToken newToken ChainID Source]; auto]);
    exact Hacc.
Qed.

Lemma provider_body {A} (resp : HttpOutcome (list A)) (f : list A -> list Token)
    (P : list Token -> Prop) :
  P [] -> (forall data, P (f data)) ->
  P match resp with
    | RequestRefused => []
    | RequestFailed => []
    | Response status body =>
        if negb (status =? 200) then []
        else match body with
             | None => []
             | Some (_, None) => []
             | Some (_, Some data) => f data
             end
    end.
Proof.
  intros Hnil Hf. destruct resp as [|status [[n [data|]]|]|]; try exact Hnil;
    destruct (negb (status =? 200)); auto.
Qed.

End ProviderLoops.

(** X15. Neither the pool provider's search nor the DEX-pair provider's
    search returns two records of the same (chain, lower-cased address)
    key, so de-duplicating one provider's answer only reorders it; every
    record is on an active chain that the provider's table knows, and a
    record of the pool provider has an address. *)
Theorem provider_search_records_are_distinct (C : Config) (W : World)
    (query : string) :
  let gecko := fst (searchGeckoTerminal C W query) in
  let dex := fst (searchDexScreener C W query) in
  (NoDup (keyOf <$> gecko)
   /\ deduplicateTokens_returns gecko gecko
   /\ Forall (fun t => is_Some (GetActiveChains C !! ChainID t)
                       /\ ChainID t ∈ [1; 56; 8453; 84532; 97]
                       /\ Address t <> ""
                       /\ Source t = "geckoterminal") gecko)
  /\ (NoDup (keyOf <$> dex)
      /\ deduplicateTokens_returns dex dex
      /\ Forall (fun t => is_Some (GetActiveChains C !! ChainID t)
                          /\ ChainID t ∈ [1; 56; 137; 8453; 42161; 10]
                          /\ Source t = "dexscreener") dex).
Proof.
  cbv zeta. unfold searchGeckoTerminal, searchDexScreener.
  rewrite !fst_bind. rewrite ?fst_httpGet. cbn [send ret fst]. split.
  - apply (provider_body _ (geckoTokens C)
             (fun l => NoDup (keyOf <$> l) /\ deduplicateTokens_returns l l
                       /\ Forall _ l)).
    + split; [constructor|]. split; [|constructor].
      unfold deduplicateTokens_returns. symmetry.
      apply DedupMore.deduplicateTokens_NoDup_keys. constructor.
    + intros pools.
      assert (Hnd : NoDup (keyOf <$> geckoTokens C pools)).
      { apply NoDup_strKey_keyOf. unfold geckoTokens.
        apply (fold_left_inv (filedInv strKey) (geckoStep C) pools
                 (geckoStep_filed C) ([], ∅) (filedInv_start strKey)). }
      split; [exact Hnd|]. split; [|apply geckoTokens_from].
      unfold deduplicateTokens_returns. symmetry.
      apply DedupMore.deduplicateTokens_NoDup_keys. exact Hnd.
  - apply (provider_body _ (dexTokens C)
             (fun l => NoDup (keyOf <$> l) /\ deduplicateTokens_returns l l
                       /\ Forall _ l)).
    + split; [constructor|]. split; [|constructor].
      unfold deduplicateTokens_returns. symmetry.
      apply DedupMore.deduplicateTokens_NoDup_keys. constructor.
    + intros pairs.
      assert (Hnd : NoDup (keyOf <$> dexTokens C pairs)).
      { apply NoDup_strKey_keyOf. unfold dexTokens.
        apply (fold_left_inv (filedInv strKey) (dexStep C) pairs
                 (dexStep_filed C) ([], ∅) (filedInv_start strKey)). }
      split; [exact Hnd|]. split; [|apply dexTokens_from].
      unfold deduplicateTokens_returns. symmetry.
      apply DedupMore.deduplicateTokens_NoDup_keys. exact Hnd.
Qed.

(** ** The loop over the exchange tickers *)
Section TickerLoop.

Context (C : Config) (W : World).


Lemma binanceStep_from queryUpper popularTokens acc ticker :
  let P := fun t =>
    ChainID t = 56
    /\ GoStrings.Contains (Symbol t) queryUpper = true
    /\ (exists address, popularTokens !! Symbol t = Some address
                        /\ Address t = GoStrings.ToLower address)
    /\ Name t = Symbol t /\ Popular t = true /\ Source t = "binance" in
  Forall P (fst acc) ->
  Forall P (fst (binanceStep queryUpper popularTokens acc ticker)).
Proof.
  destruct acc as [tokens seen]. intros P Hacc. unfold binanceStep.
  destruct (if GoStrings.HasSuffix (tk_Symbol ticker) "USDT" then _ else _)
    as [baseAsset|]; [|exact Hacc].
  destruct (GoStrings.Contains baseAsset queryUpper) eqn:Hc; cbn [andb];
    [|exact Hacc].
  destruct (negb (lookupOr seen baseAsset false)); [|exact Hacc].
  destruct (popularTokens !! baseAsset) as [address|] eqn:Hp; [|exact Hacc].
  cbn [fst]. apply Forall_snoc; [exact Hacc|].
  unfold P. cbn [newToken ChainID Symbol Address Name Popular Source].
  split; [reflexivity|]. split; [exact Hc|]. split; [eauto|]. auto.
Qed.

End TickerLoop.


(** ** Detection of the chains of a contract *)
Section DetectMore.

Context (L : Deps) (C : Config) (W : World).

Lemma callStringMethod_Ok rpcURL address methodSig :
  is_Ok (fst (callStringMethod L W rpcURL address methodSig)) = true
  <-> exists str, stringCallGives L W rpcURL address methodSig str.
Proof.
  unfold callStringMethod, stringCallGives. rewrite fst_bind.
  cbn [send ret fst]. split.
  - destruct (CallContract W rpcURL address methodSig) as [response|];
      [|discriminate].
    destruct (Nat.ltb_spec (length response) 64) as [?|Hlen]; [discriminate|].
    destruct (UnpackString L response) as [str|] eqn:Hs; [|discriminate].
    intros _. exists str, response. auto.
  - intros (str & response & -> & Hlen & Hs).
    destruct (Nat.ltb_spec (length response) 64) as [?|_]; [lia|].
    rewrite Hs. reflexivity.
Qed.

Lemma quickTokenCheck_true address chainID :
  fst (quickTokenCheck L C W address chainID) = true
  <-> exists chain,
        GetActiveChains C !! chainID = Some chain
        /\ RpcURL chain <> ""
        /\ DialContext W (RpcURL chain) = true
        /\ exists name,
             stringCallGives L W (RpcURL chain) address nameSignature name.
Proof.
  unfold quickTokenCheck.
  destruct (GetActiveChains C !! chainID) as [chain|]; cbn [ret fst].
  - destruct (String.eqb_spec (RpcURL chain) "") as [Hrpc|Hrpc]; cbn [ret fst].
    + split; [discriminate|]. intros (chain' & [= <-] & Hne & _). contradiction.
    + rewrite fst_bind. cbn [send fst].
      destruct (DialContext W (RpcURL chain)) eqn:Hdial; cbn [negb ret fst].
      * rewrite fst_bind. cbn [ret fst]. rewrite callStringMethod_Ok. split.
        -- intros Hname. exists chain. auto.
        -- intros (chain' & [= <-] & _ & _ & Hname). exact Hname.
      * split; [discriminate|].
        intros (chain' & [= <-] & _ & Hd & _). congruence.
  - split; [discriminate|]. intros (chain' & [=] & _).
Qed.

Lemma omap_valid (p : Z -> bool) (l : list Z) :
  omap (fun r : Z * bool => if snd r then Some (fst r) else None)
       (map (fun c => (c, p c)) l)
  = filter (fun c => p c = true) l.
Proof.
  induction l as [|c l IH]; [reflexivity|].
  cbn [map omap list_omap fst snd]. rewrite filter_cons.
  fold (@omap list _ _ _ (fun r : Z * bool => if snd r then Some (fst r) else None)
          (map (fun c => (c, p c)) l)).
  rewrite IH. destruct (p c); cbn [fst snd].
  - rewrite decide_True by reflexivity. reflexivity.
  - rewrite decide_False by discriminate. reflexivity.
Qed.

(** X17. [detectTokenChains] reports each chain at most once, and reports
    a chain exactly when it is a key of the map it was given and an active
    chain with an RPC URL whose endpoint can be dialled and answers the
    [name()] call with a string; it sends chain requests only, at most two
    per chain of the map. *)
Theorem detectTokenChains_reports (address : string)
    (chains : gmap Z ChainConfig) :
  let found := fst (detectTokenChains L C W address chains) in
  NoDup found
  /\ (forall c, c ∈ found
        <-> is_Some (chains !! c)
            /\ exists chain,
                 GetActiveChains C !! c = Some chain
                 /\ RpcURL chain <> ""
                 /\ DialContext W (RpcURL chain) = true
                 /\ exists name,
                      stringCallGives L W (RpcURL chain) address nameSignature
                        name)
  /\ chainOnly (2 * size chains)
       (snd (detectTokenChains L C W address chains)).
Proof.
  cbv zeta. unfold detectTokenChains. rewrite fst_bind, snd_bind.
  cbn [ret fst snd]. rewrite app_nil_r, fst_forEach, snd_forEach.
  assert (Hfst : map (fun cID =>
                        fst (do isValid <- quickTokenCheck L C W address cID;
                             ret (cID, isValid)))
                     (map_to_list chains).*1
                 = map (fun cID => (cID, fst (quickTokenCheck L C W address cID)))
                       (map_to_list chains).*1).
  { apply map_ext. intros cID. rewrite fst_bind. reflexivity. }
  rewrite Hfst, omap_valid. split; [|split].
  - apply NoDup_filter, NoDup_fst_map_to_list.
  - intros c. rewrite list_elem_of_filter, quickTokenCheck_true.
    rewrite list_elem_of_fmap. split.
    + intros [Hq ([c' chain'] & -> & Hin)]. split; [|exact Hq].
      apply elem_of_map_to_list in Hin. cbn [fst]. eauto.
    + intros [[chain' Hin] Hq]. split; [exact Hq|].
      exists (c, chain'). split; [reflexivity|].
      apply elem_of_map_to_list. exact Hin.
  - rewrite <- (length_map_to_list chains),
      <- (length_fmap fst (map_to_list chains)).
    apply chainOnly_concat. intros cID. rewrite snd_bind. cbn [ret snd].
    rewrite app_nil_r. apply quickTokenCheck_requests.
Qed.

End DetectMore.

(** ** What a query that is not an address sends; a token with market data *)
Section ComposeMore.

Context (L : Deps) (C : Config) (W : World).

Lemma symbolTask_requests queryUpper cID :
  chainOnly 4 (snd (symbolTask L C W queryUpper cID))
  /\ (GetPopularTokens C cID !! queryUpper = None ->
      snd (symbolTask L C W queryUpper cID) = []).
Proof.
  unfold symbolTask.
  destruct (GetPopularTokens C cID !! queryUpper) as [address|].
  - split; [|discriminate]. rewrite snd_bind. cbn [ret snd].
    rewrite app_nil_r. apply verifyTokenOnchain_requests.
  - split; [apply chainOnly_nil | reflexivity].
Qed.

Lemma concat_nil {A B} (g : A -> list B) (l : list A) :
  (forall a, a ∈ l -> g a = []) -> concat (map g l) = [].
Proof.
  induction l as [|a l IH]; intros H; [reflexivity|].
  cbn [map concat]. rewrite (H a) by left. rewrite IH; [reflexivity|].
  intros a' Ha'. apply H. right. exact Ha'.
Qed.

(** X18. A query that is not classified as an address sends a GET to
    each of the three providers whose request could be created from its
    URL, the two search URLs carrying the query as typed, and besides them
    only requests to chain endpoints, at most four per active chain; when
    no active chain has the upper-cased query in its popular-token table,
    the GETs are all that is sent. *)
Theorem symbol_query_requests (query : string) :
  DetectInputType query <> "address" ->
  exists gets onchain,
    snd (searchFresh L C W query) = gets ++ onchain
    /\ Permutation gets (providerGets W query)
    /\ chainOnly (4 * size (GetActiveChains C)) onchain
    /\ ((forall cID, is_Some (GetActiveChains C !! cID) ->
           GetPopularTokens C cID !! GoStrings.ToUpper query = None) ->
        onchain = []).
Proof.
  intros Hna. apply String.eqb_neq in Hna.
  unfold searchFresh, searchOnchain. rewrite Hna.
  rewrite !snd_bind. cbn [ret snd]. rewrite !app_nil_r.
  eexists _, _. split; [reflexivity|]. split; [|split].
  - unfold externalAPIs, searchGeckoTerminal, searchDexScreener, searchBinance.
    rewrite !snd_bind, !snd_httpGet. cbn [ret snd]. rewrite !app_nil_r.
    unfold providerGets. reflexivity.
  - rewrite snd_forEach, <- (activeChainIDs_length C).
    apply chainOnly_concat. intros cID. apply symbolTask_requests.
  - intros Hnone. rewrite snd_forEach. apply concat_nil.
    intros cID HcID. apply symbolTask_requests, Hnone.
    apply activeChainIDs_elem. exact HcID.
Qed.

Lemma enhanceTokenWithMarketData_requests now token :
  exists rest,
    snd (enhanceTokenWithMarketData L W now token)
    = sentGet (tokenPairsURL token) (DexTokens W (tokenPairsURL token)) ++ rest
    /\ (rest = []
        \/ rest = sentGet
                    (geckoTokenURL
                       (getNetworkSlugForGeckoTerminal (ChainID token)) token)
                    (GeckoToken W
                       (geckoTokenURL
                          (getNetworkSlugForGeckoTerminal (ChainID token))
                          token))).
Proof.
  unfold enhanceTokenWithMarketData. rewrite snd_bind.
  assert (Hdex : snd (enhanceFromDexScreener L W now token)
                 = sentGet (tokenPairsURL token)
                     (DexTokens W (tokenPairsURL token))).
  { unfold enhanceFromDexScreener. rewrite snd_bind, snd_httpGet.
    cbn [ret snd]. apply app_nil_r. }
  rewrite Hdex.
  destruct (fst (enhanceFromDexScreener L W now token)) as [[[|] t1]|msg] eqn:H1.
  - exists []. split; [reflexivity | left; reflexivity].
  - apply enhanceFromDexScreener_cases in H1 as [[_ ->]|[Hb _]];
      [|discriminate].
    eexists. split; [reflexivity|].
    rewrite snd_bind. cbn [ret snd]. rewrite app_nil_r.
    unfold enhanceFromGeckoTerminal.
    destruct (String.eqb (getNetworkSlugForGeckoTerminal (ChainID token)) "").
    + left. reflexivity.
    + right. rewrite snd_bind, snd_httpGet. cbn [ret snd]. apply app_nil_r.
  - exists []. split; [reflexivity | left; reflexivity].
Qed.

(** X19. [getTokenWithMarketData] asks no provider about a contract that
    on-chain verification rejects: it then returns no token and has sent
    only the requests of the verification.  For a verified contract it
    asks, after those, the DEX-pair provider and at most the pool provider
    after it, each by one GET unless the request could not be created from
    the URL; a token it returns carries the lower-cased address and the
    chain asked for, is verified, has a non-empty symbol and name and
    decimals between 0 and 77, and its source is one of the three
    enrichment tags, never "onchain". *)
Theorem getTokenWithMarketData_result (now : Z) (address : string)
    (chainID : Z) :
  let run := getTokenWithMarketData L C W now address chainID in
  let base := verifyTokenOnchain L C W address chainID in
  match fst base with
  | None => run = (Returned None, snd base)
  | Some baseToken =>
      (exists rest,
         snd run
         = snd base
           ++ sentGet (tokenPairsURL baseToken)
                (DexTokens W (tokenPairsURL baseToken))
           ++ rest
         /\ (rest = []
             \/ rest = sentGet
                         (geckoTokenURL
                            (getNetworkSlugForGeckoTerminal (ChainID baseToken))
                            baseToken)
                         (GeckoToken W
                            (geckoTokenURL
                               (getNetworkSlugForGeckoTerminal
                                  (ChainID baseToken))
                               baseToken))))
      /\ match fst run with
         | Returned None => False
         | Returned (Some t) =>
             Address t = GoStrings.ToLower address
             /\ ChainID t = chainID
             /\ Verified t = true
             /\ Symbol t <> "" /\ Name t <> ""
             /\ 0 <= Decimals t <= 77
             /\ (Source t = "dexscreener_enhanced"
                 \/ Source t = "geckoterminal_enhanced"
                 \/ Source t = "onchain_only")
         | Panicked _ => True
         end
  end.
Proof.
  cbv zeta. unfold getTokenWithMarketData.
  destruct (verifyTokenOnchain L C W address chainID) as [[baseToken|] sent]
    eqn:Hbase; cbn [fst snd bind ret].
  - assert (Hv : fst (verifyTokenOnchain L C W address chainID) = Some baseToken)
      by (rewrite Hbase; reflexivity).
    apply verifyTokenOnchain_inv in Hv
      as (chain' & info & _ & _ & Hinfo & Hs & Hn & Htok).
    apply getTokenInfoFromContract_range in Hinfo.
    pose proof (enhanceTokenWithMarketData_requests now baseToken)
      as (rest & Hsent & Hrest).
    pose proof (enhanceTokenWithMarketData_cases L W now baseToken) as Hcases.
    destruct (enhanceTokenWithMarketData L W now baseToken) as [r http].
    cbn [bind ret fst snd] in *. split.
    + exists rest. rewrite app_nil_r, Hsent. split; [reflexivity | exact Hrest].
    + destruct r as [t|msg]; [|exact I].
      assert (Hid : sameIdentity baseToken t
                    /\ (Source t = "dexscreener_enhanced"
                        \/ Source t = "geckoterminal_enhanced"
                        \/ Source t = "onchain_only")).
      { destruct (Hcases t eq_refl)
          as [-> | [(p & v & m & c & ->) | (p & v & m & c & b & logo & ->)]].
        - split; [repeat split; reflexivity | auto].
        - split; [apply sameIdentity_parse | auto].
        - pose proof (sameIdentity_parse L now baseToken p v m c) as Hid.
          split; [destruct b; exact Hid|].
          right; left; destruct b; reflexivity. }
      destruct Hid as [(Ha & Hsy & Hna & Hc & Hd & Hve & _) Hsrc].
      rewrite Ha, Hsy, Hna, Hc, Hd, Hve, Htok.
      cbn [newToken Address ChainID Verified Symbol Name Decimals].
      repeat (split; [reflexivity|]).
      split; [apply ToUpper_nonempty; exact Hs|].
      split; [exact Hn|]. split; [exact Hinfo | exact Hsrc].
  - rewrite app_nil_r. reflexivity.
Qed.

End ComposeMore.

(** ** De-duplication across the providers *)
Section SurvivalMore.

Context (L : Deps) (C : Config) (W : World).

Lemma searchGeckoTerminal_filed (query : string) :
  NoDup (strKey <$> fst (searchGeckoTerminal C W query))
  /\ Forall (fun t => Source t = "geckoterminal")
            (fst (searchGeckoTerminal C W query)).
Proof.
  unfold searchGeckoTerminal. rewrite fst_bind. rewrite ?fst_httpGet. cbn [send ret fst].
  apply (provider_body _ (geckoTokens C)
           (fun l => NoDup (strKey <$> l) /\ Forall _ l)).
  - split; constructor.
  - intros pools. split.
    + apply (fold_left_inv (filedInv strKey) (geckoStep C) pools
               (geckoStep_filed C) ([], ∅) (filedInv_start strKey)).
    + eapply Forall_impl; [apply geckoTokens_from|].
      intros t Ht. cbv beta in Ht. tauto.
Qed.

Lemma searchDexScreener_source (query : string) :
  Forall (fun t => Source t = "dexscreener") (fst (searchDexScreener C W query)).
Proof.
  unfold searchDexScreener. rewrite fst_bind. rewrite ?fst_httpGet. cbn [send ret fst].
  apply (provider_body _ (dexTokens C) (fun l => Forall _ l)); [constructor|].
  intros pairs. eapply Forall_impl; [apply dexTokens_from|].
  intros t Ht. cbv beta in Ht. tauto.
Qed.

Lemma searchBinance_source (query : string) :
  Forall (fun t => Source t = "binance") (fst (searchBinance C W query)).
Proof.
  unfold searchBinance. rewrite fst_bind. rewrite ?fst_httpGet. cbn [send ret fst].
  apply (provider_body _ (binanceTokens C query) (fun l => Forall _ l));
    [constructor|].
  intros tickers. unfold binanceTokens.
  destruct (GetChainByID C bscChainID) as [chain|]; [|constructor].
  destruct (IsActive chain); [|constructor].
  eapply Forall_impl.
  - apply (fold_left_inv _ _ tickers (binanceStep_from _ _) ([], ∅)).
    constructor.
  - intros t Ht. cbv beta in Ht. tauto.
Qed.

Lemma searchOnchain_source (query : string) :
  Forall (fun t => Source t = "onchain") (fst (searchOnchain L C W query)).
Proof.
  unfold searchOnchain.
  destruct (String.eqb (DetectInputType query) "address").
  - unfold searchByAddressOptimized. rewrite fst_bind. cbn [ret fst].
    rewrite fst_forEach. apply Forall_forall. intros t Ht.
    apply omap_id_elem in Ht as (cID & _ & Ht).
    apply addressTask_token in Ht. tauto.
  - rewrite fst_bind. cbn [ret fst]. rewrite fst_forEach.
    apply Forall_forall. intros t Ht.
    apply omap_id_elem in Ht as (cID & _ & Ht).
    apply symbolTask_token in Ht. tauto.
Qed.

Lemma NoDup_fmap_eq {A B} (f : A -> B) (l : list A) (x y : A) :
  NoDup (f <$> l) -> x ∈ l -> y ∈ l -> f x = f y -> x = y.
Proof.
  induction l as [|a l IH]; intros Hnd Hx Hy Hf.
  - inversion Hx.
  - cbn [fmap list_fmap] in Hnd. apply NoDup_cons in Hnd as [Hnotin Hnd].
    apply elem_of_cons in Hx as [->|Hx]; apply elem_of_cons in Hy as [->|Hy].
    + reflexivity.
    + exfalso. apply Hnotin. rewrite Hf. apply list_elem_of_fmap. eauto.
    + exfalso. apply Hnotin. rewrite <- Hf. apply list_elem_of_fmap. eauto.
    + apply IH; assumption.
Qed.

(** X20. In a search for a query that is not an address, a record of the
    pool provider is never dropped by the de-duplication: it is in the
    result as the provider gave it, and it is the only record of the result
    with its (chain, lower-cased address) key, so a record that the
    on-chain look-up or another provider found under that key is not
    returned. *)
Theorem pool_provider_records_survive (query : string) (g : Token) :
  DetectInputType query <> "address" ->
  g ∈ fst (searchGeckoTerminal C W query) ->
  g ∈ fst (searchFresh L C W query)
  /\ forall t, t ∈ fst (searchFresh L C W query) -> keyOf t = keyOf g -> t = g.
Proof.
  intros Hna Hg. apply String.eqb_neq in Hna.
  unfold searchFresh. rewrite Hna. rewrite !fst_bind. cbn [ret fst].
  unfold externalAPIs. rewrite !fst_bind. cbn [ret fst].
  set (gecko := fst (searchGeckoTerminal C W query)) in *.
  set (dex := fst (searchDexScreener C W query)).
  set (binance := fst (searchBinance C W query)).
  set (onchain := fst (searchOnchain L C W query)).
  set (all := (gecko ++ dex ++ binance) ++ onchain).
  destruct (searchGeckoTerminal_filed query) as [Hnd Hsrc].
  fold gecko in Hnd, Hsrc.
  assert (Hin : g ∈ deduplicateTokens all).
  { destruct (DedupFacts.dedupSeen_inv all) as [I1 I2].
    destruct (I2 g) as (r & Hr & Hprio).
    { unfold all. rewrite !elem_of_app. auto. }
    destruct (I1 _ _ Hr) as [Hrin Hkey].
    rewrite (proj1 (Forall_forall _ _) Hsrc g Hg) in Hprio.
    change (getSourcePriority "geckoterminal") with 4 in Hprio.
    apply DedupFacts.elem_of_deduplicateTokens. exists (strKey g).
    enough (Hrg : r = g) by (rewrite <- Hrg at 2; exact Hr).
    unfold all in Hrin. rewrite !elem_of_app in Hrin.
    destruct Hrin as [[Hrin|[Hrin|Hrin]]|Hrin].
    - exact (NoDup_fmap_eq strKey gecko r g Hnd Hrin Hg Hkey).
    - exfalso.
      rewrite (proj1 (Forall_forall _ _) (searchDexScreener_source query) r Hrin)
        in Hprio.
      vm_compute in Hprio. apply Hprio. reflexivity.
    - exfalso.
      rewrite (proj1 (Forall_forall _ _) (searchBinance_source query) r Hrin)
        in Hprio.
      vm_compute in Hprio. apply Hprio. reflexivity.
    - exfalso.
      rewrite (proj1 (Forall_forall _ _) (searchOnchain_source query) r Hrin)
        in Hprio.
      vm_compute in Hprio. apply Hprio. reflexivity. }
  split; [exact Hin|].
  intros t Ht Hkey.
  exact (NoDup_fmap_eq keyOf (deduplicateTokens all) t g
           (DedupFacts.NoDup_keys_deduplicateTokens all) Ht Hin Hkey).
Qed.

End SurvivalMore.

(** ** The 24h tickers indexed by symbol *)
Module PricesMore.

Lemma lastOf_skip {V} (s : string) (l : list (option string * V))
    (r : option string * V) (v : V) :
  fst r <> Some s -> lastOf s (l ++ [r]) v <-> lastOf s l v.
Proof.
  intros Hr. unfold lastOf. split.
  - intros (i & Hi & Hlast).
    destruct (decide (i < length l)%nat) as [Hlt|Hge].
    + exists i. rewrite lookup_app_l in Hi by assumption.
      split; [exact Hi|]. intros j v' Hj Hl. apply (Hlast j v' Hj).
      apply lookup_app_l_Some. exact Hl.
    + rewrite lookup_app_r in Hi by lia.
      destruct (i - length l)%nat; [|discriminate].
      injection Hi as ->. contradiction.
  - intros (i & Hi & Hlast). exists i.
    split; [apply lookup_app_l_Some; exact Hi|].
    intros j v' Hj Hl.
    destruct (decide (j < length l)%nat) as [Hlt|Hge].
    + rewrite lookup_app_l in Hl by assumption. exact (Hlast j v' Hj Hl).
    + rewrite lookup_app_r in Hl by lia.
      destruct (j - length l)%nat; [|discriminate].
      injection Hl as ->. contradiction.
Qed.

Lemma lastOf_here {V} (s : string) (l : list (option string * V)) (x v : V) :
  lastOf s (l ++ [(Some s, x)]) v <-> x = v.
Proof.
  unfold lastOf. split.
  - intros (i & Hi & Hlast).
    destruct (decide (i < length l)%nat) as [Hlt|Hge].
    + exfalso. apply (Hlast (length l) x Hlt).
      rewrite lookup_app_r by lia. rewrite Nat.sub_diag. reflexivity.
    + rewrite lookup_app_r in Hi by lia.
      destruct (i - length l)%nat; [|discriminate].
      injection Hi as ->. reflexivity.
  - intros <-. exists (length l). split.
    + rewrite lookup_app_r by lia. rewrite Nat.sub_diag. reflexivity.
    + intros j v' Hj Hl. rewrite lookup_app_r in Hl by lia.
      destruct (j - length l)%nat eqn:Hd; [lia | discriminate].
Qed.

Lemma priceData_lookup {V} (results : list (option string * V)) (s : string)
    (v : V) :
  fold_left priceStep results ∅ !! s = Some v <-> lastOf s results v.
Proof.
  induction results as [|[o x] l IH] using rev_ind.
  - cbn [fold_left]. rewrite lookup_empty. split; [discriminate|].
    intros (i & Hi & _). rewrite lookup_nil in Hi. discriminate.
  - rewrite fold_left_app. cbn [fold_left]. unfold priceStep at 1.
    cbn [fst snd]. destruct o as [s'|].
    + destruct (decide (s' = s)) as [->|Hne].
      * rewrite lookup_insert_eq, lastOf_here. split; congruence.
      * rewrite lookup_insert_ne by assumption.
        rewrite lastOf_skip by (cbn [fst]; congruence). exact IH.
    + rewrite lastOf_skip by (cbn [fst]; discriminate). exact IH.
Qed.

End PricesMore.

(** X21. [GetBinancePrices] sends nothing for an empty list of symbols and
    returns an empty map; otherwise it sends one GET, unless the request
    could not be created from the URL.  When the provider answers 200 with
    a body that decodes, the map returned holds, under each symbol carried
    by a result of the response, the last result that carries it, whether
    or not the symbol was asked for, and nothing under any other key; every
    other outcome gives an error. *)
Theorem GetBinancePrices_indexes_last_result {V}
    (marshal : list string -> string)
    (ticker24hr : string -> HttpOutcome (list (option string * V)))
    (symbols : list string) :
  let run := GetBinancePrices marshal ticker24hr symbols in
  let url := "https://api.binance.com/api/v3/ticker/24hr?symbols="
             +:+ marshal symbols in
  match symbols with
  | [] => run = (Ok ∅, [])
  | _ :: _ =>
      snd run = sentGet url (ticker24hr url)
      /\ match ticker24hr url with
         | Response status (Some (_, Some results)) =>
             if status =? 200
             then exists priceData,
                    fst run = Ok priceData
                    /\ forall s v, priceData !! s = Some v <-> lastOf s results v
             else is_Ok (fst run) = false
         | _ => is_Ok (fst run) = false
         end
  end.
Proof.
  cbv zeta. destruct symbols as [|symbol symbols]; [reflexivity|].
  unfold GetBinancePrices. cbn [length Nat.eqb].
  rewrite snd_bind, fst_bind, snd_httpGet, fst_httpGet. cbn [ret fst snd].
  split; [apply app_nil_r|].
  destruct (ticker24hr _) as [|status [[n [results|]]|]|]; [reflexivity|..];
    try destruct (status =? 200); cbn [negb]; try reflexivity.
  eexists. split; [reflexivity|]. intros s v.
  apply PricesMore.priceData_lookup.
Qed.

(** ** The further properties at sample inputs *)

Lemma deduplicateTokens_ties_keep_first_sample :
  let r := newToken (GoStrings.ToLower Sample.usdc) "USDC" "USD Coin" 1 18
             "geckoterminal" true false in
  deduplicateTokens_returns Sample.collidingTokens
    (deduplicateTokens Sample.collidingTokens)
  /\ r ∈ deduplicateTokens Sample.collidingTokens
  /\ exists i, Sample.collidingTokens !! i = Some r
       /\ forall j t, (j < i)%nat -> Sample.collidingTokens !! j = Some t ->
            keyOf t = keyOf r ->
            getSourcePriority (Source t) < getSourcePriority (Source r).
Proof.
  cbv zeta.
  assert (H1 : deduplicateTokens_returns Sample.collidingTokens
                 (deduplicateTokens Sample.collidingTokens))
    by apply Permutation_refl.
  assert (H2 : newToken (GoStrings.ToLower Sample.usdc) "USDC" "USD Coin" 1 18
                 "geckoterminal" true false
               ∈ deduplicateTokens Sample.collidingTokens).
  { vm_compute. right. left. }
  split; [exact H1|]. split; [exact H2|].
  exact (deduplicateTokens_ties_keep_first Sample.collidingTokens
           (deduplicateTokens Sample.collidingTokens) _ H1 H2).
Defined.

Lemma deduplicateTokens_idempotent_sample :
  deduplicateTokens_returns Sample.collidingTokens
    (deduplicateTokens Sample.collidingTokens)
  /\ Permutation (deduplicateTokens (deduplicateTokens Sample.collidingTokens))
                 (deduplicateTokens Sample.collidingTokens).
Proof.
  split; [apply Permutation_refl|].
  exact (deduplicateTokens_idempotent Sample.collidingTokens
           (deduplicateTokens Sample.collidingTokens)
           (deduplicateTokens (deduplicateTokens Sample.collidingTokens))
           (Permutation_refl _) (Permutation_refl _)).
Defined.

Lemma verifyTokenOnchain_token_sample :
  fst (verifyTokenOnchain Sample.deps Sample.config
         (Sample.erc20World (Sample.word 6)) Sample.usdc 1)
  = Some Sample.usdcToken
  /\ Address Sample.usdcToken = GoStrings.ToLower Sample.usdc
  /\ Source Sample.usdcToken = "onchain"
  /\ 0 <= Decimals Sample.usdcToken <= 77.
Proof.
  assert (H : fst (verifyTokenOnchain Sample.deps Sample.config
                     (Sample.erc20World (Sample.word 6)) Sample.usdc 1)
              = Some Sample.usdcToken) by (vm_compute; reflexivity).
  split; [exact H|].
  destruct (verifyTokenOnchain_token Sample.deps Sample.config
              (Sample.erc20World (Sample.word 6)) Sample.usdc 1
              Sample.usdcToken H)
    as (Ha & _ & Hs & _ & _ & _ & _ & Hd & _).
  split; [exact Ha|]. split; [exact Hs | exact Hd].
Defined.

Lemma address_query_requests_sample :
  let W := Sample.erc20World (Sample.word 6) in
  DetectInputType Sample.usdc = "address"
  /\ Forall (fun r => isChainRequest r = true)
       (snd (searchFresh Sample.deps Sample.config W Sample.usdc))
  /\ (length (snd (searchFresh Sample.deps Sample.config W Sample.usdc))
      <= 12 * size (GetActiveChains Sample.config))%nat.
Proof.
  cbv zeta.
  assert (H : DetectInputType Sample.usdc = "address")
    by (vm_compute; reflexivity).
  split; [exact H|].
  exact (address_query_requests Sample.deps Sample.config
           (Sample.erc20World (Sample.word 6)) Sample.usdc H).
Defined.

Lemma decimals_read_from_last_eight_bytes_sample :
  let W := Sample.erc20World Sample2.wideDecimalsWord in
  let pre := repeat x00 23 ++ [x01] in
  let last := repeat x00 7 ++ [x05] in
  CallContract W "https://eth.example/rpc" Sample.usdc decimalsSignature
  = Some (pre ++ last)
  /\ SetBytes (pre ++ last) = 2 ^ 64 + 5
  /\ fst (callDecimalsMethod W "https://eth.example/rpc" Sample.usdc
            decimalsSignature) = Ok 5.
Proof.
  cbv zeta.
  assert (H : CallContract (Sample.erc20World Sample2.wideDecimalsWord)
                "https://eth.example/rpc" Sample.usdc decimalsSignature
              = Some ((repeat x00 23 ++ [x01]) ++ repeat x00 7 ++ [x05]))
    by reflexivity.
  split; [exact H|]. split; [vm_compute; reflexivity|].
  exact (decimals_read_from_last_eight_bytes
           (Sample.erc20World Sample2.wideDecimalsWord)
           "https://eth.example/rpc" Sample.usdc
           (repeat x00 23 ++ [x01]) (repeat x00 7 ++ [x05])
           H eq_refl (le_n 24)).
Defined.

Lemma enrichment_keeps_identity_sample :
  let t' := set_Source "geckoterminal_enhanced"
              (set_LastUpdated 7 Sample.usdcToken) in
  fst (enhanceTokenWithMarketData Sample.deps Sample3.nameOnlyWorld 7
         Sample.usdcToken) = Returned t'
  /\ sameIdentity Sample.usdcToken t'
  /\ (Source t' = "dexscreener_enhanced"
      \/ Source t' = "geckoterminal_enhanced"
      \/ Source t' = "onchain_only").
Proof.
  cbv zeta.
  assert (H : fst (enhanceTokenWithMarketData Sample.deps Sample3.nameOnlyWorld 7
                     Sample.usdcToken)
              = Returned (set_Source "geckoterminal_enhanced"
                            (set_LastUpdated 7 Sample.usdcToken)))
    by (vm_compute; reflexivity).
  split; [exact H|].
  destruct (enrichment_keeps_identity Sample.deps Sample3.nameOnlyWorld 7
              Sample.usdcToken _ H) as (Hid & Hsrc & _).
  split; [exact Hid | exact Hsrc].
Defined.

Lemma enhanceFromGeckoTerminal_fields_sample :
  let attrs := {| ga_Name := "USD Coin"; ga_ImageURL := "";
                  ga_PriceUsd := ""; ga_FdvUsd := "";
                  ga_MarketCapUsd := ""; ga_VolumeUsdH24 := "" |} in
  getNetworkSlugForGeckoTerminal (ChainID Sample.usdcToken) = "eth"
  /\ GeckoToken Sample3.nameOnlyWorld (geckoTokenURL "eth" Sample.usdcToken)
     = Response 200 (Some (300%nat, Some attrs))
  /\ exists t',
       fst (enhanceFromGeckoTerminal Sample.deps Sample3.nameOnlyWorld 7
              Sample.usdcToken) = Returned (true, t')
       /\ Source t' = "geckoterminal_enhanced"
       /\ LastUpdated t' = 7
       /\ Change24h t' = decimal.mkDecimal 0 0.
Proof.
  cbv zeta. split; [vm_compute; reflexivity|]. split; [reflexivity|].
  destruct (enhanceFromGeckoTerminal_fields Sample.deps Sample3.nameOnlyWorld 7
              Sample.usdcToken 300
              {| ga_Name := "USD Coin"; ga_ImageURL := "";
                 ga_PriceUsd := ""; ga_FdvUsd := "";
                 ga_MarketCapUsd := ""; ga_VolumeUsdH24 := "" |})
    as (t' & Hrun & Hsrc & Hnow & _ & _ & _ & Hchange & _).
  - vm_compute. discriminate.
  - reflexivity.
  - lia.
  - discriminate.
  - exists t'. split; [exact Hrun|]. split; [exact Hsrc|].
    split; [exact Hnow|]. rewrite Hchange. vm_compute. reflexivity.
Defined.

Lemma geckoterminal_tables_differ_on_testnets_sample :
  mapGeckoTerminalNetworkToChainID "base-sepolia" = 84532
  /\ getNetworkSlugForGeckoTerminal 84532 = "base_sepolia"
  /\ mapGeckoTerminalNetworkToChainID "base_sepolia" = 0.
Proof.
  assert (Hc : mapGeckoTerminalNetworkToChainID "base-sepolia" = 84532)
    by (vm_compute; reflexivity).
  assert (Hne : mapGeckoTerminalNetworkToChainID "base-sepolia" <> 0)
    by (rewrite Hc; lia).
  destruct (geckoterminal_tables_differ_on_testnets "base-sepolia" Hne)
    as (_ & _ & Hback).
  split; [exact Hc|]. split; [vm_compute; reflexivity|].
  rewrite Hc in Hback. exact Hback.
Defined.

Lemma symbol_query_requests_sample :
  DetectInputType "LINK" <> "address"
  /\ exists gets onchain,
       snd (searchFresh Sample.deps Sample.config Sample.poolWorld "LINK")
       = gets ++ onchain
       /\ length gets = 3%nat
       /\ onchain = [].
Proof.
  assert (H : DetectInputType "LINK" <> "address")
    by (vm_compute; discriminate).
  split; [exact H|].
  destruct (symbol_query_requests Sample.deps Sample.config Sample.poolWorld
              "LINK" H) as (gets & onchain & Hsent & Hgets & _ & Hnone).
  exists gets, onchain. split; [exact Hsent|].
  split; [exact (Permutation_length Hgets)|].
  apply Hnone. intros cID [chain Hchain].
  unfold Sample.config, GetPopularTokens.
  destruct (cID =? 1); [vm_compute; reflexivity|].
  destruct (cID =? 56); vm_compute; reflexivity.
Defined.

Lemma pool_provider_records_survive_sample :
  let g := legToken (mkTokenLeg Sample.weth "weth" "Wrapped Ether") 1
             "geckoterminal" in
  DetectInputType "weth" <> "address"
  /\ g ∈ fst (searchGeckoTerminal Sample.config Sample.poolWorld "weth")
  /\ g ∈ fst (searchFresh Sample.deps Sample.config Sample.poolWorld "weth").
Proof.
  cbv zeta.
  assert (H : DetectInputType "weth" <> "address")
    by (vm_compute; discriminate).
  assert (Hg : legToken (mkTokenLeg Sample.weth "weth" "Wrapped Ether") 1
                 "geckoterminal"
               ∈ fst (searchGeckoTerminal Sample.config Sample.poolWorld "weth")).
  { vm_compute. left. }
  split; [exact H|]. split; [exact Hg|].
  exact (proj1 (pool_provider_records_survive Sample.deps Sample.config
                  Sample.poolWorld "weth" _ H Hg)).
Defined.
